(** * The wash-sale cooldown ledger and the capital-erosion engine

    A shallow embedding of the decision-and-cooldown engine of
    [trading_bot.py] (and of its standalone twin [main.py], whose
    [check_wash_sale] and [analyze_erosion] are the same functions with the
    constants 31 and 0.10): [check_wash_sale], [analyze_erosion] and
    [TradingBot.run_bot_cycle], together with the exception-absorbing broker
    methods that the cycle calls.

    The model covers well-formed data: the ledger file holds a
    ["wash_sale_log"] of parseable dates, the symbol of a position record is
    a string and its other values are numbers, and writing the file
    succeeds. *)

From Stdlib Require Import ZArith List String Ascii Bool Lia.
From Stdlib Require Import Floats.
From stdpp Require Import gmap strings.

Local Open Scope Z_scope.

(** * Part I: the program *)

(** ** Data model *)

(** [analyze_erosion] returns one of two string constants. *)
Inductive verdict : Type :=
| HOLD
| SELL_CRITICAL.

(** The [action] argument of [place_order]. *)
Inductive action : Type :=
| BUY
| SELL.

(** A calendar date is its proleptic ordinal (a day count).  The ledger file
    keeps dates as ["%Y-%m-%d"] strings; [strftime] and [strptime] are
    inverse on them, and [(datetime.now() - last_loss_date).days] is the
    floor of the difference in days between a time of day and a midnight,
    which is the difference of the two ordinals (also when it is negative). *)
Abbreviation date := Z.

(** The cooldown ledger, [state["wash_sale_log"]]: ticker to the date of the
    last sale at a loss.  Python dict keys are compared exactly. *)
Abbreviation ledger := (gmap string date).

(** A Python number: an [int] or a [float].  Python floats are IEEE 754
    binary64 numbers, which is what Rocq's primitive [float] is. *)
Inductive pynum : Type :=
| PyInt (z : Z)
| PyFloat (f : float).

(** [float(x)]: an [int] is rounded to the nearest float, ties to even, and
    [OverflowError] is raised when that is out of range. *)
Definition py_float (x : pynum) : option float :=
  match x with
  | PyFloat f => Some f
  | PyInt z =>
      let f := SF2Prim (binary_normalize prec emax z 0 false) in
      if is_infinity f then None else Some f
  end.

(** [int(x)]: a [float] is truncated toward zero; [ValueError] is raised on
    a NaN and [OverflowError] on an infinity. *)
Definition py_int (x : pynum) : option Z :=
  match x with
  | PyInt z => Some z
  | PyFloat f =>
      match Prim2SF f with
      | S754_zero _ => Some 0
      | S754_finite sign m e =>
          let magnitude := Z.shiftl (Z.pos m) e in
          Some (if sign then - magnitude else magnitude)
      | S754_infinity _ | S754_nan => None
      end
  end.

(** A position record of [get_positions]: a dict read with [.get] on four
    keys.  A key may be absent; the symbol is a string and the other three
    values are numbers.  [other_keys] lists the further keys of the dict,
    which only matter for its truth value. *)
Record position : Type := Position {
  symbol : option string;
  average_price : option pynum;
  quantity : option pynum;
  dividends : option pynum;
  other_keys : list string
}.

(** A dict is falsy exactly when it is empty. *)
Definition dict_truthy (p : position) : bool :=
  negb (match symbol p, average_price p, quantity p, dividends p, other_keys p with
        | None, None, None, None, [] => true
        | _, _, _, _, _ => false
        end).

(** [str.upper] on ASCII text: the letters a to z move to A to Z and every
    other character stays. Ticker symbols are ASCII. *)
Definition upper_ascii (c : ascii) : ascii :=
  let n := nat_of_ascii c in
  if ((97 <=? n)%nat && (n <=? 122)%nat)%bool then ascii_of_nat (n - 32) else c.

Fixpoint upper (s : string) : string :=
  match s with
  | EmptyString => EmptyString
  | String c s' => String (upper_ascii c) (upper s')
  end.

(** What a run leaves behind, in order: log lines, writes of the ledger file,
    and every call across the broker interface with the value it returned. *)
Inductive event : Type :=
| LogNoBrokers                                   (* "No brokers available" *)
| LogAnalyzing (ticker : string)                 (* "--- Analyzing {ticker} ---" *)
| LogWashSaleWarning (ticker : string) (days_remaining : Z)
| Saved (wash_sale_log : ledger)                 (* [save_state] wrote the file *)
| BrokerLog (msg : string)                       (* [logger.error] inside a broker method *)
| MarketData (ticker : string) (price : float)   (* [get_market_data] returned *)
| LogNoPrice (ticker : string)                   (* "Could not get price data" *)
| Positions (positions : list position)          (* [get_positions] returned *)
| Order (ticker : string) (a : action) (qty : Z) (success : bool)
                                                  (* [place_order] returned *)
| LogCooldown (ticker : string)                  (* "logged for Wash Sale Cooldown" *)
| LogHold (ticker : string)                      (* "is holding steady" *)
| LogMonitoring (ticker : string) (price : float)(* "No position, monitoring price" *)
| LogAnalyzingOptions (ticker : string)          (* "--- Analyzing Options ---" *)
| OptionsChain (ticker : string) (empty : bool)  (* [get_options_chain] returned *)
| LogOptionsAnalysis (ticker : string)           (* "Analyzing options for" *)
| LogOpportunity (ticker : string)               (* "Options opportunity found" *)
| LogCycleComplete.                              (* "Cycle Complete. Sleeping..." *)

(** ** Pure functions *)

(** [MAX_DRAWDOWN_PCT] is a module-level constant read once from the
    environment; it is a parameter of the model.  The comparison [x > y] is
    [y <? x]: both are false when an operand is NaN. *)
Definition analyze_erosion (MAX_DRAWDOWN_PCT : float) (ticker : string)
    (current_price avg_cost total_dividends : float) : verdict :=
  let capital_loss := (current_price - avg_cost)%float in
  let net_position := (capital_loss + total_dividends)%float in
  if ((net_position <? 0)%float
      && (avg_cost * MAX_DRAWDOWN_PCT <? abs capital_loss)%float)%bool
  then SELL_CRITICAL
  else HOLD.

(** The default of [MAX_DRAWDOWN_PCT], [float('0.10')]: the binary64 number
    closest to one tenth. *)
Definition ten_percent : float := 0x1.999999999999ap-4%float.

(** [load_state]: the content of the ledger file, or an empty ledger when
    there is no file. *)
Definition load_state (file : option ledger) : ledger :=
  match file with
  | Some wash_sale_log => wash_sale_log
  | None => ∅
  end.

(** The position record of a ticker: the first record whose symbol equals
    the ticker once both are upper-cased; a record without the key reads as
    the empty string. *)
Definition find_position (ticker : string) (positions : list position)
    : option position :=
  List.find
    (fun p => String.eqb (upper (default EmptyString (symbol p))) (upper ticker))
    positions.

(** [float(p.get('average_price', 0))], [int(p.get('quantity', 0))] and
    [float(p.get('dividends', 0))], in this order; [None] when one of the
    three conversions raises. *)
Definition read_position (p : position) : option (float * Z * float) :=
  match py_float (default (PyInt 0) (average_price p)) with
  | Some avg_cost =>
      match py_int (default (PyInt 0) (quantity p)) with
      | Some qty =>
          match py_float (default (PyInt 0) (dividends p)) with
          | Some divs => Some (avg_cost, qty, divs)
          | None => None
          end
      | None => None
      end
  | None => None
  end.

(** ** The engine *)

Section Engine.

(** [W] is the state of everything outside the process (the brokerage and
    the clock), [Contract] an entry of an options chain. *)
Context {W Contract : Type}.

(** The bot: the ledger in memory ([self.state]), the ledger file, and the
    outside world. *)
Record machine : Type := Machine {
  state : ledger;
  file : option ledger;
  world : W
}.

(** A computation steps the machine and leaves events; its result is [None]
    when an exception is propagating. *)
Definition M (A : Type) : Type := machine -> option A * machine * list event.

Definition ret {A : Type} (a : A) : M A := fun m => (Some a, m, []).

Definition bind {A B : Type} (c : M A) (k : A -> M B) : M B :=
  fun m =>
    match c m with
    | (Some a, m1, e1) => let '(r, m2, e2) := k a m1 in (r, m2, e1 ++ e2)
    | (None, m1, e1) => (None, m1, e1)
    end.

Notation "x <- c ;; k" := (bind c (fun x => k))
  (at level 100, c at next level, right associativity).
Notation "c ;; k" := (bind c (fun _ => k))
  (at level 100, right associativity).

(** An exception leaves the computation. *)
Definition raise {A : Type} : M A := fun m => (None, m, []).

Definition emit (e : event) : M unit := fun m => (Some tt, m, [e]).

Definition get_wash_log : M ledger := fun m => (Some (state m), m, []).

(** [state["wash_sale_log"][ticker] = day] and [del state["wash_sale_log"][ticker]] *)
Definition set_wash_log (ticker : string) (day : date) : M unit :=
  fun m => (Some tt, Machine (<[ticker := day]> (state m)) (file m) (world m), []).

Definition del_wash_log (ticker : string) : M unit :=
  fun m => (Some tt, Machine (delete ticker (state m)) (file m) (world m), []).

(** [save_state(state)]: the file now holds the ledger in memory. *)
Definition save_state : M unit :=
  fun m => (Some tt, Machine (state m) (Some (state m)) (world m), [Saved (state m)]).

(** A broker method: it steps the world, may log errors, and returns a value
    or raises. *)
Definition call (A : Type) : Type := W -> option A * W * list string.

Record BrokerInterface : Type := {
  get_market_data : string -> call float;
  get_positions : call (list position);
  get_options_chain : string -> call (list Contract);
  place_order : string -> action -> Z -> call bool
}.

(** Calling a broker method from the cycle; [seen] is the event that records
    the returned value. *)
Definition broker_call {A : Type} (c : call A) (seen : A -> event) : M A :=
  fun m =>
    match c (world m) with
    | (Some a, w, logs) =>
        (Some a, Machine (state m) (file m) w, map BrokerLog logs ++ [seen a])
    | (None, w, logs) =>
        (None, Machine (state m) (file m) w, map BrokerLog logs)
    end.

(** Every method of [SchwabBroker] and of [RobinhoodBroker] has one shape:
    return the sentinel when not connected; otherwise run a block of SDK
    calls inside [try], and on any exception log an error and return the
    sentinel.  The block is an oracle on the world that yields a value or
    raises ([None]). *)
Record Sdk : Type := {
  connected : bool;
  quote_block : string -> W -> option float * W;
  positions_block : W -> option (list position) * W;
  chain_block : string -> W -> option (list Contract) * W;
  order_block : string -> action -> Z -> W -> option bool * W
}.

Definition absorbing {A : Type} (is_connected : bool)
    (block : W -> option A * W) (sentinel : A) (msg : string) : call A :=
  fun w =>
    if is_connected then
      match block w with
      | (Some a, w') => (Some a, w', [])
      | (None, w') => (Some sentinel, w', [msg])
      end
    else (Some sentinel, w, []).

Definition sdk_broker (s : Sdk) : BrokerInterface := {|
  get_market_data ticker :=
    absorbing (connected s) (quote_block s ticker) 0%float
      ("Error getting market data for " ++ ticker);
  get_positions :=
    absorbing (connected s) (positions_block s) [] "Error getting positions";
  get_options_chain ticker :=
    absorbing (connected s) (chain_block s ticker) []
      ("Error getting options chain for " ++ ticker);
  place_order ticker a qty :=
    absorbing (connected s) (order_block s ticker a qty) false
      "Error placing order"
|}.

(** *** Configuration and clock *)

Variable now : W -> date * W.            (* [datetime.now()], as a date *)
Variable WATCHLIST : list string.
Variable OPTIONS_WATCHLIST : list string.
Variable MAX_DRAWDOWN_PCT : float.
Variable WASH_SALE_DAYS : Z.

Definition datetime_now : M date :=
  fun m => let '(today, w) := now (world m) in
           (Some today, Machine (state m) (file m) w, []).

Definition check_wash_sale (ticker : string) : M bool :=
  wash_log <- get_wash_log ;;
  match wash_log !! ticker with
  | Some last_loss_date =>
      today <- datetime_now ;;
      let days_passed := today - last_loss_date in
      if days_passed <? WASH_SALE_DAYS then
        emit (LogWashSaleWarning ticker (WASH_SALE_DAYS - days_passed)) ;;
        ret true
      else
        del_wash_log ticker ;;
        save_state ;;
        ret false
  | None => ret false
  end.

(** Lines 583 and 584 of [run_bot_cycle], the spec's [record_loss_sale]:
    the entry of the ticker becomes today's date and the state is saved. *)
Definition record_loss_sale (ticker : string) : M unit :=
  today <- datetime_now ;;
  set_wash_log ticker today ;;
  save_state.

(** [analyze_options_opportunity]: a placeholder that returns [None]. *)
Definition analyze_options_opportunity (ticker : string) (current_price : float)
    (options_chain : list Contract) : M (option unit) :=
  match options_chain with
  | [] => ret None
  | _ :: _ => emit (LogOptionsAnalysis ticker) ;; ret None
  end.

(** The body of the watchlist loop; [continue] ends the body. *)
Definition watch (broker : BrokerInterface) (ticker : string) : M unit :=
  emit (LogAnalyzing ticker) ;;
  restricted <- check_wash_sale ticker ;;
  if restricted : bool then ret tt else
  price <- broker_call (get_market_data broker ticker) (MarketData ticker) ;;
  if (price =? 0)%float then emit (LogNoPrice ticker) else
  positions <- broker_call (get_positions broker) Positions ;;
  match find_position ticker positions with
  | Some position_data =>
      if dict_truthy position_data then
        match read_position position_data with
        | Some (avg_cost, qty, divs) =>
            match analyze_erosion MAX_DRAWDOWN_PCT ticker price avg_cost divs with
            | SELL_CRITICAL =>
                success <- broker_call (place_order broker ticker SELL qty)
                                       (Order ticker SELL qty) ;;
                if success : bool then
                  record_loss_sale ticker ;;
                  emit (LogCooldown ticker)
                else ret tt
            | HOLD => emit (LogHold ticker)
            end
        | None => raise
        end
      else emit (LogMonitoring ticker price)
  | None => emit (LogMonitoring ticker price)
  end.

(** The body of the options loop. *)
Definition watch_options (broker : BrokerInterface) (ticker : string) : M unit :=
  emit (LogAnalyzingOptions ticker) ;;
  price <- broker_call (get_market_data broker ticker) (MarketData ticker) ;;
  if (0 <? price)%float then
    options_chain <- broker_call (get_options_chain broker ticker)
                       (fun chain => OptionsChain ticker
                                       match chain with [] => true | _ => false end) ;;
    opportunity <- analyze_options_opportunity ticker price options_chain ;;
    match opportunity with
    | Some _ => emit (LogOpportunity ticker)
    | None => ret tt
    end
  else ret tt.

Fixpoint for_each {A : Type} (body : A -> M unit) (l : list A) : M unit :=
  match l with
  | [] => ret tt
  | x :: l' => body x ;; for_each body l'
  end.

Definition run_bot_cycle (brokers : list BrokerInterface) : M unit :=
  match brokers with
  | [] => emit LogNoBrokers
  | broker :: _ =>
      for_each (watch broker) WATCHLIST ;;
      for_each (watch_options broker) OPTIONS_WATCHLIST ;;
      emit LogCycleComplete
  end.

End Engine.

Arguments machine : clear implicits.
Arguments BrokerInterface : clear implicits.
Arguments Sdk : clear implicits.

(** ** Assertions about runs

    [triple P c Q]: from a machine and a trace so far that satisfy [P], the
    computation [c] ends in a result, a machine and an extended trace that
    satisfy [Q]. *)

Definition assertion {W : Type} : Type := machine W -> list event -> Prop.

Definition triple {W A : Type} (P : @assertion W) (c : M A)
    (Q : option A -> @assertion W) : Prop :=
  forall m tr r m' e, P m tr -> c m = (r, m', e) -> Q r m' (tr ++ e).

(** A sell order for [ticker] has been accepted somewhere in the trace. *)
Definition sold (tr : list event) (ticker : string) : Prop :=
  exists qty, In (Order ticker SELL qty true) tr.

(** Relative to the ledger [init] at the start of the cycle, every entry of
    [l] is unchanged, absent, or that of a ticker sold in [tr]. *)
Definition truthful (init : ledger) (tr : list event) (l : ledger) : Prop :=
  forall ticker,
    l !! ticker = init !! ticker \/ l !! ticker = None \/ sold tr ticker.

(** Every write of the file carries a ledger that is truthful for the trace
    before the write. *)
Definition gated (init : ledger) (tr : list event) : Prop :=
  forall pre l post, tr = pre ++ Saved l :: post -> truthful init pre l.

(** An event that is not a write of the file. *)
Definition quiet (ev : event) : Prop :=
  match ev with
  | Saved _ => False
  | _ => True
  end.

(** The invariant of the cycle: the ledger in memory is truthful and so was
    every write. *)
Definition honest {W : Type} (init : ledger) : @assertion W :=
  fun m tr => truthful init tr (state m) /\ gated init tr.

(** The tickers whose evaluation was started, in order. *)
Definition analyzed (tr : list event) : list string :=
  omap (fun ev => match ev with LogAnalyzing ticker => Some ticker | _ => None end)
       tr.

(** An event that does not start an evaluation. *)
Definition silent (ev : event) : Prop :=
  match ev with
  | LogAnalyzing _ => False
  | _ => True
  end.

(** The trace ends at the positions in which the record of some ticker has
    a number that [float] or [int] rejects. *)
Definition unreadable (tr : list event) : Prop :=
  exists pre positions ticker p,
    tr = pre ++ [Positions positions]
    /\ find_position ticker positions = Some p
    /\ dict_truthy p = true
    /\ read_position p = None.

(** The trace so far shows the evaluations [done]; a computation has
    returned and the trace shows [done], or it was left by the exception of
    an unreadable record. *)
Definition visited {W : Type} (done : list string) : @assertion W :=
  fun _ tr => analyzed tr = done.

Definition settled {W A : Type} (done : list string)
    : option A -> @assertion W :=
  fun r _ tr => (is_Some r /\ analyzed tr = done) \/ (r = None /\ unreadable tr).

(** Every position record that the trace shows has numbers that [float]
    and [int] accept. *)
Definition legible_event (ev : event) : Prop :=
  match ev with
  | Positions positions => Forall (fun p => is_Some (read_position p)) positions
  | _ => True
  end.

Definition legible {W : Type} : @assertion W :=
  fun _ tr => Forall legible_event tr.

(** A broker whose position records are all of this kind. *)
Definition legible_positions {W Contract : Type}
    (broker : BrokerInterface W Contract) : Prop :=
  forall w positions w' logs,
    get_positions broker w = (Some positions, w', logs) ->
    Forall (fun p => is_Some (read_position p)) positions.

(** The quantity of an order is the quantity that a position record
    reports. *)
Definition same_quantity (reported : pynum) (qty : Z) : bool :=
  match reported with
  | PyInt z => Z.eqb z qty
  | PyFloat f =>
      match py_float (PyInt qty) with
      | Some whole => (whole =? f)%float
      | None => false
      end
  end.

(** A broker none of whose methods raises. *)
Definition never_raises {W Contract : Type}
    (broker : BrokerInterface W Contract) : Prop :=
  (forall ticker w, is_Some (fst (fst (get_market_data broker ticker w))))
  /\ (forall w, is_Some (fst (fst (get_positions broker w))))
  /\ (forall ticker w, is_Some (fst (fst (get_options_chain broker ticker w))))
  /\ (forall ticker a qty w,
         is_Some (fst (fst (place_order broker ticker a qty w)))).

(** ** Configuration

    [WATCHLIST] and [OPTIONS_WATCHLIST] are read from the environment:
    [os.getenv(NAME, ...).split(',') if os.getenv(NAME) else DEFAULT].  An
    unset variable is [None]; the empty string is falsy. *)

(** [s.split(',')]: the pieces between the commas, empty pieces included. *)
Fixpoint split_commas (s : string) : list string :=
  match s with
  | EmptyString => [EmptyString]
  | String c s' =>
      if Ascii.eqb c "," then EmptyString :: split_commas s'
      else match split_commas s' with
           | piece :: pieces => String c piece :: pieces
           | [] => [String c EmptyString]
           end
  end.

(** [','.join(pieces)], the inverse that the round trip is stated with. *)
Fixpoint join_commas (pieces : list string) : string :=
  match pieces with
  | [] => EmptyString
  | [piece] => piece
  | piece :: rest => (piece ++ String "," (join_commas rest))%string
  end.

(** [',' in s] *)
Fixpoint has_comma (s : string) : bool :=
  match s with
  | EmptyString => false
  | String c s' => (Ascii.eqb c "," || has_comma s')%bool
  end.

Definition watchlist_from_env (env : option string) (defaults : list string)
    : list string :=
  match env with
  | Some EmptyString | None => defaults
  | Some s => split_commas s
  end.

Definition DEFAULT_WATCHLIST : list string := ["SPY"; "QQQ"; "TSLA"; "NVDA"].
Definition DEFAULT_OPTIONS_WATCHLIST : list string := ["SPY"; "QQQ"].

(** ** The paths of one evaluation

    The ways in which the body of the watchlist loop can run for a ticker,
    each with its result, its final machine and its trace. *)
Section Paths.

Context {W Contract : Type}.
Variable now : W -> date * W.
Variable MAX_DRAWDOWN_PCT : float.
Variable WASH_SALE_DAYS : Z.
Variable broker : BrokerInterface W Contract.
Variable ticker : string.
Variable m : machine W.

Inductive watch_path : option unit -> machine W -> list event -> Prop :=
| path_restricted m1 e1 :
    check_wash_sale now WASH_SALE_DAYS ticker m = (Some true, m1, e1) ->
    watch_path (Some tt) m1 (LogAnalyzing ticker :: e1)
| path_quote_raised m1 e1 w2 logs2 :
    check_wash_sale now WASH_SALE_DAYS ticker m = (Some false, m1, e1) ->
    get_market_data broker ticker (world m1) = (None, w2, logs2) ->
    watch_path None (Machine (state m1) (file m1) w2)
      (LogAnalyzing ticker :: e1 ++ map BrokerLog logs2)
| path_no_price m1 e1 price w2 logs2 :
    check_wash_sale now WASH_SALE_DAYS ticker m = (Some false, m1, e1) ->
    get_market_data broker ticker (world m1) = (Some price, w2, logs2) ->
    (price =? 0)%float = true ->
    watch_path (Some tt) (Machine (state m1) (file m1) w2)
      (LogAnalyzing ticker :: e1 ++ map BrokerLog logs2
         ++ [MarketData ticker price; LogNoPrice ticker])
| path_positions_raised m1 e1 price w2 logs2 w3 logs3 :
    check_wash_sale now WASH_SALE_DAYS ticker m = (Some false, m1, e1) ->
    get_market_data broker ticker (world m1) = (Some price, w2, logs2) ->
    (price =? 0)%float = false ->
    get_positions broker w2 = (None, w3, logs3) ->
    watch_path None (Machine (state m1) (file m1) w3)
      (LogAnalyzing ticker :: e1 ++ map BrokerLog logs2
         ++ MarketData ticker price :: map BrokerLog logs3)
| path_monitoring m1 e1 price w2 logs2 positions w3 logs3 :
    check_wash_sale now WASH_SALE_DAYS ticker m = (Some false, m1, e1) ->
    get_market_data broker ticker (world m1) = (Some price, w2, logs2) ->
    (price =? 0)%float = false ->
    get_positions broker w2 = (Some positions, w3, logs3) ->
    match find_position ticker positions with
    | Some p => dict_truthy p = false
    | None => True
    end ->
    watch_path (Some tt) (Machine (state m1) (file m1) w3)
      (LogAnalyzing ticker :: e1 ++ map BrokerLog logs2
         ++ MarketData ticker price :: map BrokerLog logs3
         ++ [Positions positions; LogMonitoring ticker price])
| path_unreadable m1 e1 price w2 logs2 positions w3 logs3 p :
    check_wash_sale now WASH_SALE_DAYS ticker m = (Some false, m1, e1) ->
    get_market_data broker ticker (world m1) = (Some price, w2, logs2) ->
    (price =? 0)%float = false ->
    get_positions broker w2 = (Some positions, w3, logs3) ->
    find_position ticker positions = Some p ->
    dict_truthy p = true ->
    read_position p = None ->
    watch_path None (Machine (state m1) (file m1) w3)
      (LogAnalyzing ticker :: e1 ++ map BrokerLog logs2
         ++ MarketData ticker price :: map BrokerLog logs3
         ++ [Positions positions])
| path_hold m1 e1 price w2 logs2 positions w3 logs3 p avg_cost qty divs :
    check_wash_sale now WASH_SALE_DAYS ticker m = (Some false, m1, e1) ->
    get_market_data broker ticker (world m1) = (Some price, w2, logs2) ->
    (price =? 0)%float = false ->
    get_positions broker w2 = (Some positions, w3, logs3) ->
    find_position ticker positions = Some p ->
    dict_truthy p = true ->
    read_position p = Some (avg_cost, qty, divs) ->
    analyze_erosion MAX_DRAWDOWN_PCT ticker price avg_cost divs = HOLD ->
    watch_path (Some tt) (Machine (state m1) (file m1) w3)
      (LogAnalyzing ticker :: e1 ++ map BrokerLog logs2
         ++ MarketData ticker price :: map BrokerLog logs3
         ++ [Positions positions; LogHold ticker])
| path_order_raised m1 e1 price w2 logs2 positions w3 logs3 p avg_cost qty
    divs w4 logs4 :
    check_wash_sale now WASH_SALE_DAYS ticker m = (Some false, m1, e1) ->
    get_market_data broker ticker (world m1) = (Some price, w2, logs2) ->
    (price =? 0)%float = false ->
    get_positions broker w2 = (Some positions, w3, logs3) ->
    find_position ticker positions = Some p ->
    dict_truthy p = true ->
    read_position p = Some (avg_cost, qty, divs) ->
    analyze_erosion MAX_DRAWDOWN_PCT ticker price avg_cost divs = SELL_CRITICAL ->
    place_order broker ticker SELL qty w3 = (None, w4, logs4) ->
    watch_path None (Machine (state m1) (file m1) w4)
      (LogAnalyzing ticker :: e1 ++ map BrokerLog logs2
         ++ MarketData ticker price :: map BrokerLog logs3
         ++ Positions positions :: map BrokerLog logs4)
| path_order m1 e1 price w2 logs2 positions w3 logs3 p avg_cost qty divs
    success w4 logs4 today w5 :
    check_wash_sale now WASH_SALE_DAYS ticker m = (Some false, m1, e1) ->
    get_market_data broker ticker (world m1) = (Some price, w2, logs2) ->
    (price =? 0)%float = false ->
    get_positions broker w2 = (Some positions, w3, logs3) ->
    find_position ticker positions = Some p ->
    dict_truthy p = true ->
    read_position p = Some (avg_cost, qty, divs) ->
    analyze_erosion MAX_DRAWDOWN_PCT ticker price avg_cost divs = SELL_CRITICAL ->
    place_order broker ticker SELL qty w3 = (Some success, w4, logs4) ->
    now w4 = (today, w5) ->
    watch_path (Some tt)
      (if success
       then Machine (<[ticker := today]> (state m1))
                    (Some (<[ticker := today]> (state m1))) w5
       else Machine (state m1) (file m1) w4)
      ((LogAnalyzing ticker :: e1 ++ map BrokerLog logs2
          ++ MarketData ticker price :: map BrokerLog logs3
          ++ Positions positions :: map BrokerLog logs4)
       ++ Order ticker SELL qty success
       :: (if success
           then [Saved (<[ticker := today]> (state m1)); LogCooldown ticker]
           else [])).

End Paths.

(** ** Start-up and schedule *)

Section Startup.

Context {W Contract : Type}.

(** [SchwabBroker(config)] and [RobinhoodBroker(config)] start disconnected;
    a successful [connect] sets [self.connected]. *)
Definition new_broker (s : Sdk W Contract) : Sdk W Contract := {|
  connected := false;
  quote_block := quote_block s;
  positions_block := positions_block s;
  chain_block := chain_block s;
  order_block := order_block s
|}.

Definition set_connected (s : Sdk W Contract) : Sdk W Contract := {|
  connected := true;
  quote_block := quote_block s;
  positions_block := positions_block s;
  chain_block := chain_block s;
  order_block := order_block s
|}.

(** What [connect] depends on: whether the SDK library can be imported, the
    two credentials of the configuration, and the SDK's own log-in, which
    returns or raises ([None]).  Robinhood's [login] returns a result that
    may be falsy. *)
Record Credentials : Type := {
  importable : bool;
  identity : string;        (* ['api_key'], ['username'] *)
  secret : string;          (* ['app_secret'], ['password'] *)
  sdk_login : W -> option bool * W
}.

(** [not config[key]] on a string. *)
Definition blank (s : string) : bool :=
  match s with
  | EmptyString => true
  | String _ _ => false
  end.

(** [SchwabBroker.connect], with the line it logs: [easy_client] returns a
    client or raises, so a returned [Some _] is a success whatever it
    holds. *)
Definition SchwabBroker_connect (c : Credentials) (s : Sdk W Contract)
    : W -> bool * Sdk W Contract * W * list string :=
  fun w =>
    if negb (importable c) then
      (false, s, w,
       ["schwab-py library not installed. Install with: pip install schwab-py"])
    else if (blank (identity c) || blank (secret c))%bool then
      (false, s, w, ["Schwab API credentials not configured"])
    else
      match sdk_login c w with
      | (Some _, w') =>
          (true, set_connected s, w', ["Connected to Charles Schwab API"])
      | (None, w') => (false, s, w', ["Failed to connect to Schwab"])
      end.

(** [RobinhoodBroker.connect]. *)
Definition RobinhoodBroker_connect (c : Credentials) (s : Sdk W Contract)
    : W -> bool * Sdk W Contract * W * list string :=
  fun w =>
    if negb (importable c) then
      (false, s, w,
       ["robin_stocks library not installed. Install with: pip install robin_stocks"])
    else if (blank (identity c) || blank (secret c))%bool then
      (false, s, w, ["Robinhood credentials not configured"])
    else
      match sdk_login c w with
      | (Some true, w') =>
          (true, set_connected s, w', ["Connected to Robinhood API"])
      | (Some false, w') => (false, s, w', ["Failed to login to Robinhood"])
      | (None, w') => (false, s, w', ["Failed to connect to Robinhood"])
      end.

(** [BROKERS]: per broker the [enabled] flag, what [connect] needs, and the
    SDK behind the broker. *)
Record BrokerSetup : Type := {
  enabled : bool;
  credentials : Credentials;
  sdk_of : Sdk W Contract
}.

(** [TradingBot._initialize_brokers]: the brokers that are enabled and
    connect, Schwab first, and the log lines. *)
Definition _initialize_brokers (schwab robinhood : BrokerSetup)
    : W -> list (Sdk W Contract) * W * list string :=
  fun w =>
    let '(first, w1, logs1) :=
      if enabled schwab then
        let '(ok, b, w', logs) :=
          SchwabBroker_connect (credentials schwab) (new_broker (sdk_of schwab)) w in
        (if ok : bool then [b] else [], w', logs)
      else ([], w, []) in
    let '(second, w2, logs2) :=
      if enabled robinhood then
        let '(ok, b, w', logs) :=
          RobinhoodBroker_connect (credentials robinhood)
            (new_broker (sdk_of robinhood)) w1 in
        (if ok : bool then [b] else [], w', logs)
      else ([], w1, []) in
    let brokers := first ++ second in
    (brokers, w2,
     logs1 ++ logs2
       ++ match brokers with
          | [] => ["No brokers connected. Please configure at least one broker."]
          | _ :: _ => []
          end).

(** [TradingBot.__init__]: the state is loaded, then the brokers are
    initialized. *)
Definition TradingBot_init (schwab robinhood : BrokerSetup)
    (file : option ledger)
    : W -> list (Sdk W Contract) * machine W * list string :=
  fun w =>
    let '(brokers, w', logs) := _initialize_brokers schwab robinhood w in
    (brokers, Machine (load_state file) file w', logs).

(** What [main] leaves behind: the log lines of the start-up, the events of
    the cycles, the sleeps and the errors of the loop. *)
Inductive main_event : Type :=
| StartupLog (msg : string)
| LogCannotStart                  (* "Cannot start bot without any connected brokers." *)
| LogStarting                     (* "Starting trading bot..." and the settings *)
| InCycle (ev : event)
| Sleep (seconds : Z)             (* [time.sleep(seconds)] returned *)
| LogCycleError.                  (* "Error in bot cycle: {e}" *)

Variable now : W -> date * W.
Variable sleep : Z -> W -> W.            (* the world after [time.sleep] *)
Variable WATCHLIST : list string.
Variable OPTIONS_WATCHLIST : list string.
Variable MAX_DRAWDOWN_PCT : float.
Variable WASH_SALE_DAYS : Z.
Variable CYCLE_INTERVAL_SECONDS : Z.

Definition asleep (seconds : Z) (m : machine W) : machine W :=
  Machine (state m) (file m) (sleep seconds (world m)).

(** One turn of [while True] in [main], no [KeyboardInterrupt] arriving: the
    cycle, then the sleep; an exception of the cycle, or the [ValueError] of
    [time.sleep] on a negative interval, is logged and followed by a sleep
    of 60 seconds. *)
Definition turn (brokers : list (Sdk W Contract)) (m : machine W)
    : machine W * list main_event :=
  let '(r, m', tr) :=
    run_bot_cycle now WATCHLIST OPTIONS_WATCHLIST MAX_DRAWDOWN_PCT
      WASH_SALE_DAYS (map sdk_broker brokers) m in
  match r with
  | Some _ =>
      if CYCLE_INTERVAL_SECONDS <? 0 then
        (asleep 60 m', map InCycle tr ++ [LogCycleError; Sleep 60])
      else
        (asleep CYCLE_INTERVAL_SECONDS m',
         map InCycle tr ++ [Sleep CYCLE_INTERVAL_SECONDS])
  | None => (asleep 60 m', map InCycle tr ++ [LogCycleError; Sleep 60])
  end.

(** The first [n] turns of the loop. *)
Fixpoint turns (n : nat) (brokers : list (Sdk W Contract)) (m : machine W)
    : machine W * list main_event :=
  match n with
  | O => (m, [])
  | S n' =>
      let '(m1, e1) := turn brokers m in
      let '(m2, e2) := turns n' brokers m1 in
      (m2, e1 ++ e2)
  end.

(** [main], stopped after [n] turns of its loop. *)
Definition main (n : nat) (schwab robinhood : BrokerSetup)
    (file : option ledger) (w : W) : machine W * list main_event :=
  let '(brokers, m, logs) := TradingBot_init schwab robinhood file w in
  match brokers with
  | [] => (m, map StartupLog logs ++ [LogCannotStart])
  | _ :: _ =>
      let '(m', tr) := turns n brokers m in
      (m', map StartupLog logs ++ LogStarting :: tr)
  end.

End Startup.

(** The events of the cycles in a trace of [main]. *)
Definition cycle_events (tr : list main_event) : list event :=
  omap (fun ev => match ev with InCycle e => Some e | _ => None end) tr.

(** The sleeps in a trace of [main]. *)
Definition sleeps (tr : list main_event) : list Z :=
  omap (fun ev => match ev with Sleep seconds => Some seconds | _ => None end) tr.

(** The orders of a trace. *)
Definition is_order (ev : event) : bool :=
  match ev with
  | Order _ _ _ _ => true
  | _ => false
  end.

(** The memory holds what a restart would load from the file. *)
Definition durable {W : Type} (m : machine W) : Prop :=
  load_state (file m) = state m.

(** The content of the ledger file after the writes of a trace, from the
    content [before]. *)
Definition written (before : option ledger) (tr : list event) : option ledger :=
  fold_left (fun content ev =>
               match ev with
               | Saved l => Some l
               | _ => content
               end)
            tr before.

(** An event that neither starts an evaluation, nor is an order, nor ends
    the cycle. *)
Definition plain (ev : event) : Prop :=
  match ev with
  | LogAnalyzing _ | Order _ _ _ _ | LogCycleComplete => False
  | _ => True
  end.

(** The shape of the trace of one evaluation of [x]: its opening line, then
    plain events around at most one order, which sells [x]. *)
Definition evaluation_of (x : string) (e : list event) : Prop :=
  exists pre post,
    Forall plain pre /\ Forall plain post
    /\ (e = LogAnalyzing x :: pre
        \/ exists qty success,
             e = LogAnalyzing x :: pre ++ Order x SELL qty success :: post).

(** An event of reading and logging only: it is plain, writes no file and
    reports no opportunity. *)
Definition inert (ev : event) : Prop :=
  match ev with
  | LogAnalyzing _ | Order _ _ _ _ | LogCycleComplete | Saved _
  | LogOpportunity _ => False
  | _ => True
  end.

(** What the trace [before] an order must show for the order to be that of
    lines 576 to 581: the order sells; the ticker has a quote that is not
    zero; a list of positions has a first record for the ticker, non-empty
    and readable, whose truncated quantity is the quantity of the order; and
    the verdict on that quote and that record is SELL_CRITICAL. *)
Definition justified (MAX_DRAWDOWN_PCT : float) (before : list event)
    (ticker : string) (a : action) (qty : Z) : Prop :=
  a = SELL
  /\ exists price positions p avg_cost divs,
      In (MarketData ticker price) before
      /\ In (Positions positions) before
      /\ (price =? 0)%float = false
      /\ find_position ticker positions = Some p
      /\ dict_truthy p = true
      /\ read_position p = Some (avg_cost, qty, divs)
      /\ analyze_erosion MAX_DRAWDOWN_PCT ticker price avg_cost divs
         = SELL_CRITICAL.

(** Every order of the trace is for a ticker of the watchlist and justified
    by the trace before it. *)
Definition orders_justified (MAX_DRAWDOWN_PCT : float) (WATCHLIST : list string)
    (tr : list event) : Prop :=
  forall pre ticker a qty success post,
    tr = pre ++ Order ticker a qty success :: post ->
    In ticker WATCHLIST /\ justified MAX_DRAWDOWN_PCT pre ticker a qty.

(** The tickers of the orders of a trace, in order. *)
Definition order_tickers (tr : list event) : list string :=
  omap (fun ev => match ev with Order t _ _ _ => Some t | _ => None end) tr.

(** ** The standalone program

    [main.py]: the same [check_wash_sale] and [analyze_erosion], with the
    constants 31 and 0.10, around a stub quote and a stub order.  Its cycle
    loads the state from the file each time it runs. *)
Module Standalone.

Definition WATCHLIST : list string := ["ULTY"; "TSLA"; "NVDA"].
Definition MAX_DRAWDOWN_PCT : float := ten_percent.
Definition WASH_SALE_DAYS : Z := 31.

(** What the program prints and writes: the events of the engine, and the
    lines of the two stubs. *)
Inductive output : Type :=
| Engine (ev : event)
| Fetching (ticker : string)                  (* "Fetching data for {ticker}..." *)
| Executing (a : action) (ticker : string).   (* "EXECUTING ORDER: {action} on {ticker}" *)

(** [get_market_data]: the mock price, [float('38.57')]. *)
Definition get_market_data (ticker : string) : float :=
  0x1.348f5c28f5c29p+5%float.

(** [execute_trade]: the stub accepts every order. *)
Definition execute_trade (a : action) (ticker : string) : bool := true.

(** [my_avg_cost = 40.00] and [my_dividends = 0.55] *)
Definition my_avg_cost : float := 40%float.
Definition my_dividends : float := 0x1.199999999999ap-1%float.

Section Cycle.

Context {W : Type}.
Variable now : W -> date * W.

(** The body of the loop of [run_bot_cycle]. *)
Definition watch (ticker : string) (m : machine W) : machine W * list output :=
  let '(restricted, m1, e1) := check_wash_sale now WASH_SALE_DAYS ticker m in
  let opening := Engine (LogAnalyzing ticker) :: map Engine e1 in
  match restricted with
  | Some false =>
      let price := get_market_data ticker in
      match analyze_erosion MAX_DRAWDOWN_PCT ticker price my_avg_cost
              my_dividends with
      | SELL_CRITICAL =>
          if execute_trade SELL ticker then
            let '(_, m2, e2) := record_loss_sale now ticker m1 in
            (m2, opening ++ [Fetching ticker; Executing SELL ticker]
                   ++ map Engine e2 ++ [Engine (LogCooldown ticker)])
          else (m1, opening ++ [Fetching ticker; Executing SELL ticker])
      | HOLD => (m1, opening ++ [Fetching ticker; Engine (LogHold ticker)])
      end
  | _ => (m1, opening)
  end.

Fixpoint watch_all (tickers : list string) (m : machine W)
    : machine W * list output :=
  match tickers with
  | [] => (m, [])
  | ticker :: rest =>
      let '(m1, e1) := watch ticker m in
      let '(m2, e2) := watch_all rest m1 in
      (m2, e1 ++ e2)
  end.

(** [run_bot_cycle]: [state = load_state()], the loop, the closing line. *)
Definition run_bot_cycle (m : machine W) : machine W * list output :=
  let '(m', e) :=
    watch_all WATCHLIST (Machine (load_state (file m)) (file m) (world m)) in
  (m', e ++ [Engine LogCycleComplete]).

End Cycle.

End Standalone.

(** ** A scripted world for concrete runs

    The world holds the date, the quote of every ticker, the positions of the
    account and the fate of the next orders; a [None] makes the SDK block
    raise. *)
Module Scenario.

Record world : Type := World {
  today : date;
  quote : string -> option float;
  book : option (list position);
  fills : option bool
}.

Definition clock (w : world) : date * world := (today w, w).

Definition sdk : Sdk world unit := {|
  connected := true;
  quote_block ticker w := (quote w ticker, w);
  positions_block w := (book w, w);
  chain_block ticker w := (Some [], w);
  order_block ticker a qty w := (fills w, w)
|}.

Definition broker : BrokerInterface world unit := sdk_broker sdk.

(** A record with every key, and one with the symbol only. *)
Definition holding (sym : string) (cost : float) (qty : pynum) (divs : float)
    : position :=
  Position (Some sym) (Some (PyFloat cost)) (Some qty) (Some (PyFloat divs)) [].

Definition bare (sym : string) : position :=
  Position (Some sym) None None None [].

(** [TradingBot.__init__]: the state is loaded from the file. *)
Definition boot (f : option ledger) (w : world) : machine world :=
  Machine (load_state f) f w.

(** A bot whose ledger holds one sale of SPY, on day [sale]. *)
Definition after_sale (sale : date) (w : world) : machine world :=
  boot (Some {["SPY" := sale]}) w.

(** SPY was bought at 100 and trades at 89; the order is refused or
    accepted. *)
Definition falling (accepted : bool) : world :=
  World 20000 (fun _ => Some 89%float)
        (Some [holding "SPY" 100 (PyInt 10) 0]) (Some accepted).

(** Ten and a half shares of SPY, bought at 100, trade at 89. *)
Definition fractional : world :=
  World 20000 (fun _ => Some 89%float)
        (Some [holding "SPY" 100 (PyFloat 10.5) 0]) (Some true).

(** An SDK whose orders always raise and whose quotes raise when the world
    has none; the account holds ten shares of SPY. *)
Definition flaky : Sdk world unit := {|
  connected := true;
  quote_block ticker w := (quote w ticker, w);
  positions_block w := (Some [holding "SPY" 100 (PyInt 10) 0], w);
  chain_block ticker w := (None, w);
  order_block ticker a qty w := (None, w)
|}.

(** Worlds in which the SDK raises: on quotes, on positions, on orders. *)
Definition outage_quotes : world := World 20000 (fun _ => None) None None.

Definition outage_positions : world :=
  World 20000 (fun _ => Some 89%float) None None.

Definition outage_orders : world :=
  World 20000 (fun _ => Some 89%float) (Some [holding "SPY" 100 (PyInt 10) 0]) None.

(** A record that has only its symbol, at a price of 89 and at a price
    of -1. *)
Definition bare_at (price : float) : world :=
  World 20000 (fun _ => Some price) (Some [bare "SPY"]) (Some true).

(** SPY held at a cost of 100 while the quote is -1. *)
Definition negative_quote : world :=
  World 20000 (fun _ => Some (-1)%float)
        (Some [holding "SPY" 100 (PyInt 10) 0]) (Some true).

End Scenario.

(** ** A scripted start-up

    Credentials whose log-in gives a fixed answer, broker settings over an
    SDK of the scripted world, and a sleep that leaves the world alone. *)
Module Drill.

Definition keys (answer : option bool) : Credentials (W := Scenario.world) := {|
  importable := true;
  identity := "key";
  secret := "secret";
  sdk_login w := (answer, w)
|}.

Definition no_secret : Credentials (W := Scenario.world) := {|
  importable := true;
  identity := "key";
  secret := "";
  sdk_login w := (Some true, w)
|}.

Definition setup (on : bool) (answer : option bool)
    (s : Sdk Scenario.world unit) : BrokerSetup := {|
  enabled := on;
  credentials := keys answer;
  sdk_of := s
|}.

Definition nap (seconds : Z) (w : Scenario.world) : Scenario.world := w.

End Drill.

(** * Part II: lemmas *)

(** ** The cooldown ledger *)

Section Ledger.

Context {W : Type}.
Variable now : W -> date * W.
Variable WASH_SALE_DAYS : Z.

Lemma check_wash_sale_absent (ticker : string) (m : machine W) :
  state m !! ticker = None ->
  check_wash_sale now WASH_SALE_DAYS ticker m = (Some false, m, []).
Proof.
  intros Hnone. cbv [check_wash_sale bind get_wash_log].
  rewrite Hnone. reflexivity.
Qed.

Lemma check_wash_sale_expired (ticker : string) (m : machine W)
    (last today : date) (w : W) :
  state m !! ticker = Some last ->
  now (world m) = (today, w) ->
  WASH_SALE_DAYS <= today - last ->
  check_wash_sale now WASH_SALE_DAYS ticker m
  = (Some false,
     Machine (delete ticker (state m)) (Some (delete ticker (state m))) w,
     [Saved (delete ticker (state m))]).
Proof.
  intros Hsome Hnow Hexp.
  cbv [check_wash_sale bind get_wash_log datetime_now].
  rewrite Hsome, Hnow.
  destruct (Z.ltb_spec (today - last) WASH_SALE_DAYS) as [Hlt | _]; [lia |].
  reflexivity.
Qed.

Lemma check_wash_sale_cooling (ticker : string) (m : machine W)
    (last today : date) (w : W) :
  state m !! ticker = Some last ->
  now (world m) = (today, w) ->
  today - last < WASH_SALE_DAYS ->
  check_wash_sale now WASH_SALE_DAYS ticker m
  = (Some true, Machine (state m) (file m) w,
     [LogWashSaleWarning ticker (WASH_SALE_DAYS - (today - last))]).
Proof.
  intros Hsome Hnow Hcool.
  cbv [check_wash_sale bind get_wash_log datetime_now].
  rewrite Hsome, Hnow.
  destruct (Z.ltb_spec (today - last) WASH_SALE_DAYS) as [_ | Hge]; [| lia].
  reflexivity.
Qed.

Lemma record_loss_sale_run (ticker : string) (m : machine W)
    (today : date) (w : W) :
  now (world m) = (today, w) ->
  record_loss_sale now ticker m
  = (Some tt,
     Machine (<[ticker := today]> (state m))
             (Some (<[ticker := today]> (state m))) w,
     [Saved (<[ticker := today]> (state m))]).
Proof.
  intros Hnow.
  cbv [record_loss_sale bind datetime_now]. rewrite Hnow.
  reflexivity.
Qed.

End Ledger.

(** ** Reading positions *)

(** The conversions on a few numbers: [int] truncates toward zero and
    rejects NaN and infinities; [float] rounds ties to even and rejects what
    is out of range. *)
Example py_int_samples :
  py_int (PyFloat 10.5) = Some 10
  /\ py_int (PyFloat (-10.5)) = Some (-10)
  /\ py_int (PyFloat 0.5) = Some 0
  /\ py_int (PyFloat 10) = Some 10
  /\ py_int (PyFloat nan) = None
  /\ py_int (PyFloat infinity) = None.
Proof. repeat split. Qed.

Example py_float_samples :
  py_float (PyInt 100) = Some 100%float
  /\ py_float (PyInt (-3)) = Some (-3)%float
  /\ py_float (PyInt (2 ^ 53 + 1)) = Some 9007199254740992%float
  /\ py_float (PyInt (2 ^ 1024)) = None.
Proof. repeat split; vm_compute; reflexivity. Qed.

Lemma read_position_fields (p : position) (avg_cost : float) (qty : Z)
    (divs : float) :
  read_position p = Some (avg_cost, qty, divs) ->
  py_float (default (PyInt 0) (average_price p)) = Some avg_cost
  /\ py_int (default (PyInt 0) (quantity p)) = Some qty
  /\ py_float (default (PyInt 0) (dividends p)) = Some divs.
Proof.
  unfold read_position.
  destruct (py_float (default (PyInt 0) (average_price p))) as [a |];
    [| discriminate].
  destruct (py_int (default (PyInt 0) (quantity p))) as [q |]; [| discriminate].
  destruct (py_float (default (PyInt 0) (dividends p))) as [d |];
    [| discriminate].
  intros H. injection H as -> -> ->. auto.
Qed.

(** An absent key reads as the number 0. *)
Lemma read_position_absent (sym : option string) (a q d : option pynum)
    (others : list string) :
  read_position (Position sym None q d others)
  = read_position (Position sym (Some (PyInt 0)) q d others)
  /\ read_position (Position sym a None d others)
     = read_position (Position sym a (Some (PyInt 0)) d others)
  /\ read_position (Position sym a q None others)
     = read_position (Position sym a q (Some (PyInt 0)) others).
Proof. repeat split. Qed.

(** ** Matching positions *)

Lemma find_position_matches (ticker : string) (positions : list position)
    (p : position) :
  find_position ticker positions = Some p ->
  In p positions /\ upper (default EmptyString (symbol p)) = upper ticker.
Proof.
  intros Hfind. apply List.find_some in Hfind as [Hin Heq].
  split; [exact Hin | now apply String.eqb_eq].
Qed.

Lemma find_position_head (ticker : string) (p : position)
    (rest : list position) :
  upper (default EmptyString (symbol p)) = upper ticker ->
  find_position ticker (p :: rest) = Some p.
Proof.
  intros Heq. unfold find_position. simpl.
  now rewrite (proj2 (String.eqb_eq _ _) Heq).
Qed.

(** ** Rules of the program logic *)

Section Logic.

Context {W : Type}.

Lemma triple_ret {A : Type} (a : A) (Q : option A -> @assertion W) :
  triple (Q (Some a)) (ret a) Q.
Proof.
  intros m tr r m' e HP Hrun. injection Hrun as ? ? ?; subst.
  now rewrite app_nil_r.
Qed.

Lemma triple_bind {A B : Type} (P : @assertion W) (c : M A) (k : A -> M B)
    (Q : option A -> @assertion W) (R : option B -> @assertion W) :
  triple P c Q ->
  (forall a, triple (Q (Some a)) (k a) R) ->
  (forall m tr, Q None m tr -> R None m tr) ->
  triple P (bind c k) R.
Proof.
  intros Hc Hk Hraise m tr r m' e HP Hrun. unfold bind in Hrun.
  destruct (c m) as [[[a |] m1] e1] eqn:Ec.
  - destruct (k a m1) as [[r2 m2] e2] eqn:Ek. injection Hrun as ? ? ?; subst.
    rewrite app_assoc. eapply Hk; [| exact Ek]. eapply Hc; [exact HP | exact Ec].
  - injection Hrun as ? ? ?; subst. apply Hraise. eapply Hc; [exact HP | exact Ec].
Qed.

Lemma triple_weaken {A : Type} (P P' : @assertion W) (c : M A)
    (Q Q' : option A -> @assertion W) :
  triple P' c Q' ->
  (forall m tr, P m tr -> P' m tr) ->
  (forall r m tr, Q' r m tr -> Q r m tr) ->
  triple P c Q.
Proof.
  intros Hc Hpre Hpost m tr r m' e HP Hrun.
  apply Hpost. eapply Hc; [apply Hpre; exact HP | exact Hrun].
Qed.

Lemma triple_emit (ev : event) (P : @assertion W) (Q : option unit -> @assertion W) :
  (forall m tr, P m tr -> Q (Some tt) m (tr ++ [ev])) ->
  triple P (emit ev) Q.
Proof.
  intros H m tr r m' e HP Hrun. injection Hrun as ? ? ?; subst. now apply H.
Qed.

Lemma triple_raise {A : Type} (P : @assertion W) (Q : option A -> @assertion W) :
  (forall m tr, P m tr -> Q None m tr) ->
  triple P raise Q.
Proof.
  intros H m tr r m' e HP Hrun. injection Hrun as ? ? ?; subst.
  rewrite app_nil_r. now apply H.
Qed.

Lemma triple_broker_call {A : Type} (c : call A) (seen : A -> event)
    (P : @assertion W) (Q : option A -> @assertion W) :
  (forall m tr r w logs,
      P m tr -> c (world m) = (r, w, logs) ->
      Q r (Machine (state m) (file m) w)
        (tr ++ map BrokerLog logs
            ++ match r with Some a => [seen a] | None => [] end)) ->
  triple P (broker_call c seen) Q.
Proof.
  intros H m tr r m' e HP Hrun. unfold broker_call in Hrun.
  destruct (c (world m)) as [[[a |] w] logs] eqn:Ec;
    injection Hrun as ? ? ?; subst.
  - apply (H m tr (Some a) w logs HP Ec).
  - rewrite <- (app_nil_r (map BrokerLog logs)). apply (H m tr None w logs HP Ec).
Qed.

Lemma triple_for_each {A : Type} (Inv : @assertion W) (body : A -> M unit)
    (items : list A) :
  (forall x, triple Inv (body x) (fun _ => Inv)) ->
  triple Inv (for_each body items) (fun _ => Inv).
Proof.
  intros Hbody. induction items as [| x rest IHrest]; simpl.
  - apply triple_ret with (Q := fun _ => Inv).
  - eapply triple_bind; [apply Hbody | intros ?; exact IHrest | auto].
Qed.

End Logic.

(** ** The ledger is a truthful record of accepted orders *)

Section Truthfulness.

Variable init : ledger.

Lemma truthful_mono (tr e : list event) (l : ledger) :
  truthful init tr l -> truthful init (tr ++ e) l.
Proof.
  intros H ticker. destruct (H ticker) as [? | [? | [qty Hin]]]; auto.
  right; right. exists qty. apply in_or_app. now left.
Qed.

Lemma truthful_delete (tr : list event) (l : ledger) (ticker : string) :
  truthful init tr l -> truthful init tr (delete ticker l).
Proof.
  intros H other. destruct (decide (ticker = other)) as [-> | Hne].
  - right; left. apply lookup_delete_eq.
  - rewrite lookup_delete_ne by exact Hne. apply H.
Qed.

Lemma truthful_insert (tr : list event) (l : ledger) (ticker : string)
    (day : date) :
  truthful init tr l -> sold tr ticker ->
  truthful init tr (<[ticker := day]> l).
Proof.
  intros H Hsold other. destruct (decide (ticker = other)) as [-> | Hne].
  - right; right. exact Hsold.
  - rewrite lookup_insert_ne by exact Hne. apply H.
Qed.

Lemma gated_nil : gated init [].
Proof. intros pre l post H. destruct pre; discriminate H. Qed.

Lemma quiet_not_in (e : list event) (l : ledger) :
  Forall quiet e -> ~ In (Saved l) e.
Proof.
  intros Hq Hin. rewrite Forall_forall in Hq. apply (Hq (Saved l)).
  now apply list_elem_of_In.
Qed.

Lemma gated_app_quiet (tr e : list event) :
  gated init tr -> Forall quiet e -> gated init (tr ++ e).
Proof.
  intros Hg Hq pre l post Heq.
  apply List.app_eq_app in Heq as [mid [[-> Hmid] | [-> Hmid]]].
  - destruct mid as [| x mid]; simpl in Hmid.
    + exfalso. apply (quiet_not_in e l Hq). rewrite <- Hmid. now left.
    + injection Hmid as <- _. eapply Hg. reflexivity.
  - exfalso. apply (quiet_not_in e l Hq). rewrite Hmid.
    apply in_or_app. right. now left.
Qed.

Lemma gated_app_write (tr : list event) (l : ledger) :
  gated init tr -> truthful init tr l -> gated init (tr ++ [Saved l]).
Proof.
  intros Hg Ht pre l' post Heq.
  apply List.app_eq_app in Heq as [mid [[-> Hmid] | [-> Hmid]]].
  - destruct mid as [| x mid]; simpl in Hmid.
    + injection Hmid as <- _. now rewrite app_nil_r in Ht.
    + injection Hmid as <- _. eapply Hg. reflexivity.
  - destruct mid as [| x mid]; simpl in Hmid.
    + injection Hmid as -> _. rewrite app_nil_r. exact Ht.
    + injection Hmid as _ Hnil. destruct mid; discriminate Hnil.
Qed.

Lemma quiet_broker_logs (logs : list string) : Forall quiet (map BrokerLog logs).
Proof. induction logs; simpl; constructor; simpl; auto. Qed.

Lemma honest_quiet {W : Type} (m : machine W) (tr e : list event) (w : W) :
  honest init m tr -> Forall quiet e ->
  honest init (Machine (state m) (file m) w) (tr ++ e).
Proof.
  intros [Ht Hg] Hq. split; simpl.
  - now apply truthful_mono.
  - now apply gated_app_quiet.
Qed.

End Truthfulness.

(** Two proof steps: read off the result of a finished run, and
    reassociate a trace. *)
Ltac run_step H :=
  inversion H; subst; clear H; simpl.

Ltac flatten_trace :=
  repeat (progress (cbn [app]; rewrite <- ?app_assoc; rewrite ?app_nil_r)).

(** ** The cycle *)

Section Cycle.

Context {W Contract : Type}.
Variable now : W -> date * W.
Variable WATCHLIST OPTIONS_WATCHLIST : list string.
Variable MAX_DRAWDOWN_PCT : float.
Variable WASH_SALE_DAYS : Z.
Variable init : ledger.

Lemma honest_check_wash_sale (ticker : string) :
  triple (honest (W := W) init) (check_wash_sale now WASH_SALE_DAYS ticker)
         (fun _ => honest init).
Proof.
  intros m tr r m' e [Ht Hg] Hrun.
  cbv [check_wash_sale bind get_wash_log datetime_now] in Hrun.
  destruct (state m !! ticker) as [last |].
  - destruct (now (world m)) as [today w].
    destruct (today - last <? WASH_SALE_DAYS); run_step Hrun.
    + apply (honest_quiet init m tr _ w (conj Ht Hg)). repeat constructor.
    + split; simpl.
      * apply truthful_mono, truthful_delete, Ht.
      * apply gated_app_write; [exact Hg | apply truthful_delete, Ht].
  - run_step Hrun. rewrite app_nil_r. destruct m'. now split.
Qed.

Lemma honest_record_loss_sale (ticker : string) :
  triple (fun (m : machine W) tr => honest init m tr /\ sold tr ticker)
         (record_loss_sale now ticker)
         (fun _ => honest init).
Proof.
  intros m tr r m' e [[Ht Hg] Hsold] Hrun.
  cbv [record_loss_sale bind datetime_now] in Hrun.
  destruct (now (world m)) as [today w]. run_step Hrun.
  split; simpl.
  - apply truthful_mono, truthful_insert; assumption.
  - apply gated_app_write; [exact Hg | apply truthful_insert; assumption].
Qed.

Lemma honest_emit (ev : event) :
  quiet ev -> triple (honest (W := W) init) (emit ev) (fun _ => honest init).
Proof.
  intros Hq. apply triple_emit. intros [l f w] tr H.
  apply (honest_quiet init _ tr [ev] w H). now constructor.
Qed.

Lemma honest_broker_call {A : Type} (c : call A) (seen : A -> event) :
  (forall a, quiet (seen a)) ->
  triple (honest (W := W) init) (broker_call c seen) (fun _ => honest init).
Proof.
  intros Hq. apply triple_broker_call. intros m tr r w logs H _.
  apply honest_quiet; [exact H |].
  apply Forall_app; split; [apply quiet_broker_logs |].
  destruct r; repeat constructor. apply Hq.
Qed.

Lemma honest_watch (broker : BrokerInterface W Contract) (ticker : string) :
  triple (honest init)
         (watch now MAX_DRAWDOWN_PCT WASH_SALE_DAYS broker ticker)
         (fun _ => honest init).
Proof.
  unfold watch.
  eapply triple_bind with (Q := fun _ => honest init);
    [now apply honest_emit | intros _ | auto].
  eapply triple_bind with (Q := fun _ => honest init);
    [apply honest_check_wash_sale | intros restricted | auto].
  destruct restricted; [apply triple_ret with (Q := fun _ => honest init) |].
  eapply triple_bind with (Q := fun _ => honest init);
    [now apply honest_broker_call | intros price | auto].
  destruct (price =? 0)%float; [now apply honest_emit |].
  eapply triple_bind with (Q := fun _ => honest init);
    [now apply honest_broker_call | intros positions | auto].
  destruct (find_position ticker positions) as [p |]; [| now apply honest_emit].
  destruct (dict_truthy p); [| now apply honest_emit].
  destruct (read_position p) as [[[avg_cost qty] divs] |];
    [| now apply triple_raise].
  destruct (analyze_erosion _ _ _ _ _); [now apply honest_emit |].
  eapply triple_bind
    with (Q := fun r m tr => honest init m tr /\ (r = Some true -> sold tr ticker)).
  - apply triple_broker_call. intros m tr r w logs H _. split.
    + apply honest_quiet; [exact H |].
      apply Forall_app; split; [apply quiet_broker_logs |].
      destruct r; now repeat constructor.
    + intros ->. exists qty. apply in_or_app; right. apply in_or_app; right.
      now left.
  - intros [|].
    + eapply triple_bind with (Q := fun _ => honest init);
        [| intros _; now apply honest_emit | auto].
      eapply triple_weaken; [apply honest_record_loss_sale | | auto].
      intros m tr [H Hsold]. split; [exact H | now apply Hsold].
    + eapply triple_weaken;
        [apply triple_ret with (Q := fun _ => honest init) | | auto].
      now intros m tr [H _].
  - now intros m tr [H _].
Qed.

Lemma honest_watch_options (broker : BrokerInterface W Contract)
    (ticker : string) :
  triple (honest init) (watch_options broker ticker) (fun _ => honest init).
Proof.
  unfold watch_options.
  eapply triple_bind with (Q := fun _ => honest init);
    [now apply honest_emit | intros _ | auto].
  eapply triple_bind with (Q := fun _ => honest init);
    [now apply honest_broker_call | intros price | auto].
  destruct (0 <? price)%float; [| apply triple_ret with (Q := fun _ => honest init)].
  eapply triple_bind with (Q := fun _ => honest init);
    [now apply honest_broker_call | intros chain | auto].
  eapply triple_bind with (Q := fun _ => honest init); [| | auto].
  - unfold analyze_options_opportunity. destruct chain.
    + apply triple_ret with (Q := fun _ => honest init).
    + eapply triple_bind with (Q := fun _ => honest init);
        [now apply honest_emit | intros _ | auto].
      apply triple_ret with (Q := fun _ => honest init).
  - intros [? |]; [now apply honest_emit |].
    apply triple_ret with (Q := fun _ => honest init).
Qed.

Lemma honest_run_bot_cycle (brokers : list (BrokerInterface W Contract)) :
  triple (honest init)
         (run_bot_cycle now WATCHLIST OPTIONS_WATCHLIST MAX_DRAWDOWN_PCT
            WASH_SALE_DAYS brokers)
         (fun _ => honest init).
Proof.
  unfold run_bot_cycle. destruct brokers as [| broker others].
  - now apply honest_emit.
  - eapply triple_bind with (Q := fun _ => honest init); [| intros _ | auto].
    + apply triple_for_each with (Inv := honest init). intros ticker.
      apply honest_watch.
    + eapply triple_bind with (Q := fun _ => honest init);
        [| intros _; now apply honest_emit | auto].
      apply triple_for_each with (Inv := honest init). intros ticker.
      apply honest_watch_options.
Qed.

(** *** Every ticker is evaluated *)

Lemma analyzed_app (tr e : list event) :
  analyzed (tr ++ e) = analyzed tr ++ analyzed e.
Proof. apply omap_app. Qed.

Lemma analyzed_silent (e : list event) : Forall silent e -> analyzed e = [].
Proof.
  induction 1 as [| ev e Hev _ IH]; [reflexivity |].
  unfold analyzed in *. simpl. destruct ev; simpl in *; auto; contradiction.
Qed.

Lemma silent_broker_logs (logs : list string) :
  Forall silent (map BrokerLog logs).
Proof. induction logs; simpl; constructor; simpl; auto. Qed.

Lemma settled_bind {A B : Type} (c : M A) (k : A -> M B)
    (before between after : list string) :
  triple (visited (W := W) before) c (settled between) ->
  (forall a, triple (visited between) (k a) (settled after)) ->
  triple (visited before) (bind c k) (settled after).
Proof.
  intros Hc Hk. eapply triple_bind; [exact Hc | | ].
  - intros a. eapply triple_weaken; [apply Hk | | auto].
    intros m tr [[_ H] | [H _]]; [exact H | discriminate H].
  - intros m tr [[[x Hx] _] | H]; [discriminate Hx | now right].
Qed.

Lemma settled_ret {A : Type} (a : A) (done : list string) :
  triple (visited (W := W) done) (ret a) (settled done).
Proof.
  eapply triple_weaken; [apply triple_ret with (Q := settled done) | | auto].
  intros m tr H. left. split; [now exists a | exact H].
Qed.

Lemma settled_emit (ev : event) (done : list string) :
  silent ev -> triple (visited (W := W) done) (emit ev) (settled done).
Proof.
  intros Hs. apply triple_emit. intros m tr H. left. split; [now exists tt |].
  rewrite analyzed_app, H, (analyzed_silent [ev]), app_nil_r; auto.
Qed.

Lemma settled_broker_call {A : Type} (c : call A) (seen : A -> event)
    (done : list string) :
  (forall w, is_Some (fst (fst (c w)))) ->
  (forall a, silent (seen a)) ->
  triple (visited (W := W) done) (broker_call c seen) (settled done).
Proof.
  intros Htotal Hs. apply triple_broker_call. intros m tr r w logs H Hc.
  left. split.
  - specialize (Htotal (world m)). now rewrite Hc in Htotal.
  - rewrite analyzed_app, H, analyzed_silent, app_nil_r; [reflexivity |].
    apply Forall_app; split; [apply silent_broker_logs |].
    destruct r; repeat constructor. apply Hs.
Qed.

Lemma settled_check_wash_sale (ticker : string) (done : list string) :
  triple (visited (W := W) done) (check_wash_sale now WASH_SALE_DAYS ticker)
         (settled done).
Proof.
  intros m tr r m' e H Hrun.
  cbv [check_wash_sale bind get_wash_log datetime_now] in Hrun.
  destruct (state m !! ticker) as [last |];
    [destruct (now (world m)) as [today w];
     destruct (today - last <? WASH_SALE_DAYS) |];
    run_step Hrun; left; (split; [eexists; reflexivity |]);
    rewrite analyzed_app, H; apply app_nil_r.
Qed.

Lemma settled_record_loss_sale (ticker : string) (done : list string) :
  triple (visited (W := W) done) (record_loss_sale now ticker) (settled done).
Proof.
  intros m tr r m' e H Hrun. cbv [record_loss_sale bind datetime_now] in Hrun.
  destruct (now (world m)) as [today w]. run_step Hrun.
  left. split; [eexists; reflexivity |]. rewrite analyzed_app, H. apply app_nil_r.
Qed.

(** What the cycle does with the positions it has just fetched. *)
Lemma settled_positions (broker : BrokerInterface W Contract)
    (ticker : string) (price : float) (positions : list position)
    (done : list string) :
  never_raises broker ->
  triple (fun (_ : machine W) tr =>
            analyzed tr = done /\ exists pre, tr = pre ++ [Positions positions])
         (match find_position ticker positions with
          | Some position_data =>
              if dict_truthy position_data then
                match read_position position_data with
                | Some (avg_cost, qty, divs) =>
                    match analyze_erosion MAX_DRAWDOWN_PCT ticker price
                            avg_cost divs with
                    | SELL_CRITICAL =>
                        bind (broker_call (place_order broker ticker SELL qty)
                                (Order ticker SELL qty))
                             (fun success : bool =>
                                if success
                                then bind (record_loss_sale now ticker)
                                          (fun _ => emit (LogCooldown ticker))
                                else ret tt)
                    | HOLD => emit (LogHold ticker)
                    end
                | None => raise
                end
              else emit (LogMonitoring ticker price)
          | None => emit (LogMonitoring ticker price)
          end)
         (settled done).
Proof.
  intros (_ & _ & _ & Horder).
  assert (Hweak : forall c : M unit,
             triple (visited done) c (settled done) ->
             triple (fun (_ : machine W) tr =>
                       analyzed tr = done
                       /\ exists pre, tr = pre ++ [Positions positions])
                    c (settled done)).
  { intros c Hc. eapply triple_weaken; [exact Hc | | auto].
    now intros m tr [H _]. }
  destruct (find_position ticker positions) as [p |] eqn:Hfind;
    [| now apply Hweak, settled_emit].
  destruct (dict_truthy p) eqn:Htruthy; [| now apply Hweak, settled_emit].
  destruct (read_position p) as [[[avg_cost qty] divs] |] eqn:Hread.
  - apply Hweak.
    destruct (analyze_erosion _ _ _ _ _); [now apply settled_emit |].
    eapply settled_bind; [now apply settled_broker_call |].
    intros [|]; [| apply settled_ret].
    eapply settled_bind; [apply settled_record_loss_sale |].
    intros _. now apply settled_emit.
  - apply triple_raise. intros m tr [_ [pre ->]]. right. split; [reflexivity |].
    now exists pre, positions, ticker, p.
Qed.

Lemma settled_watch (broker : BrokerInterface W Contract) (ticker : string)
    (done : list string) :
  never_raises broker ->
  triple (visited done)
         (watch now MAX_DRAWDOWN_PCT WASH_SALE_DAYS broker ticker)
         (settled (done ++ [ticker])).
Proof.
  intros Hbroker. pose proof Hbroker as (Hquote & Hbook & _ & _). unfold watch.
  eapply settled_bind with (between := done ++ [ticker]).
  { apply triple_emit. intros m tr H. left. split; [now exists tt |].
    now rewrite analyzed_app, H. }
  intros _. eapply settled_bind; [apply settled_check_wash_sale |].
  intros [|]; [apply settled_ret |].
  eapply settled_bind; [now apply settled_broker_call |]. intros price.
  destruct (price =? 0)%float; [now apply settled_emit |].
  eapply triple_bind
    with (Q := fun r (_ : machine W) tr =>
                 match r with
                 | Some positions =>
                     analyzed tr = done ++ [ticker]
                     /\ exists pre, tr = pre ++ [Positions positions]
                 | None => False
                 end).
  - apply triple_broker_call. intros m tr r w logs H Hc.
    specialize (Hbook (world m)). rewrite Hc in Hbook. simpl in Hbook.
    destruct Hbook as [ps ->].
    split.
    + rewrite analyzed_app, H, analyzed_silent, app_nil_r; [reflexivity |].
      apply Forall_app; split; [apply silent_broker_logs | now repeat constructor].
    + exists (tr ++ map BrokerLog logs). now rewrite app_assoc.
  - intros positions. now apply settled_positions.
  - intros m tr [].
Qed.

Lemma settled_watch_options (broker : BrokerInterface W Contract)
    (ticker : string) (done : list string) :
  never_raises broker ->
  triple (visited done) (watch_options broker ticker) (settled done).
Proof.
  intros (Hquote & _ & Hchain & _). unfold watch_options.
  eapply settled_bind; [now apply settled_emit |]. intros _.
  eapply settled_bind; [now apply settled_broker_call |]. intros price.
  destruct (0 <? price)%float; [| apply settled_ret].
  eapply settled_bind; [now apply settled_broker_call |]. intros chain.
  eapply settled_bind with (between := done).
  - unfold analyze_options_opportunity. destruct chain; [apply settled_ret |].
    eapply settled_bind; [now apply settled_emit |]. intros _.
    apply settled_ret.
  - intros [? |]; [now apply settled_emit | apply settled_ret].
Qed.

Lemma settled_for_each {A : Type} (body : A -> M unit) (step : A -> list string)
    (items : list A) :
  (forall x done, triple (visited (W := W) done) (body x)
                         (settled (done ++ step x))) ->
  forall done,
    triple (visited done) (for_each body items)
           (settled (done ++ concat (map step items))).
Proof.
  intros Hbody. induction items as [| x rest IHrest]; intros done; simpl.
  - rewrite app_nil_r. apply settled_ret.
  - eapply settled_bind; [apply Hbody |]. intros _.
    rewrite app_assoc. apply IHrest.
Qed.

Lemma concat_singletons (items : list string) :
  concat (map (fun ticker => [ticker]) items) = items.
Proof. induction items as [| t rest IH]; simpl; [reflexivity | now f_equal]. Qed.

Lemma concat_empties (items : list string) :
  concat (map (fun _ => @nil string) items) = [].
Proof. induction items as [| t rest IH]; simpl; [reflexivity | exact IH]. Qed.

Lemma settled_run_bot_cycle (broker : BrokerInterface W Contract)
    (others : list (BrokerInterface W Contract)) :
  never_raises broker ->
  triple (visited [])
         (run_bot_cycle now WATCHLIST OPTIONS_WATCHLIST MAX_DRAWDOWN_PCT
            WASH_SALE_DAYS (broker :: others))
         (settled WATCHLIST).
Proof.
  intros Hbroker. unfold run_bot_cycle.
  eapply settled_bind with (between := WATCHLIST).
  - eapply triple_weaken;
      [apply (settled_for_each _ (fun ticker => [ticker]) WATCHLIST) with (done := [])
      | auto |].
    + intros ticker done. now apply settled_watch.
    + intros r m tr H. simpl in H. now rewrite concat_singletons in H.
  - intros _. eapply settled_bind with (between := WATCHLIST);
      [| intros _; now apply settled_emit].
    eapply triple_weaken;
      [apply (settled_for_each _ (fun _ => []) OPTIONS_WATCHLIST)
         with (done := WATCHLIST)
      | auto |].
    + intros ticker done. rewrite app_nil_r. now apply settled_watch_options.
    + intros r m tr H. now rewrite concat_empties, app_nil_r in H.
Qed.

(** *** Readable records *)

Lemma legible_emit (ev : event) :
  legible_event ev -> triple (legible (W := W)) (emit ev) (fun _ => legible).
Proof.
  intros Hev. apply triple_emit. intros m tr H.
  apply Forall_app; split; [exact H | now constructor].
Qed.

Lemma legible_broker_logs (logs : list string) :
  Forall legible_event (map BrokerLog logs).
Proof. induction logs; simpl; constructor; simpl; auto. Qed.

Lemma legible_broker_call {A : Type} (c : call A) (seen : A -> event) :
  (forall w a w' logs, c w = (Some a, w', logs) -> legible_event (seen a)) ->
  triple (legible (W := W)) (broker_call c seen) (fun _ => legible).
Proof.
  intros Hseen. apply triple_broker_call. intros m tr r w logs H Hc.
  apply Forall_app; split; [exact H |].
  apply Forall_app; split; [apply legible_broker_logs |].
  destruct r as [a |]; repeat constructor. exact (Hseen _ _ _ _ Hc).
Qed.

Lemma legible_check_wash_sale (ticker : string) :
  triple (legible (W := W)) (check_wash_sale now WASH_SALE_DAYS ticker)
         (fun _ => legible).
Proof.
  intros m tr r m' e H Hrun.
  cbv [check_wash_sale bind get_wash_log datetime_now] in Hrun.
  destruct (state m !! ticker) as [last |];
    [destruct (now (world m)) as [today w];
     destruct (today - last <? WASH_SALE_DAYS) |];
    run_step Hrun; apply Forall_app; split; auto; repeat constructor.
Qed.

Lemma legible_record_loss_sale (ticker : string) :
  triple (legible (W := W)) (record_loss_sale now ticker) (fun _ => legible).
Proof.
  intros m tr r m' e H Hrun. cbv [record_loss_sale bind datetime_now] in Hrun.
  destruct (now (world m)) as [today w]. run_step Hrun.
  apply Forall_app; split; auto. repeat constructor.
Qed.

Lemma legible_watch (broker : BrokerInterface W Contract) (ticker : string) :
  legible_positions broker ->
  triple legible (watch now MAX_DRAWDOWN_PCT WASH_SALE_DAYS broker ticker)
         (fun _ => legible).
Proof.
  intros Hbook. unfold watch.
  eapply triple_bind with (Q := fun _ => legible);
    [now apply legible_emit | intros _ | auto].
  eapply triple_bind with (Q := fun _ => legible);
    [apply legible_check_wash_sale | intros restricted | auto].
  destruct restricted; [apply triple_ret with (Q := fun _ => legible) |].
  eapply triple_bind with (Q := fun _ => legible);
    [now apply legible_broker_call | intros price | auto].
  destruct (price =? 0)%float; [now apply legible_emit |].
  eapply triple_bind with (Q := fun _ => legible);
    [apply legible_broker_call; intros w a w' logs; apply Hbook
    | intros positions | auto].
  destruct (find_position ticker positions) as [p |]; [| now apply legible_emit].
  destruct (dict_truthy p); [| now apply legible_emit].
  destruct (read_position p) as [[[avg_cost qty] divs] |];
    [| now apply triple_raise].
  destruct (analyze_erosion _ _ _ _ _); [now apply legible_emit |].
  eapply triple_bind with (Q := fun _ => legible);
    [now apply legible_broker_call | intros success | auto].
  destruct success; [| apply triple_ret with (Q := fun _ => legible)].
  eapply triple_bind with (Q := fun _ => legible);
    [apply legible_record_loss_sale | intros _; now apply legible_emit | auto].
Qed.

Lemma legible_watch_options (broker : BrokerInterface W Contract)
    (ticker : string) :
  triple legible (watch_options broker ticker) (fun _ => legible).
Proof.
  unfold watch_options.
  eapply triple_bind with (Q := fun _ => legible);
    [now apply legible_emit | intros _ | auto].
  eapply triple_bind with (Q := fun _ => legible);
    [now apply legible_broker_call | intros price | auto].
  destruct (0 <? price)%float; [| apply triple_ret with (Q := fun _ => legible)].
  eapply triple_bind with (Q := fun _ => legible);
    [now apply legible_broker_call | intros chain | auto].
  eapply triple_bind with (Q := fun _ => legible); [| | auto].
  - unfold analyze_options_opportunity. destruct chain.
    + apply triple_ret with (Q := fun _ => legible).
    + eapply triple_bind with (Q := fun _ => legible);
        [now apply legible_emit | intros _ | auto].
      apply triple_ret with (Q := fun _ => legible).
  - intros [? |]; [now apply legible_emit |].
    apply triple_ret with (Q := fun _ => legible).
Qed.

Lemma legible_run_bot_cycle (broker : BrokerInterface W Contract)
    (others : list (BrokerInterface W Contract)) :
  legible_positions broker ->
  triple legible
         (run_bot_cycle now WATCHLIST OPTIONS_WATCHLIST MAX_DRAWDOWN_PCT
            WASH_SALE_DAYS (broker :: others))
         (fun _ => legible).
Proof.
  intros Hbook. unfold run_bot_cycle.
  eapply triple_bind with (Q := fun _ => legible); [| intros _ | auto].
  - apply triple_for_each with (Inv := legible). intros ticker.
    now apply legible_watch.
  - eapply triple_bind with (Q := fun _ => legible);
      [| intros _; now apply legible_emit | auto].
    apply triple_for_each with (Inv := legible). intros ticker.
    apply legible_watch_options.
Qed.

(** A trace of readable records does not end at an unreadable one. *)
Lemma legible_not_unreadable (tr : list event) :
  Forall legible_event tr -> ~ unreadable tr.
Proof.
  intros Hall (pre & positions & ticker & p & -> & Hfind & _ & Hread).
  apply Forall_app in Hall as [_ Hlast].
  apply Forall_cons in Hlast as [Hlast _]. simpl in Hlast.
  apply find_position_matches in Hfind as [Hin _].
  rewrite Forall_forall in Hlast.
  destruct (Hlast p) as [x Hx]; [now apply list_elem_of_In |].
  rewrite Hread in Hx. discriminate Hx.
Qed.

(** The brokers of the repository absorb every exception. *)
Lemma sdk_broker_never_raises (s : Sdk W Contract) : never_raises (sdk_broker s).
Proof.
  repeat split; intros; simpl; unfold absorbing;
    destruct (connected s); simpl; try (eexists; reflexivity);
    match goal with |- context [match ?b with _ => _ end] =>
      destruct b as [[?|] ?] end; eexists; reflexivity.
Qed.

(** *** Single evaluations *)

(** When the check lets a ticker through, the ticker has no entry: either it
    had none and nothing changed, or its expired entry was just deleted and
    the file rewritten. *)
Lemma check_wash_sale_clear (ticker : string) (m m1 : machine W)
    (e1 : list event) :
  check_wash_sale now WASH_SALE_DAYS ticker m = (Some false, m1, e1) ->
  state m1 !! ticker = None
  /\ ((m1 = m /\ e1 = [])
      \/ (state m1 = delete ticker (state m) /\ file m1 = Some (state m1)
          /\ e1 = [Saved (state m1)])).
Proof.
  intros Hrun. cbv [check_wash_sale bind get_wash_log datetime_now] in Hrun.
  destruct (state m !! ticker) as [last |] eqn:Hlook.
  - destruct (now (world m)) as [today w].
    destruct (today - last <? WASH_SALE_DAYS); [discriminate Hrun |].
    run_step Hrun. split; [apply lookup_delete_eq | now right].
  - run_step Hrun. split; [exact Hlook | now left].
Qed.

(** The evaluation of a ticker that is held at a critical loss. *)
Lemma watch_sell (broker : BrokerInterface W Contract) (ticker : string)
    (m m1 : machine W) (e1 : list event) (price : float) (w2 w3 w4 w5 : W)
    (logs2 logs3 logs4 : list string) (positions : list position)
    (p : position) (avg_cost : float) (qty : Z) (divs : float)
    (success : bool) (today : date) :
  check_wash_sale now WASH_SALE_DAYS ticker m = (Some false, m1, e1) ->
  get_market_data broker ticker (world m1) = (Some price, w2, logs2) ->
  (price =? 0)%float = false ->
  get_positions broker w2 = (Some positions, w3, logs3) ->
  find_position ticker positions = Some p ->
  dict_truthy p = true ->
  read_position p = Some (avg_cost, qty, divs) ->
  analyze_erosion MAX_DRAWDOWN_PCT ticker price avg_cost divs = SELL_CRITICAL ->
  place_order broker ticker SELL qty w3 = (Some success, w4, logs4) ->
  now w4 = (today, w5) ->
  watch now MAX_DRAWDOWN_PCT WASH_SALE_DAYS broker ticker m
  = (Some tt,
     (if success
      then Machine (<[ticker := today]> (state m1))
                   (Some (<[ticker := today]> (state m1))) w5
      else Machine (state m1) (file m1) w4),
     (LogAnalyzing ticker :: e1 ++ map BrokerLog logs2
        ++ MarketData ticker price :: map BrokerLog logs3
        ++ Positions positions :: map BrokerLog logs4)
     ++ Order ticker SELL qty success
     :: (if success
         then [Saved (<[ticker := today]> (state m1)); LogCooldown ticker]
         else [])).
Proof.
  intros Hcheck Hquote Hprice Hbook Hfind Htruthy Hread Hverdict Horder Hnow.
  cbv [watch bind emit broker_call].
  rewrite Hcheck. cbn [world state file]. rewrite Hquote, Hprice.
  cbn [world state file]. rewrite Hbook, Hfind, Htruthy, Hread, Hverdict.
  cbn [world state file]. rewrite Horder.
  destruct success.
  - cbv [record_loss_sale bind datetime_now set_wash_log save_state].
    cbn [world state file]. rewrite Hnow.
    flatten_trace. reflexivity.
  - cbv [ret]. flatten_trace. reflexivity.
Qed.

(** The evaluation of a ticker whose price is reported as zero. *)
Lemma watch_no_price (broker : BrokerInterface W Contract) (ticker : string)
    (m m1 : machine W) (e1 : list event) (price : float) (w2 : W)
    (logs2 : list string) :
  check_wash_sale now WASH_SALE_DAYS ticker m = (Some false, m1, e1) ->
  get_market_data broker ticker (world m1) = (Some price, w2, logs2) ->
  (price =? 0)%float = true ->
  watch now MAX_DRAWDOWN_PCT WASH_SALE_DAYS broker ticker m
  = (Some tt, Machine (state m1) (file m1) w2,
     LogAnalyzing ticker :: e1 ++ map BrokerLog logs2
       ++ [MarketData ticker price; LogNoPrice ticker]).
Proof.
  intros Hcheck Hquote Hprice. cbv [watch bind emit broker_call].
  rewrite Hcheck. cbn [world state file]. rewrite Hquote, Hprice.
  flatten_trace. reflexivity.
Qed.

(** The evaluation of a ticker without a usable position record. *)
Lemma watch_monitoring (broker : BrokerInterface W Contract) (ticker : string)
    (m m1 : machine W) (e1 : list event) (price : float) (w2 w3 : W)
    (logs2 logs3 : list string) (positions : list position) :
  check_wash_sale now WASH_SALE_DAYS ticker m = (Some false, m1, e1) ->
  get_market_data broker ticker (world m1) = (Some price, w2, logs2) ->
  (price =? 0)%float = false ->
  get_positions broker w2 = (Some positions, w3, logs3) ->
  match find_position ticker positions with
  | Some p => dict_truthy p = false
  | None => True
  end ->
  watch now MAX_DRAWDOWN_PCT WASH_SALE_DAYS broker ticker m
  = (Some tt, Machine (state m1) (file m1) w3,
     LogAnalyzing ticker :: e1 ++ map BrokerLog logs2
       ++ MarketData ticker price :: map BrokerLog logs3
       ++ [Positions positions; LogMonitoring ticker price]).
Proof.
  intros Hcheck Hquote Hprice Hbook Hnone. cbv [watch bind emit broker_call].
  rewrite Hcheck. cbn [world state file]. rewrite Hquote, Hprice.
  cbn [world state file]. rewrite Hbook.
  destruct (find_position ticker positions) as [p |];
    [rewrite Hnone |]; flatten_trace; reflexivity.
Qed.

(** The evaluation of a ticker that is held without a critical loss. *)
Lemma watch_hold (broker : BrokerInterface W Contract) (ticker : string)
    (m m1 : machine W) (e1 : list event) (price : float) (w2 w3 : W)
    (logs2 logs3 : list string) (positions : list position) (p : position)
    (avg_cost : float) (qty : Z) (divs : float) :
  check_wash_sale now WASH_SALE_DAYS ticker m = (Some false, m1, e1) ->
  get_market_data broker ticker (world m1) = (Some price, w2, logs2) ->
  (price =? 0)%float = false ->
  get_positions broker w2 = (Some positions, w3, logs3) ->
  find_position ticker positions = Some p ->
  dict_truthy p = true ->
  read_position p = Some (avg_cost, qty, divs) ->
  analyze_erosion MAX_DRAWDOWN_PCT ticker price avg_cost divs = HOLD ->
  watch now MAX_DRAWDOWN_PCT WASH_SALE_DAYS broker ticker m
  = (Some tt, Machine (state m1) (file m1) w3,
     LogAnalyzing ticker :: e1 ++ map BrokerLog logs2
       ++ MarketData ticker price :: map BrokerLog logs3
       ++ [Positions positions; LogHold ticker]).
Proof.
  intros Hcheck Hquote Hprice Hbook Hfind Htruthy Hread Hverdict.
  cbv [watch bind emit broker_call].
  rewrite Hcheck. cbn [world state file]. rewrite Hquote, Hprice.
  cbn [world state file]. rewrite Hbook, Hfind, Htruthy, Hread, Hverdict.
  flatten_trace. reflexivity.
Qed.

(** The evaluation of a ticker whose record has a number that [float] or
    [int] rejects: the exception leaves the evaluation, and the loop. *)
Lemma watch_unreadable (broker : BrokerInterface W Contract) (ticker : string)
    (m m1 : machine W) (e1 : list event) (price : float) (w2 w3 : W)
    (logs2 logs3 : list string) (positions : list position) (p : position) :
  check_wash_sale now WASH_SALE_DAYS ticker m = (Some false, m1, e1) ->
  get_market_data broker ticker (world m1) = (Some price, w2, logs2) ->
  (price =? 0)%float = false ->
  get_positions broker w2 = (Some positions, w3, logs3) ->
  find_position ticker positions = Some p ->
  dict_truthy p = true ->
  read_position p = None ->
  watch now MAX_DRAWDOWN_PCT WASH_SALE_DAYS broker ticker m
  = (None, Machine (state m1) (file m1) w3,
     LogAnalyzing ticker :: e1 ++ map BrokerLog logs2
       ++ MarketData ticker price :: map BrokerLog logs3
       ++ [Positions positions]).
Proof.
  intros Hcheck Hquote Hprice Hbook Hfind Htruthy Hread.
  cbv [watch bind emit broker_call raise].
  rewrite Hcheck. cbn [world state file]. rewrite Hquote, Hprice.
  cbn [world state file]. rewrite Hbook, Hfind, Htruthy, Hread.
  flatten_trace. reflexivity.
Qed.

(** The options loop asks for a chain only when the price is positive. *)
Lemma watch_options_no_price (broker : BrokerInterface W Contract)
    (ticker : string) (m : machine W) (price : float) (w2 : W)
    (logs2 : list string) :
  get_market_data broker ticker (world m) = (Some price, w2, logs2) ->
  (0 <? price)%float = false ->
  watch_options broker ticker m
  = (Some tt, Machine (state m) (file m) w2,
     LogAnalyzingOptions ticker :: map BrokerLog logs2
       ++ [MarketData ticker price]).
Proof.
  intros Hquote Hprice. cbv [watch_options bind emit broker_call].
  rewrite Hquote, Hprice. cbv [ret]. flatten_trace. reflexivity.
Qed.

(** Before the order of an evaluation is placed, no order has returned and
    no ledger written holds an entry of the ticker. *)
Lemma sell_prelude (ticker : string) (m m1 : machine W) (e1 : list event)
    (price : float) (positions : list position)
    (logs2 logs3 logs4 : list string) :
  check_wash_sale now WASH_SALE_DAYS ticker m = (Some false, m1, e1) ->
  let pre :=
    LogAnalyzing ticker :: e1 ++ map BrokerLog logs2
      ++ MarketData ticker price :: map BrokerLog logs3
      ++ Positions positions :: map BrokerLog logs4 in
  (forall l, In (Saved l) pre -> l !! ticker = None)
  /\ (forall t a qty ok, ~ In (Order t a qty ok) pre).
Proof.
  intros Hcheck pre.
  destruct (check_wash_sale_clear ticker m m1 e1 Hcheck) as [Hclear Hshape].
  assert (Hlogs : forall ev logs, In ev (map BrokerLog logs) ->
                                  exists msg, ev = BrokerLog msg).
  { intros ev logs Hin. apply in_map_iff in Hin as (msg & <- & _). now exists msg. }
  assert (Hpre : forall ev, In ev pre ->
            ev = LogAnalyzing ticker \/ In ev e1 \/ (exists msg, ev = BrokerLog msg)
            \/ ev = MarketData ticker price \/ ev = Positions positions).
  { intros ev Hin. subst pre. simpl in Hin. destruct Hin as [<- | Hin]; [auto |].
    apply in_app_or in Hin as [Hin | Hin]; [auto |].
    apply in_app_or in Hin as [Hin | Hin]; [eauto |].
    simpl in Hin. destruct Hin as [<- | Hin]; [auto |].
    apply in_app_or in Hin as [Hin | Hin]; [eauto |].
    simpl in Hin. destruct Hin as [<- | Hin]; [auto 6 | eauto]. }
  assert (He1 : forall ev, In ev e1 -> ev = Saved (state m1)).
  { intros ev Hin. destruct Hshape as [[_ ->] | (_ & _ & ->)]; simpl in Hin;
      [contradiction | destruct Hin as [<- | []]; reflexivity]. }
  split.
  - intros l Hin.
    destruct (Hpre _ Hin) as [H | [H | [[msg H] | [H | H]]]];
      try discriminate H.
    apply He1 in H. injection H as ->. exact Hclear.
  - intros t a qty ok Hin.
    destruct (Hpre _ Hin) as [H | [H | [[msg H] | [H | H]]]];
      try discriminate H.
    apply He1 in H. discriminate H.
Qed.

(** A broker method that raises ends the loop: the cycle has no handler of
    its own. *)
Lemma raising_quote_aborts (broker : BrokerInterface W Contract)
    (ticker : string) (rest : list string) (m m1 : machine W)
    (e1 : list event) (w2 : W) (logs2 : list string) :
  check_wash_sale now WASH_SALE_DAYS ticker m = (Some false, m1, e1) ->
  get_market_data broker ticker (world m1) = (None, w2, logs2) ->
  for_each (watch now MAX_DRAWDOWN_PCT WASH_SALE_DAYS broker) (ticker :: rest) m
  = (None, Machine (state m1) (file m1) w2,
     LogAnalyzing ticker :: e1 ++ map BrokerLog logs2).
Proof.
  intros Hcheck Hquote. cbn [for_each]. cbv [watch bind emit broker_call].
  rewrite Hcheck. cbn [world state file]. rewrite Hquote.
  flatten_trace. reflexivity.
Qed.

End Cycle.

(** * Part III: the claims *)

(** C1. Order-gated recording.  Over a whole cycle, every ledger that is
    written to the file, and the ledger left in memory, differs from the
    ledger at the start of the cycle only by deleted entries and by entries
    of tickers for which the gateway has already accepted a sell order.  In
    the evaluation of a ticker held at a critical loss the gateway is called
    first: no order has returned and no ledger that holds an entry of the
    ticker has been written before it (the only write that can precede it is
    the deletion of the expired entry of the ticker); when the order is
    accepted the entry of the ticker becomes today's date and the file is
    rewritten; when it is refused the ledger and the file stay as the
    cooldown check left them, without an entry of the ticker, and nothing is
    written. *)
Theorem order_gated_recording {W Contract : Type} (now : W -> date * W)
    (WATCHLIST OPTIONS_WATCHLIST : list string) (MAX_DRAWDOWN_PCT : float)
    (WASH_SALE_DAYS : Z) :
  (forall (brokers : list (BrokerInterface W Contract)) (m m' : machine W)
          (r : option unit) (tr : list event),
      run_bot_cycle now WATCHLIST OPTIONS_WATCHLIST MAX_DRAWDOWN_PCT
        WASH_SALE_DAYS brokers m = (r, m', tr) ->
      (forall pre l post ticker,
          tr = pre ++ Saved l :: post ->
          l !! ticker = state m !! ticker \/ l !! ticker = None
          \/ exists qty, In (Order ticker SELL qty true) pre)
      /\ (forall ticker,
             state m' !! ticker = state m !! ticker
             \/ state m' !! ticker = None
             \/ exists qty, In (Order ticker SELL qty true) tr))
  /\ (forall (broker : BrokerInterface W Contract) (ticker : string)
             (m m1 : machine W) (e1 : list event) (price : float)
             (w2 w3 w4 w5 : W) (logs2 logs3 logs4 : list string)
             (positions : list position) (p : position)
             (avg_cost : float) (qty : Z) (divs : float) (success : bool)
             (today : date),
         check_wash_sale now WASH_SALE_DAYS ticker m = (Some false, m1, e1) ->
         get_market_data broker ticker (world m1) = (Some price, w2, logs2) ->
         (price =? 0)%float = false ->
         get_positions broker w2 = (Some positions, w3, logs3) ->
         find_position ticker positions = Some p ->
         dict_truthy p = true ->
         read_position p = Some (avg_cost, qty, divs) ->
         analyze_erosion MAX_DRAWDOWN_PCT ticker price avg_cost divs
         = SELL_CRITICAL ->
         place_order broker ticker SELL qty w3 = (Some success, w4, logs4) ->
         now w4 = (today, w5) ->
         exists pre post m',
           watch now MAX_DRAWDOWN_PCT WASH_SALE_DAYS broker ticker m
           = (Some tt, m', pre ++ Order ticker SELL qty success :: post)
           /\ (forall l, In (Saved l) pre -> l !! ticker = None)
           /\ (forall t a q ok, ~ In (Order t a q ok) pre)
           /\ (success = true ->
               state m' = <[ticker := today]> (state m1)
               /\ file m' = Some (state m')
               /\ post = [Saved (state m'); LogCooldown ticker])
           /\ (success = false ->
               state m' = state m1 /\ file m' = file m1
               /\ state m' !! ticker = None
               /\ (state m' = state m \/ state m' = delete ticker (state m))
               /\ post = [])).
Proof.
  split.
  - intros brokers m m' r tr Hrun.
    assert (Hstart : honest (state m) m []).
    { split; [intros ticker; now left | apply gated_nil]. }
    destruct (honest_run_bot_cycle now WATCHLIST OPTIONS_WATCHLIST
                MAX_DRAWDOWN_PCT WASH_SALE_DAYS (state m) brokers
                m [] r m' tr Hstart Hrun) as [Ht Hg].
    simpl in Ht, Hg. split.
    + intros pre l post ticker Heq. apply (Hg pre l post Heq ticker).
    + intros ticker. apply Ht.
  - intros broker ticker m m1 e1 price w2 w3 w4 w5 logs2 logs3 logs4
           positions p avg_cost qty divs success today
           Hcheck Hquote Hprice Hbook Hfind Htruthy Hread Hverdict Horder Hnow.
    destruct (check_wash_sale_clear now WASH_SALE_DAYS ticker m m1 e1 Hcheck)
      as [Hclear Hshape].
    destruct (sell_prelude now WASH_SALE_DAYS ticker m m1 e1 price positions
                logs2 logs3 logs4 Hcheck) as [Hwrites Horders].
    eexists _, _, _. split.
    { eapply watch_sell; eassumption. }
    split; [exact Hwrites | split; [exact Horders | split]].
    + intros ->. simpl. auto.
    + intros ->. simpl. repeat split; auto.
      destruct Hshape as [[-> _] | (-> & _ & _)]; auto.
Qed.

(** The accepted sale of a whole cycle and the refused sale of one
    evaluation. *)
Lemma order_gated_recording_witness :
  (forall ticker,
      let m := Scenario.boot None (Scenario.falling true) in
      let '(_, m', tr) :=
        run_bot_cycle Scenario.clock ["SPY"] ["QQQ"] ten_percent 31
          [Scenario.broker] m in
      state m' !! ticker = state m !! ticker \/ state m' !! ticker = None
      \/ exists qty, In (Order ticker SELL qty true) tr)
  /\ (exists pre m',
         watch Scenario.clock ten_percent 31 Scenario.broker "SPY"
           (Scenario.boot None (Scenario.falling false))
         = (Some tt, m', pre ++ [Order "SPY" SELL 10 false])
         /\ state m' !! "SPY" = None /\ file m' = None).
Proof.
  destruct (order_gated_recording (W := Scenario.world) (Contract := unit)
              Scenario.clock ["SPY"] ["QQQ"] ten_percent 31) as [Hcycle Hwatch].
  split.
  - intros ticker m.
    destruct (run_bot_cycle Scenario.clock ["SPY"] ["QQQ"] ten_percent 31
                [Scenario.broker] m) as [[r m'] tr] eqn:Hrun.
    exact (proj2 (Hcycle [Scenario.broker] m m' r tr Hrun) ticker).
  - pose (w := Scenario.falling false).
    destruct (Hwatch Scenario.broker "SPY" (Scenario.boot None w)
                (Scenario.boot None w) [] 89%float w w w w [] [] []
                [Scenario.holding "SPY" 100 (PyInt 10) 0]
                (Scenario.holding "SPY" 100 (PyInt 10) 0)
                100%float 10 0%float false 20000
                eq_refl eq_refl eq_refl eq_refl eq_refl eq_refl eq_refl
                eq_refl eq_refl eq_refl)
      as (pre & post & m' & Hrun & _ & _ & _ & Hrefused).
    destruct (Hrefused eq_refl) as (_ & Hfile & Hnone & _ & ->).
    exists pre, m'. split; [exact Hrun | split; [exact Hnone | exact Hfile]].
Defined.

(** C2. The decision is a function of price, average cost, dividends and the
    drawdown fraction alone (the ticker is ignored); it is [SELL_CRITICAL]
    exactly when the dividend-adjusted position [price - cost + dividends] is
    strictly negative and [|price - cost|] strictly exceeds
    [cost * fraction], and [HOLD] otherwise.  With cost 100, fraction 0.10 and
    no dividends, price 89 sells and price 90 holds; price 95 with dividends 6
    holds. *)
Theorem analyze_erosion_decision :
  (forall pct t1 t2 price cost div,
      analyze_erosion pct t1 price cost div
      = analyze_erosion pct t2 price cost div)
  /\ (forall pct t price cost div,
         analyze_erosion pct t price cost div = SELL_CRITICAL
         <-> ((price - cost + div <? 0)%float = true
              /\ (cost * pct <? abs (price - cost))%float = true))
  /\ (forall pct t price cost div,
         analyze_erosion pct t price cost div = HOLD
         <-> ~ ((price - cost + div <? 0)%float = true
                /\ (cost * pct <? abs (price - cost))%float = true))
  /\ analyze_erosion ten_percent "SPY" 89 100 0 = SELL_CRITICAL
  /\ analyze_erosion ten_percent "SPY" 90 100 0 = HOLD
  /\ analyze_erosion ten_percent "SPY" 95 100 6 = HOLD.
Proof.
  assert (Hsell : forall pct t price cost div,
             analyze_erosion pct t price cost div = SELL_CRITICAL
             <-> ((price - cost + div <? 0)%float = true
                  /\ (cost * pct <? abs (price - cost))%float = true)).
  { intros pct t price cost div. unfold analyze_erosion; cbv zeta.
    destruct (price - cost + div <? 0)%float,
             (cost * pct <? abs (price - cost))%float; simpl;
      intuition congruence. }
  split; [reflexivity |]. split; [exact Hsell |].
  split; [| repeat split; reflexivity].
  intros pct t price cost div. rewrite <- (Hsell pct t).
  destruct (analyze_erosion pct t price cost div); split;
    try discriminate; try reflexivity.
  intros H. exfalso. apply H. reflexivity.
Qed.

(** C3. The restriction check returns false and changes nothing when the
    ticker has no entry; when today minus the entry date is at least
    [WASH_SALE_DAYS] it deletes the entry, writes the ledger to the file and
    returns false; when the difference is smaller it returns true and leaves
    ledger and file as they are. *)
Theorem check_wash_sale_contract {W : Type} (now : W -> date * W)
    (WASH_SALE_DAYS : Z) (ticker : string) (m : machine W) :
  (state m !! ticker = None ->
   check_wash_sale now WASH_SALE_DAYS ticker m = (Some false, m, []))
  /\ (forall last today w,
         state m !! ticker = Some last -> now (world m) = (today, w) ->
         WASH_SALE_DAYS <= today - last ->
         exists m',
           check_wash_sale now WASH_SALE_DAYS ticker m
           = (Some false, m', [Saved (state m')])
           /\ state m' = delete ticker (state m)
           /\ state m' !! ticker = None
           /\ file m' = Some (state m'))
  /\ (forall last today w,
         state m !! ticker = Some last -> now (world m) = (today, w) ->
         today - last < WASH_SALE_DAYS ->
         exists m' e,
           check_wash_sale now WASH_SALE_DAYS ticker m = (Some true, m', e)
           /\ state m' = state m /\ file m' = file m
           /\ forall l, ~ In (Saved l) e).
Proof.
  split; [apply check_wash_sale_absent | split].
  - intros last today w Hsome Hnow Hexp.
    exists (Machine (delete ticker (state m)) (Some (delete ticker (state m))) w).
    split.
    + apply (check_wash_sale_expired now WASH_SALE_DAYS ticker m last today w);
        assumption.
    + simpl. split; [reflexivity | split; [apply lookup_delete_eq | reflexivity]].
  - intros last today w Hsome Hnow Hcool. eexists _, _. split.
    + apply (check_wash_sale_cooling now WASH_SALE_DAYS ticker m last today w);
        assumption.
    + simpl. repeat split. intros l [Hin | []]. discriminate Hin.
Qed.

Lemma check_wash_sale_contract_witness :
  let w := Scenario.falling false in
  check_wash_sale Scenario.clock 31 "SPY" (Scenario.boot None w)
  = (Some false, Scenario.boot None w, [])
  /\ (exists m',
         check_wash_sale Scenario.clock 31 "SPY" (Scenario.after_sale 19969 w)
         = (Some false, m', [Saved (state m')])
         /\ state m' = delete "SPY" {["SPY" := 19969]}
         /\ state m' !! "SPY" = None
         /\ file m' = Some (state m'))
  /\ (exists m' e,
         check_wash_sale Scenario.clock 31 "SPY" (Scenario.after_sale 19970 w)
         = (Some true, m', e)
         /\ state m' = {["SPY" := 19970]}
         /\ file m' = Some {["SPY" := 19970]}
         /\ forall l, ~ In (Saved l) e).
Proof.
  intros w. split; [| split].
  - apply (proj1 (check_wash_sale_contract Scenario.clock 31 "SPY"
                    (Scenario.boot None w))).
    reflexivity.
  - apply (proj1 (proj2 (check_wash_sale_contract Scenario.clock 31 "SPY"
                           (Scenario.after_sale 19969 w)))
             19969 20000 w); [reflexivity | reflexivity | lia].
  - apply (proj2 (proj2 (check_wash_sale_contract Scenario.clock 31 "SPY"
                           (Scenario.after_sale 19970 w)))
             19970 20000 w); [reflexivity | reflexivity | lia].
Defined.

(** C4 at a negative price.  The watchlist loop skips a ticker only when the
    price equals zero: at a price of -1 the positions are fetched, the
    position is judged, a sell order is placed and the ledger is written.
    The options loop of the same cycle does skip that price. *)
Theorem negative_price_is_traded :
  let m := Scenario.boot None Scenario.negative_quote in
  let spy := Scenario.holding "SPY" 100 (PyInt 10) 0 in
  (-1 <=? 0)%float = true
  /\ watch Scenario.clock ten_percent 31 Scenario.broker "SPY" m
     = (Some tt,
        Machine {["SPY" := 20000]} (Some {["SPY" := 20000]})
                Scenario.negative_quote,
        [LogAnalyzing "SPY"; MarketData "SPY" (-1); Positions [spy];
         Order "SPY" SELL 10 true; Saved {["SPY" := 20000]};
         LogCooldown "SPY"])
  /\ watch_options Scenario.broker "SPY" m
     = (Some tt, m, [LogAnalyzingOptions "SPY"; MarketData "SPY" (-1)]).
Proof. repeat split. Qed.

(** C5. Recording a loss sale on day [D1] sets the entry of the ticker to
    [D1], whatever was there, and writes the file; from then on the check
    returns true on every day from [D1] up to, not including,
    [D1 + WASH_SALE_DAYS], and false on every later day. *)
Theorem cooldown_after_record {W : Type} (now : W -> date * W)
    (WASH_SALE_DAYS : Z) (ticker : string) (m : machine W) (D1 : date)
    (w1 : W) :
  now (world m) = (D1, w1) ->
  exists m1,
    record_loss_sale now ticker m = (Some tt, m1, [Saved (state m1)])
    /\ state m1 = <[ticker := D1]> (state m)
    /\ state m1 !! ticker = Some D1
    /\ file m1 = Some (state m1)
    /\ forall w today w',
         now w = (today, w') ->
         (D1 <= today < D1 + WASH_SALE_DAYS ->
          fst (fst (check_wash_sale now WASH_SALE_DAYS ticker
                      (Machine (state m1) (file m1) w))) = Some true)
         /\ (D1 + WASH_SALE_DAYS <= today ->
             fst (fst (check_wash_sale now WASH_SALE_DAYS ticker
                         (Machine (state m1) (file m1) w))) = Some false).
Proof.
  intros Hnow.
  exists (Machine (<[ticker := D1]> (state m))
                  (Some (<[ticker := D1]> (state m))) w1).
  split; [apply record_loss_sale_run; exact Hnow |].
  simpl. split; [reflexivity |].
  split; [apply lookup_insert_eq |]. split; [reflexivity |].
  intros w today w' Hclock. split; intros Hday.
  - erewrite check_wash_sale_cooling;
      [reflexivity | simpl; apply lookup_insert_eq | exact Hclock | lia].
  - erewrite check_wash_sale_expired;
      [reflexivity | simpl; apply lookup_insert_eq | exact Hclock | lia].
Qed.

Lemma cooldown_after_record_witness :
  let w := Scenario.falling true in
  exists m1,
    record_loss_sale Scenario.clock "SPY" (Scenario.after_sale 19000 w)
    = (Some tt, m1, [Saved (state m1)])
    /\ state m1 !! "SPY" = Some 20000
    /\ fst (fst (check_wash_sale Scenario.clock 31 "SPY"
                   (Machine (state m1) (file m1)
                      (Scenario.World 20030 (fun _ => None) None None))))
       = Some true
    /\ fst (fst (check_wash_sale Scenario.clock 31 "SPY"
                   (Machine (state m1) (file m1)
                      (Scenario.World 20031 (fun _ => None) None None))))
       = Some false.
Proof.
  intros w.
  destruct (cooldown_after_record Scenario.clock 31 "SPY"
              (Scenario.after_sale 19000 w) 20000 w eq_refl)
    as (m1 & Hrun & _ & Hentry & _ & Hlater).
  exists m1. split; [exact Hrun | split; [exact Hentry | split]].
  - apply (proj1 (Hlater (Scenario.World 20030 (fun _ => None) None None)
                    20030 _ eq_refl)).
    lia.
  - apply (proj2 (Hlater (Scenario.World 20031 (fun _ => None) None None)
                    20031 _ eq_refl)).
    lia.
Defined.

(** C6. A check on an expired entry deletes it and returns false; the same
    check again returns false, leaves machine and file as they are and emits
    nothing, whatever the clock reads then. *)
Theorem pruning_idempotent {W : Type} (now : W -> date * W)
    (WASH_SALE_DAYS : Z) (ticker : string) (m : machine W)
    (last today : date) (w : W) :
  state m !! ticker = Some last ->
  now (world m) = (today, w) ->
  WASH_SALE_DAYS <= today - last ->
  exists m1,
    check_wash_sale now WASH_SALE_DAYS ticker m
    = (Some false, m1, [Saved (state m1)])
    /\ state m1 = delete ticker (state m)
    /\ check_wash_sale now WASH_SALE_DAYS ticker m1 = (Some false, m1, [])
    /\ forall w',
         check_wash_sale now WASH_SALE_DAYS ticker
           (Machine (state m1) (file m1) w')
         = (Some false, Machine (state m1) (file m1) w', []).
Proof.
  intros Hsome Hnow Hexp.
  exists (Machine (delete ticker (state m)) (Some (delete ticker (state m))) w).
  split.
  - apply (check_wash_sale_expired now WASH_SALE_DAYS ticker m last today w);
      assumption.
  - simpl. split; [reflexivity |].
    split; [| intros w']; apply check_wash_sale_absent; simpl;
      apply lookup_delete_eq.
Qed.

Lemma pruning_idempotent_witness :
  let w := Scenario.falling false in
  exists m1,
    check_wash_sale Scenario.clock 31 "SPY" (Scenario.after_sale 19969 w)
    = (Some false, m1, [Saved (state m1)])
    /\ state m1 = delete "SPY" {["SPY" := 19969]}
    /\ check_wash_sale Scenario.clock 31 "SPY" m1 = (Some false, m1, []).
Proof.
  intros w.
  destruct (pruning_idempotent Scenario.clock 31 "SPY"
              (Scenario.after_sale 19969 w) 19969 20000 w
              eq_refl eq_refl ltac:(lia))
    as (m1 & Hfirst & Hstate & Hsecond & _).
  exists m1. split; [exact Hfirst | split; [exact Hstate | exact Hsecond]].
Defined.

(** C7, as stated, fails: ten and a half shares are reported and the order
    is for ten. *)
Lemma sell_order_not_whole_position :
  ~ (forall (ticker : string) (m m' : machine Scenario.world)
            (tr : list event) (positions : list position) (p : position)
            (reported : pynum) (qty : Z) (ok : bool),
        watch Scenario.clock ten_percent 31 Scenario.broker ticker m
        = (Some tt, m', tr) ->
        In (Positions positions) tr ->
        find_position ticker positions = Some p ->
        quantity p = Some reported ->
        In (Order ticker SELL qty ok) tr ->
        same_quantity reported qty = true).
Proof.
  intros Hclaim.
  pose (p := Scenario.holding "SPY" 100 (PyFloat 10.5) 0).
  pose (m := Scenario.boot None Scenario.fractional).
  assert (Hwhole : same_quantity (PyFloat 10.5) 10 = true).
  { apply (Hclaim "SPY" m
             (Machine {["SPY" := 20000]} (Some {["SPY" := 20000]})
                      Scenario.fractional)
             [LogAnalyzing "SPY"; MarketData "SPY" 89; Positions [p];
              Order "SPY" SELL 10 true; Saved {["SPY" := 20000]};
              LogCooldown "SPY"]
             [p] p (PyFloat 10.5) 10 true).
    - reflexivity.
    - simpl. auto.
    - reflexivity.
    - reflexivity.
    - simpl. auto 6. }
  vm_compute in Hwhole. discriminate Hwhole.
Qed.

(** C7, amended.  In the evaluation of a ticker held at a critical loss, the
    only order sent to the gateway is a sell order for the ticker whose
    quantity is [int(quantity)] of the position record found in the
    positions just fetched: the reported quantity truncated toward zero,
    which is the quantity itself when it is an [int] and zero when the
    record has none, whatever the gateway answers. *)
Theorem sell_order_is_truncated_position {W Contract : Type}
    (now : W -> date * W) (MAX_DRAWDOWN_PCT : float) (WASH_SALE_DAYS : Z)
    (broker : BrokerInterface W Contract) (ticker : string)
    (m m1 : machine W) (e1 : list event) (price : float) (w2 w3 : W)
    (logs2 logs3 : list string) (positions : list position) (p : position)
    (avg_cost : float) (qty : Z) (divs : float)
    (answer : Z -> bool) (after : Z -> W) (logs4 : Z -> list string) :
  check_wash_sale now WASH_SALE_DAYS ticker m = (Some false, m1, e1) ->
  get_market_data broker ticker (world m1) = (Some price, w2, logs2) ->
  (price =? 0)%float = false ->
  get_positions broker w2 = (Some positions, w3, logs3) ->
  find_position ticker positions = Some p ->
  dict_truthy p = true ->
  read_position p = Some (avg_cost, qty, divs) ->
  analyze_erosion MAX_DRAWDOWN_PCT ticker price avg_cost divs = SELL_CRITICAL ->
  (forall q,
      place_order broker ticker SELL q w3 = (Some (answer q), after q, logs4 q)) ->
  py_int (default (PyInt 0) (quantity p)) = Some qty
  /\ (forall z, quantity p = Some (PyInt z) -> qty = z)
  /\ (quantity p = None -> qty = 0)
  /\ exists m' tr,
      watch now MAX_DRAWDOWN_PCT WASH_SALE_DAYS broker ticker m = (Some tt, m', tr)
      /\ In (Positions positions) tr
      /\ In (Order ticker SELL qty (answer qty)) tr
      /\ (forall t a q ok,
             In (Order t a q ok) tr -> t = ticker /\ a = SELL /\ q = qty).
Proof.
  intros Hcheck Hquote Hprice Hbook Hfind Htruthy Hread Hverdict Horder.
  destruct (read_position_fields p avg_cost qty divs Hread) as (_ & Hqty & _).
  split; [exact Hqty | split; [| split]].
  - intros z Hz. rewrite Hz in Hqty. simpl in Hqty. now injection Hqty as <-.
  - intros Hz. rewrite Hz in Hqty. simpl in Hqty. now injection Hqty as <-.
  - destruct (now (after qty)) as [today w5] eqn:Hnow.
    destruct (sell_prelude now WASH_SALE_DAYS ticker m m1 e1 price positions
                logs2 logs3 (logs4 qty) Hcheck) as [_ Horders].
    eexists _, _. split.
    { eapply watch_sell; try eassumption. apply Horder. }
    split; [| split].
    + apply in_or_app; left. right. apply in_or_app; right.
      apply in_or_app; right. right. apply in_or_app; right. now left.
    + apply in_or_app; right. now left.
    + intros t a q ok Hin. apply in_app_or in Hin as [Hin | Hin].
      * exfalso. exact (Horders t a q ok Hin).
      * destruct Hin as [Hin | Hin]; [injection Hin as <- <- <- _; auto |].
        destruct (answer qty); simpl in Hin;
          repeat (destruct Hin as [Hin | Hin]; try discriminate Hin);
          contradiction.
Qed.

Lemma sell_order_is_truncated_position_witness :
  py_int (PyFloat 10.5) = Some 10
  /\ exists m' tr,
      watch Scenario.clock ten_percent 31 Scenario.broker "SPY"
        (Scenario.boot None Scenario.fractional) = (Some tt, m', tr)
      /\ In (Order "SPY" SELL 10 true) tr
      /\ (forall t a q ok,
             In (Order t a q ok) tr -> t = "SPY" /\ a = SELL /\ q = 10).
Proof.
  pose (w := Scenario.fractional).
  destruct (sell_order_is_truncated_position (Contract := unit) Scenario.clock
              ten_percent 31 Scenario.broker "SPY" (Scenario.boot None w)
              (Scenario.boot None w) [] 89%float w w [] []
              [Scenario.holding "SPY" 100 (PyFloat 10.5) 0]
              (Scenario.holding "SPY" 100 (PyFloat 10.5) 0)
              100%float 10 0%float
              (fun _ => true) (fun _ => w) (fun _ => [])
              eq_refl eq_refl eq_refl eq_refl eq_refl eq_refl eq_refl eq_refl
              (fun _ => eq_refl))
    as (Hint & _ & _ & m' & tr & Hrun & _ & Horder & Honly).
  split; [exact Hint |].
  exists m', tr. split; [exact Hrun | split; [exact Horder | exact Honly]].
Defined.

(** C8. With a broker of the repository, no failure of the SDK ends the
    cycle: whatever the SDK calls do, the cycle either returns, having
    started the evaluation of every ticker of the watchlist in order, or is
    left by the exception of a position record with an unreadable number,
    which is not an SDK failure; when the records of the SDK are readable
    the cycle returns.  A quote that raises is logged and read as
    price zero, which ends the evaluation of that ticker; positions that
    raise are logged and read as no positions; an order that raises is
    logged and read as refused, which leaves the ledger alone. *)
Theorem failure_isolation {W Contract : Type} (now : W -> date * W)
    (WATCHLIST OPTIONS_WATCHLIST : list string) (MAX_DRAWDOWN_PCT : float)
    (WASH_SALE_DAYS : Z)
    (s : Sdk W Contract) (others : list (BrokerInterface W Contract)) :
  (forall m r m' tr,
      run_bot_cycle now WATCHLIST OPTIONS_WATCHLIST MAX_DRAWDOWN_PCT
        WASH_SALE_DAYS (sdk_broker s :: others) m = (r, m', tr) ->
      (r = Some tt /\ analyzed tr = WATCHLIST) \/ (r = None /\ unreadable tr))
  /\ ((forall w positions w',
          positions_block s w = (Some positions, w') ->
          Forall (fun p => is_Some (read_position p)) positions) ->
      forall m, exists m' tr,
        run_bot_cycle now WATCHLIST OPTIONS_WATCHLIST MAX_DRAWDOWN_PCT
          WASH_SALE_DAYS (sdk_broker s :: others) m = (Some tt, m', tr)
        /\ analyzed tr = WATCHLIST)
  /\ (forall ticker m m1 e1 w',
         connected s = true ->
         check_wash_sale now WASH_SALE_DAYS ticker m = (Some false, m1, e1) ->
         quote_block s ticker (world m1) = (None, w') ->
         watch now MAX_DRAWDOWN_PCT WASH_SALE_DAYS (sdk_broker s) ticker m
         = (Some tt, Machine (state m1) (file m1) w',
            LogAnalyzing ticker :: e1
              ++ [BrokerLog ("Error getting market data for " ++ ticker);
                  MarketData ticker 0; LogNoPrice ticker]))
  /\ (forall ticker m m1 e1 price w2 w',
         connected s = true ->
         check_wash_sale now WASH_SALE_DAYS ticker m = (Some false, m1, e1) ->
         quote_block s ticker (world m1) = (Some price, w2) ->
         (price =? 0)%float = false ->
         positions_block s w2 = (None, w') ->
         watch now MAX_DRAWDOWN_PCT WASH_SALE_DAYS (sdk_broker s) ticker m
         = (Some tt, Machine (state m1) (file m1) w',
            LogAnalyzing ticker :: e1
              ++ [MarketData ticker price; BrokerLog "Error getting positions";
                  Positions []; LogMonitoring ticker price]))
  /\ (forall ticker m m1 e1 price w2 positions w3 p avg_cost qty divs w',
         connected s = true ->
         check_wash_sale now WASH_SALE_DAYS ticker m = (Some false, m1, e1) ->
         quote_block s ticker (world m1) = (Some price, w2) ->
         (price =? 0)%float = false ->
         positions_block s w2 = (Some positions, w3) ->
         find_position ticker positions = Some p ->
         dict_truthy p = true ->
         read_position p = Some (avg_cost, qty, divs) ->
         analyze_erosion MAX_DRAWDOWN_PCT ticker price avg_cost divs
         = SELL_CRITICAL ->
         order_block s ticker SELL qty w3 = (None, w') ->
         watch now MAX_DRAWDOWN_PCT WASH_SALE_DAYS (sdk_broker s) ticker m
         = (Some tt, Machine (state m1) (file m1) w',
            LogAnalyzing ticker :: e1
              ++ [MarketData ticker price; Positions positions;
                  BrokerLog "Error placing order";
                  Order ticker SELL qty false])).
Proof.
  assert (Hcycle : forall m r m' tr,
             run_bot_cycle now WATCHLIST OPTIONS_WATCHLIST MAX_DRAWDOWN_PCT
               WASH_SALE_DAYS (sdk_broker s :: others) m = (r, m', tr) ->
             (r = Some tt /\ analyzed tr = WATCHLIST)
             \/ (r = None /\ unreadable tr)).
  { intros m r m' tr Hrun.
    destruct (settled_run_bot_cycle now WATCHLIST OPTIONS_WATCHLIST
                MAX_DRAWDOWN_PCT WASH_SALE_DAYS (sdk_broker s) others
                (sdk_broker_never_raises s) m [] r m' tr eq_refl Hrun)
      as [[[[] ->] Htr] | [-> Htr]]; [left | right]; auto. }
  split; [exact Hcycle | split; [| split; [| split]]].
  - intros Hdata m.
    destruct (run_bot_cycle now WATCHLIST OPTIONS_WATCHLIST MAX_DRAWDOWN_PCT
                WASH_SALE_DAYS (sdk_broker s :: others) m)
      as [[r m'] tr] eqn:Hrun.
    destruct (Hcycle m r m' tr Hrun) as [[-> Htr] | [_ Hbad]];
      [now exists m', tr |].
    exfalso. revert Hbad. apply legible_not_unreadable.
    assert (Hbook : legible_positions (sdk_broker s)).
    { intros w positions w' logs. simpl. unfold absorbing.
      destruct (connected s);
        [destruct (positions_block s w) as [[ps |] w2] eqn:Hblock |];
        intros H; injection H as <- _ _; [| constructor | constructor].
      exact (Hdata w ps w2 Hblock). }
    exact (legible_run_bot_cycle now WATCHLIST OPTIONS_WATCHLIST
             MAX_DRAWDOWN_PCT WASH_SALE_DAYS (sdk_broker s) others Hbook
             m [] r m' tr (List.Forall_nil _) Hrun).
  - intros ticker m m1 e1 w' Hconn Hcheck Hquote.
    rewrite (watch_no_price now MAX_DRAWDOWN_PCT WASH_SALE_DAYS (sdk_broker s)
               ticker m m1 e1 0%float w'
               [("Error getting market data for " ++ ticker)%string] Hcheck);
      [reflexivity | | reflexivity].
    simpl. unfold absorbing. rewrite Hconn, Hquote. reflexivity.
  - intros ticker m m1 e1 price w2 w' Hconn Hcheck Hquote Hprice Hbook.
    rewrite (watch_monitoring now MAX_DRAWDOWN_PCT WASH_SALE_DAYS
               (sdk_broker s) ticker m m1 e1 price w2 w' []
               ["Error getting positions"] [] Hcheck);
      [reflexivity | | exact Hprice | | exact Logic.I].
    + simpl. unfold absorbing. rewrite Hconn, Hquote. reflexivity.
    + simpl. unfold absorbing. rewrite Hconn, Hbook. reflexivity.
  - intros ticker m m1 e1 price w2 positions w3 p avg_cost qty divs w'
           Hconn Hcheck Hquote Hprice Hbook Hfind Htruthy Hread Hverdict
           Horder.
    destruct (now w') as [today w5] eqn:Hnow.
    rewrite (watch_sell now MAX_DRAWDOWN_PCT WASH_SALE_DAYS (sdk_broker s)
               ticker m m1 e1 price w2 w3 w' w5 [] []
               ["Error placing order"] positions p avg_cost qty divs false
               today Hcheck);
      [| | exact Hprice | | exact Hfind | exact Htruthy | exact Hread
       | exact Hverdict | | exact Hnow].
    + flatten_trace. reflexivity.
    + simpl. unfold absorbing. rewrite Hconn, Hquote. reflexivity.
    + simpl. unfold absorbing. rewrite Hconn, Hbook. reflexivity.
    + simpl. unfold absorbing. rewrite Hconn, Horder. reflexivity.
Qed.

Lemma failure_isolation_witness :
  (let '(r, _, tr) :=
     run_bot_cycle Scenario.clock ["SPY"; "QQQ"] ["SPY"] ten_percent 31
       [Scenario.broker] (Scenario.boot None Scenario.outage_quotes) in
   (r = Some tt /\ analyzed tr = ["SPY"; "QQQ"]) \/ (r = None /\ unreadable tr))
  /\ (exists m' tr,
         run_bot_cycle Scenario.clock ["QQQ"; "SPY"] ["SPY"] ten_percent 31
           [sdk_broker Scenario.flaky]
           (Scenario.boot None (Scenario.falling true))
         = (Some tt, m', tr)
         /\ analyzed tr = ["QQQ"; "SPY"])
  /\ watch Scenario.clock ten_percent 31 Scenario.broker "SPY"
       (Scenario.boot None Scenario.outage_quotes)
     = (Some tt, Scenario.boot None Scenario.outage_quotes,
        [LogAnalyzing "SPY"; BrokerLog "Error getting market data for SPY";
         MarketData "SPY" 0; LogNoPrice "SPY"])
  /\ watch Scenario.clock ten_percent 31 Scenario.broker "SPY"
       (Scenario.boot None Scenario.outage_positions)
     = (Some tt, Scenario.boot None Scenario.outage_positions,
        [LogAnalyzing "SPY"; MarketData "SPY" 89;
         BrokerLog "Error getting positions"; Positions [];
         LogMonitoring "SPY" 89])
  /\ watch Scenario.clock ten_percent 31 Scenario.broker "SPY"
       (Scenario.boot None Scenario.outage_orders)
     = (Some tt, Scenario.boot None Scenario.outage_orders,
        [LogAnalyzing "SPY"; MarketData "SPY" 89;
         Positions [Scenario.holding "SPY" 100 (PyInt 10) 0];
         BrokerLog "Error placing order"; Order "SPY" SELL 10 false]).
Proof.
  destruct (failure_isolation (Contract := unit) Scenario.clock
              ["SPY"; "QQQ"] ["SPY"] ten_percent 31 Scenario.sdk [])
    as (Hcycle & _ & Hquote & Hbook & Horder).
  split; [| split; [| split; [| split]]].
  - destruct (run_bot_cycle Scenario.clock ["SPY"; "QQQ"] ["SPY"] ten_percent
                31 [Scenario.broker]
                (Scenario.boot None Scenario.outage_quotes))
      as [[r m'] tr] eqn:Hrun.
    exact (Hcycle _ r m' tr Hrun).
  - apply (proj1 (proj2 (failure_isolation (Contract := unit) Scenario.clock
                           ["QQQ"; "SPY"] ["SPY"] ten_percent 31
                           Scenario.flaky []))).
    intros w positions w' Hblock. injection Hblock as <- _.
    repeat constructor. eexists. reflexivity.
  - exact (Hquote "SPY" (Scenario.boot None Scenario.outage_quotes)
             (Scenario.boot None Scenario.outage_quotes) []
             Scenario.outage_quotes eq_refl eq_refl eq_refl).
  - exact (Hbook "SPY" (Scenario.boot None Scenario.outage_positions)
             (Scenario.boot None Scenario.outage_positions) [] 89%float
             Scenario.outage_positions Scenario.outage_positions
             eq_refl eq_refl eq_refl eq_refl eq_refl).
  - exact (Horder "SPY" (Scenario.boot None Scenario.outage_orders)
             (Scenario.boot None Scenario.outage_orders) [] 89%float
             Scenario.outage_orders
             [Scenario.holding "SPY" 100 (PyInt 10) 0] Scenario.outage_orders
             (Scenario.holding "SPY" 100 (PyInt 10) 0) 100%float 10 0%float
             Scenario.outage_orders
             eq_refl eq_refl eq_refl eq_refl eq_refl eq_refl eq_refl eq_refl
             eq_refl eq_refl).
Defined.

(** C9. A position record matches a ticker when the two symbols are equal
    after upper-casing, while the ledger is looked up under the ticker as it
    is spelled: an entry under another spelling does not restrict it.  So
    with SPY sold ten days ago and ["spy"] on the watchlist, the check
    restricts ["SPY"] but lets ["spy"] through, the position of SPY is found
    for ["spy"], sold, and recorded under ["spy"] next to the old entry. *)
Theorem symbol_case_mismatch :
  (forall ticker positions p,
      find_position ticker positions = Some p ->
      upper (default EmptyString (symbol p)) = upper ticker)
  /\ (forall ticker p rest,
         upper (default EmptyString (symbol p)) = upper ticker ->
         find_position ticker (p :: rest) = Some p)
  /\ (forall (W : Type) (now : W -> date * W) (WASH_SALE_DAYS : Z)
             (ticker : string) (m : machine W),
         state m !! ticker = None ->
         check_wash_sale now WASH_SALE_DAYS ticker m = (Some false, m, []))
  /\ (let m := Scenario.after_sale 19990 (Scenario.falling true) in
      let spy := Scenario.holding "SPY" 100 (PyInt 10) 0 in
      "spy" <> "SPY" /\ upper "spy" = upper "SPY"
      /\ fst (fst (check_wash_sale Scenario.clock 31 "SPY" m)) = Some true
      /\ check_wash_sale Scenario.clock 31 "spy" m = (Some false, m, [])
      /\ find_position "spy" [spy] = Some spy
      /\ exists m',
          watch Scenario.clock ten_percent 31 Scenario.broker "spy" m
          = (Some tt, m',
             [LogAnalyzing "spy"; MarketData "spy" 89; Positions [spy];
              Order "spy" SELL 10 true; Saved (state m'); LogCooldown "spy"])
          /\ state m' !! "SPY" = Some 19990
          /\ state m' !! "spy" = Some 20000).
Proof.
  split; [| split; [| split]].
  - intros ticker positions p Hfind.
    now apply (find_position_matches ticker positions p).
  - apply find_position_head.
  - intros W now WASH_SALE_DAYS ticker m. apply check_wash_sale_absent.
  - repeat split; try reflexivity; try discriminate.
    exists (Machine (<["spy" := 20000]> {["SPY" := 19990]})
                    (Some (<["spy" := 20000]> {["SPY" := 19990]}))
                    (Scenario.falling true)).
    repeat split.
Qed.

Lemma symbol_case_mismatch_witness :
  upper (default EmptyString (symbol (Scenario.holding "SPY" 100 (PyInt 10) 0)))
  = upper "Spy"
  /\ find_position "Spy" [Scenario.holding "SPY" 100 (PyInt 10) 0; Scenario.bare "QQQ"]
     = Some (Scenario.holding "SPY" 100 (PyInt 10) 0)
  /\ check_wash_sale Scenario.clock 31 "Spy"
       (Scenario.after_sale 19990 (Scenario.falling true))
     = (Some false, Scenario.after_sale 19990 (Scenario.falling true), []).
Proof.
  destruct symbol_case_mismatch as (Hmatch & Hhead & Hexact & _).
  split; [| split].
  - apply (Hmatch "Spy" [Scenario.holding "SPY" 100 (PyInt 10) 0; Scenario.bare "QQQ"]).
    reflexivity.
  - apply Hhead. reflexivity.
  - apply Hexact. reflexivity.
Defined.

(** C10. A key that a position record lacks is read as the number 0 and
    raises nothing: the average cost, the quantity and the dividends of a
    record that has only a symbol are all zero, and the record is evaluated
    with these values: the verdict is that of cost 0 and dividends 0, and a
    sale is an order for quantity 0. *)
Theorem missing_fields_read_as_zero {W Contract : Type} (now : W -> date * W)
    (MAX_DRAWDOWN_PCT : float) (WASH_SALE_DAYS : Z) :
  (forall sym a q d others,
      read_position (Position sym None q d others)
      = read_position (Position sym (Some (PyInt 0)) q d others)
      /\ read_position (Position sym a None d others)
         = read_position (Position sym a (Some (PyInt 0)) d others)
      /\ read_position (Position sym a q None others)
         = read_position (Position sym a q (Some (PyInt 0)) others))
  /\ py_float (PyInt 0) = Some 0%float /\ py_int (PyInt 0) = Some 0
  /\ (forall (broker : BrokerInterface W Contract) (ticker sym : string)
             (m m1 : machine W) (e1 : list event) (price : float)
             (w2 w3 : W) (logs2 logs3 : list string)
             (positions : list position),
         let p := Position (Some sym) None None None [] in
         check_wash_sale now WASH_SALE_DAYS ticker m = (Some false, m1, e1) ->
         get_market_data broker ticker (world m1) = (Some price, w2, logs2) ->
         (price =? 0)%float = false ->
         get_positions broker w2 = (Some positions, w3, logs3) ->
         find_position ticker positions = Some p ->
         read_position p = Some (0%float, 0, 0%float)
         /\ (analyze_erosion MAX_DRAWDOWN_PCT ticker price 0 0 = HOLD ->
             watch now MAX_DRAWDOWN_PCT WASH_SALE_DAYS broker ticker m
             = (Some tt, Machine (state m1) (file m1) w3,
                LogAnalyzing ticker :: e1 ++ map BrokerLog logs2
                  ++ MarketData ticker price :: map BrokerLog logs3
                  ++ [Positions positions; LogHold ticker]))
         /\ (analyze_erosion MAX_DRAWDOWN_PCT ticker price 0 0
             = SELL_CRITICAL ->
             forall success w4 logs4,
               place_order broker ticker SELL 0 w3 = (Some success, w4, logs4) ->
               exists m' pre post,
                 watch now MAX_DRAWDOWN_PCT WASH_SALE_DAYS broker ticker m
                 = (Some tt, m', pre ++ Order ticker SELL 0 success :: post))).
Proof.
  split; [apply read_position_absent |].
  split; [reflexivity | split; [reflexivity |]].
  intros broker ticker sym m m1 e1 price w2 w3 logs2 logs3 positions p
         Hcheck Hquote Hprice Hbook Hfind.
  split; [reflexivity | split].
  - intros Hverdict.
    apply (watch_hold now MAX_DRAWDOWN_PCT WASH_SALE_DAYS broker ticker
             m m1 e1 price w2 w3 logs2 logs3 positions p 0%float 0 0%float
             Hcheck Hquote Hprice Hbook Hfind eq_refl eq_refl Hverdict).
  - intros Hverdict success w4 logs4 Horder.
    destruct (now w4) as [today w5] eqn:Hnow.
    eexists _, _, _.
    apply (watch_sell now MAX_DRAWDOWN_PCT WASH_SALE_DAYS broker ticker
             m m1 e1 price w2 w3 w4 w5 logs2 logs3 logs4 positions p
             0%float 0 0%float success today Hcheck Hquote Hprice Hbook
             Hfind eq_refl eq_refl Hverdict Horder Hnow).
Qed.

Lemma missing_fields_read_as_zero_witness :
  read_position (Scenario.bare "SPY") = Some (0%float, 0, 0%float)
  /\ watch Scenario.clock ten_percent 31 Scenario.broker "SPY"
       (Scenario.boot None (Scenario.bare_at 89))
     = (Some tt, Scenario.boot None (Scenario.bare_at 89),
        [LogAnalyzing "SPY"; MarketData "SPY" 89;
         Positions [Scenario.bare "SPY"]; LogHold "SPY"])
  /\ (exists m' pre post,
         watch Scenario.clock ten_percent 31 Scenario.broker "SPY"
           (Scenario.boot None (Scenario.bare_at (-1)))
         = (Some tt, m', pre ++ Order "SPY" SELL 0 true :: post)).
Proof.
  destruct (missing_fields_read_as_zero (W := Scenario.world)
              (Contract := unit) Scenario.clock ten_percent 31)
    as (_ & _ & _ & Hbare).
  pose (held := Hbare Scenario.broker "SPY" "SPY"
                  (Scenario.boot None (Scenario.bare_at 89))
                  (Scenario.boot None (Scenario.bare_at 89)) [] 89%float
                  (Scenario.bare_at 89) (Scenario.bare_at 89) [] []
                  [Scenario.bare "SPY"]
                  eq_refl eq_refl eq_refl eq_refl eq_refl).
  pose (sunk := Hbare Scenario.broker "SPY" "SPY"
                  (Scenario.boot None (Scenario.bare_at (-1)))
                  (Scenario.boot None (Scenario.bare_at (-1))) []
                  (-1)%float (Scenario.bare_at (-1)) (Scenario.bare_at (-1))
                  [] [] [Scenario.bare "SPY"]
                  eq_refl eq_refl eq_refl eq_refl eq_refl).
  split; [exact (proj1 held) | split].
  - exact (proj1 (proj2 held) eq_refl).
  - exact (proj2 (proj2 sunk) eq_refl true (Scenario.bare_at (-1)) [] eq_refl).
Defined.

(** * Part IV: further properties *)

(** ** The paths of an evaluation *)

Section PathFacts.

Context {W Contract : Type}.
Variable now : W -> date * W.
Variable MAX_DRAWDOWN_PCT : float.
Variable WASH_SALE_DAYS : Z.

(** The check returns, and leaves at most one event. *)
Lemma check_wash_sale_returns (ticker : string) (m : machine W) :
  exists restricted m1 e1,
    check_wash_sale now WASH_SALE_DAYS ticker m = (Some restricted, m1, e1)
    /\ (e1 = []
        \/ (exists days, e1 = [LogWashSaleWarning ticker days])
        \/ e1 = [Saved (state m1)]).
Proof.
  cbv [check_wash_sale bind get_wash_log datetime_now].
  destruct (state m !! ticker) as [last |].
  - destruct (now (world m)) as [today w].
    destruct (today - last <? WASH_SALE_DAYS); eexists _, _, _; split;
      try reflexivity; simpl; eauto.
  - eexists _, _, _. split; [reflexivity | auto].
Qed.

(** Every run of the loop body is one of the paths. *)
Lemma watch_path_complete (broker : BrokerInterface W Contract)
    (ticker : string) (m : machine W) (r : option unit) (m' : machine W)
    (e : list event) :
  watch now MAX_DRAWDOWN_PCT WASH_SALE_DAYS broker ticker m = (r, m', e) ->
  watch_path now MAX_DRAWDOWN_PCT WASH_SALE_DAYS broker ticker m r m' e.
Proof.
  intros Hrun.
  destruct (check_wash_sale_returns ticker m) as (restricted & m1 & e1 & Hcheck & _).
  destruct restricted.
  { assert (Heq : watch now MAX_DRAWDOWN_PCT WASH_SALE_DAYS broker ticker m
                  = (Some tt, m1, LogAnalyzing ticker :: e1)).
    { cbv [watch bind emit ret]. rewrite Hcheck. flatten_trace. reflexivity. }
    rewrite Heq in Hrun. injection Hrun as <- <- <-.
    now apply path_restricted. }
  destruct (get_market_data broker ticker (world m1)) as [[[price |] w2] logs2]
    eqn:Hquote.
  2:{ assert (Heq : watch now MAX_DRAWDOWN_PCT WASH_SALE_DAYS broker ticker m
                    = (None, Machine (state m1) (file m1) w2,
                       LogAnalyzing ticker :: e1 ++ map BrokerLog logs2)).
      { cbv [watch bind emit broker_call]. rewrite Hcheck.
        cbn [world state file]. rewrite Hquote. flatten_trace. reflexivity. }
      rewrite Heq in Hrun. injection Hrun as <- <- <-.
      now apply path_quote_raised. }
  destruct (price =? 0)%float eqn:Hprice.
  { rewrite (watch_no_price now MAX_DRAWDOWN_PCT WASH_SALE_DAYS broker ticker
               m m1 e1 price w2 logs2 Hcheck Hquote Hprice) in Hrun.
    injection Hrun as <- <- <-. now apply path_no_price. }
  destruct (get_positions broker w2) as [[[positions |] w3] logs3] eqn:Hbook.
  2:{ assert (Heq : watch now MAX_DRAWDOWN_PCT WASH_SALE_DAYS broker ticker m
                    = (None, Machine (state m1) (file m1) w3,
                       LogAnalyzing ticker :: e1 ++ map BrokerLog logs2
                         ++ MarketData ticker price :: map BrokerLog logs3)).
      { cbv [watch bind emit broker_call]. rewrite Hcheck.
        cbn [world state file]. rewrite Hquote, Hprice.
        cbn [world state file]. rewrite Hbook. flatten_trace. reflexivity. }
      rewrite Heq in Hrun. injection Hrun as <- <- <-.
      now apply path_positions_raised with (price := price) (w2 := w2). }
  destruct (find_position ticker positions) as [p |] eqn:Hfind.
  2:{ rewrite (watch_monitoring now MAX_DRAWDOWN_PCT WASH_SALE_DAYS broker
                 ticker m m1 e1 price w2 w3 logs2 logs3 positions
                 Hcheck Hquote Hprice Hbook) in Hrun
        by now rewrite Hfind.
      injection Hrun as <- <- <-.
      apply path_monitoring with (w2 := w2); auto. now rewrite Hfind. }
  destruct (dict_truthy p) eqn:Htruthy.
  2:{ rewrite (watch_monitoring now MAX_DRAWDOWN_PCT WASH_SALE_DAYS broker
                 ticker m m1 e1 price w2 w3 logs2 logs3 positions
                 Hcheck Hquote Hprice Hbook) in Hrun
        by now rewrite Hfind.
      injection Hrun as <- <- <-.
      apply path_monitoring with (w2 := w2); auto. now rewrite Hfind. }
  destruct (read_position p) as [[[avg_cost qty] divs] |] eqn:Hread.
  2:{ rewrite (watch_unreadable now MAX_DRAWDOWN_PCT WASH_SALE_DAYS broker
                 ticker m m1 e1 price w2 w3 logs2 logs3 positions p
                 Hcheck Hquote Hprice Hbook Hfind Htruthy Hread) in Hrun.
      injection Hrun as <- <- <-.
      now apply path_unreadable with (w2 := w2) (p := p). }
  destruct (analyze_erosion MAX_DRAWDOWN_PCT ticker price avg_cost divs)
    eqn:Hverdict.
  { rewrite (watch_hold now MAX_DRAWDOWN_PCT WASH_SALE_DAYS broker ticker
               m m1 e1 price w2 w3 logs2 logs3 positions p avg_cost qty divs
               Hcheck Hquote Hprice Hbook Hfind Htruthy Hread Hverdict)
      in Hrun.
    injection Hrun as <- <- <-.
    eapply path_hold; eassumption. }
  destruct (place_order broker ticker SELL qty w3) as [[[success |] w4] logs4]
    eqn:Horder.
  2:{ assert (Heq : watch now MAX_DRAWDOWN_PCT WASH_SALE_DAYS broker ticker m
                    = (None, Machine (state m1) (file m1) w4,
                       LogAnalyzing ticker :: e1 ++ map BrokerLog logs2
                         ++ MarketData ticker price :: map BrokerLog logs3
                         ++ Positions positions :: map BrokerLog logs4)).
      { cbv [watch bind emit broker_call]. rewrite Hcheck.
        cbn [world state file]. rewrite Hquote, Hprice.
        cbn [world state file]. rewrite Hbook, Hfind, Htruthy, Hread, Hverdict.
        cbn [world state file]. rewrite Horder. flatten_trace. reflexivity. }
      rewrite Heq in Hrun. injection Hrun as <- <- <-.
      eapply path_order_raised; eassumption. }
  destruct (now w4) as [today w5] eqn:Hnow.
  rewrite (watch_sell now MAX_DRAWDOWN_PCT WASH_SALE_DAYS broker ticker
             m m1 e1 price w2 w3 w4 w5 logs2 logs3 logs4 positions p
             avg_cost qty divs success today Hcheck Hquote Hprice Hbook
             Hfind Htruthy Hread Hverdict Horder Hnow) in Hrun.
  injection Hrun as <- <- <-.
  eapply path_order; eassumption.
Qed.

End PathFacts.

(** ** Invariants of the cycle

    An assertion that survives every step that does not write the file, and
    the two writes (the pruning of an expired entry and the recording of a
    sale) for the tickers of the watchlist, holds after the cycle, returned
    or not. *)

Section Invariants.

Context {W Contract : Type}.
Variable now : W -> date * W.
Variable WATCHLIST : list string.
Variable OPTIONS_WATCHLIST : list string.
Variable MAX_DRAWDOWN_PCT : float.
Variable WASH_SALE_DAYS : Z.
Variable Inv : @assertion W.

Hypothesis Inv_quiet : forall m tr e w,
  Inv m tr -> Forall quiet e -> Inv (Machine (state m) (file m) w) (tr ++ e).
Hypothesis Inv_prune : forall m tr ticker w,
  In ticker WATCHLIST -> Inv m tr -> is_Some (state m !! ticker) ->
  Inv (Machine (delete ticker (state m)) (Some (delete ticker (state m))) w)
      (tr ++ [Saved (delete ticker (state m))]).
Hypothesis Inv_record : forall m tr ticker today w,
  In ticker WATCHLIST -> Inv m tr ->
  Inv (Machine (<[ticker := today]> (state m))
               (Some (<[ticker := today]> (state m))) w)
      (tr ++ [Saved (<[ticker := today]> (state m))]).

Lemma inv_emit (ev : event) :
  quiet ev -> triple Inv (emit ev) (fun _ => Inv).
Proof.
  intros Hq. apply triple_emit. intros [l f w] tr H.
  apply (Inv_quiet _ tr [ev] w H). now constructor.
Qed.

Lemma inv_ret {A : Type} (a : A) : triple Inv (ret a) (fun _ => Inv).
Proof. apply triple_ret with (Q := fun _ => Inv). Qed.

Lemma inv_broker_call {A : Type} (c : call A) (seen : A -> event) :
  (forall a, quiet (seen a)) ->
  triple Inv (broker_call c seen) (fun _ => Inv).
Proof.
  intros Hq. apply triple_broker_call. intros m tr r w logs H _.
  apply Inv_quiet; [exact H |].
  apply Forall_app; split; [apply quiet_broker_logs |].
  destruct r; repeat constructor. apply Hq.
Qed.

Lemma inv_check_wash_sale (ticker : string) :
  In ticker WATCHLIST ->
  triple Inv (check_wash_sale now WASH_SALE_DAYS ticker) (fun _ => Inv).
Proof.
  intros Hin m tr r m' e H Hrun.
  cbv [check_wash_sale bind get_wash_log datetime_now] in Hrun.
  destruct (state m !! ticker) as [last |] eqn:Hentry.
  - destruct (now (world m)) as [today w].
    destruct (today - last <? WASH_SALE_DAYS); run_step Hrun.
    + apply (Inv_quiet m tr _ w H). repeat constructor.
    + apply Inv_prune; [exact Hin | exact H | now rewrite Hentry].
  - run_step Hrun. rewrite app_nil_r. exact H.
Qed.

Lemma inv_record_loss_sale (ticker : string) :
  In ticker WATCHLIST ->
  triple Inv (record_loss_sale now ticker) (fun _ => Inv).
Proof.
  intros Hin m tr r m' e H Hrun.
  cbv [record_loss_sale bind datetime_now] in Hrun.
  destruct (now (world m)) as [today w]. run_step Hrun.
  now apply Inv_record.
Qed.

Lemma inv_watch (broker : BrokerInterface W Contract) (ticker : string) :
  In ticker WATCHLIST ->
  triple Inv (watch now MAX_DRAWDOWN_PCT WASH_SALE_DAYS broker ticker)
         (fun _ => Inv).
Proof.
  intros Hin. unfold watch.
  eapply triple_bind with (Q := fun _ => Inv);
    [now apply inv_emit | intros _ | auto].
  eapply triple_bind with (Q := fun _ => Inv);
    [now apply inv_check_wash_sale | intros restricted | auto].
  destruct restricted; [apply inv_ret |].
  eapply triple_bind with (Q := fun _ => Inv);
    [now apply inv_broker_call | intros price | auto].
  destruct (price =? 0)%float; [now apply inv_emit |].
  eapply triple_bind with (Q := fun _ => Inv);
    [now apply inv_broker_call | intros positions | auto].
  destruct (find_position ticker positions) as [p |]; [| now apply inv_emit].
  destruct (dict_truthy p); [| now apply inv_emit].
  destruct (read_position p) as [[[avg_cost qty] divs] |];
    [| now apply triple_raise].
  destruct (analyze_erosion _ _ _ _ _); [now apply inv_emit |].
  eapply triple_bind with (Q := fun _ => Inv);
    [now apply inv_broker_call | intros success | auto].
  destruct success; [| apply inv_ret].
  eapply triple_bind with (Q := fun _ => Inv);
    [now apply inv_record_loss_sale | intros _; now apply inv_emit | auto].
Qed.

Lemma inv_watch_options (broker : BrokerInterface W Contract)
    (ticker : string) :
  triple Inv (watch_options broker ticker) (fun _ => Inv).
Proof.
  unfold watch_options.
  eapply triple_bind with (Q := fun _ => Inv);
    [now apply inv_emit | intros _ | auto].
  eapply triple_bind with (Q := fun _ => Inv);
    [now apply inv_broker_call | intros price | auto].
  destruct (0 <? price)%float; [| apply inv_ret].
  eapply triple_bind with (Q := fun _ => Inv);
    [now apply inv_broker_call | intros chain | auto].
  eapply triple_bind with (Q := fun _ => Inv); [| | auto].
  - unfold analyze_options_opportunity. destruct chain.
    + apply inv_ret.
    + eapply triple_bind with (Q := fun _ => Inv);
        [now apply inv_emit | intros _ | auto].
      apply inv_ret.
  - intros [? |]; [now apply inv_emit | apply inv_ret].
Qed.

Lemma inv_for_each_in {A : Type} (body : A -> M unit) (items : list A) :
  (forall x, In x items -> triple Inv (body x) (fun _ => Inv)) ->
  triple Inv (for_each body items) (fun _ => Inv).
Proof.
  induction items as [| x rest IHrest]; intros Hbody; simpl.
  - apply inv_ret.
  - eapply triple_bind with (Q := fun _ => Inv);
      [apply Hbody; now left | intros ? | auto].
    apply IHrest. intros y Hy. apply Hbody. now right.
Qed.

Lemma inv_run_bot_cycle (brokers : list (BrokerInterface W Contract)) :
  triple Inv
         (run_bot_cycle now WATCHLIST OPTIONS_WATCHLIST MAX_DRAWDOWN_PCT
            WASH_SALE_DAYS brokers)
         (fun _ => Inv).
Proof.
  unfold run_bot_cycle. destruct brokers as [| broker others].
  - now apply inv_emit.
  - eapply triple_bind with (Q := fun _ => Inv); [| intros _ | auto].
    + apply inv_for_each_in. intros ticker Hin. now apply inv_watch.
    + eapply triple_bind with (Q := fun _ => Inv);
        [| intros _; now apply inv_emit | auto].
      apply inv_for_each_in. intros ticker _. apply inv_watch_options.
Qed.

End Invariants.

(** ** The file and the memory *)

Lemma written_app (before : option ledger) (tr e : list event) :
  written before (tr ++ e) = written (written before tr) e.
Proof. apply fold_left_app. Qed.

Lemma written_quiet (before : option ledger) (e : list event) :
  Forall quiet e -> written before e = before.
Proof.
  intros Hq. revert before. induction Hq as [| ev e Hev _ IH]; intros before.
  - reflexivity.
  - simpl. destruct ev; try apply IH. destruct Hev.
Qed.

Lemma written_from (before : option ledger) (tr : list event) :
  written before tr
  = match written None tr with
    | Some l => Some l
    | None => before
    end.
Proof.
  revert before. induction tr as [| ev tr IH]; intros before; [reflexivity |].
  simpl. destruct ev; try apply IH.
  rewrite (IH (Some wash_sale_log)).
  now destruct (written None tr).
Qed.

(** X1. Where the cycle leaves the ledger.  After a cycle, returned or
    aborted, with any broker, the ledger file holds the ledger of the last
    write of the cycle (its content of before when the cycle wrote
    nothing), and so does the memory: the memory never runs ahead of the
    file by a change that was not saved. *)
Theorem ledger_follows_writes {W Contract : Type} (now : W -> date * W)
    (WATCHLIST OPTIONS_WATCHLIST : list string) (MAX_DRAWDOWN_PCT : float)
    (WASH_SALE_DAYS : Z) (brokers : list (BrokerInterface W Contract))
    (m : machine W) :
  let '(_, m', tr) :=
    run_bot_cycle now WATCHLIST OPTIONS_WATCHLIST MAX_DRAWDOWN_PCT
      WASH_SALE_DAYS brokers m in
  file m' = written (file m) tr
  /\ state m' = default (state m) (written None tr).
Proof.
  destruct (run_bot_cycle now WATCHLIST OPTIONS_WATCHLIST MAX_DRAWDOWN_PCT
              WASH_SALE_DAYS brokers m) as [[r m'] tr] eqn:Hrun.
  pose (Inv := fun (m1 : machine W) (tr1 : list event) =>
                 file m1 = written (file m) tr1
                 /\ state m1 = default (state m) (written None tr1)).
  apply (inv_run_bot_cycle now WATCHLIST OPTIONS_WATCHLIST MAX_DRAWDOWN_PCT
           WASH_SALE_DAYS Inv) with (m := m) (tr := []) (r := r) (e := tr)
           (brokers := brokers); try exact Hrun; unfold Inv.
  - intros m1 tr1 e w [Hfile Hstate] Hq. simpl.
    rewrite !written_app, !(written_quiet _ e Hq). now split.
  - intros m1 tr1 ticker w _ _ _. simpl. rewrite !written_app. now split.
  - intros m1 tr1 ticker today w _ _. simpl. rewrite !written_app. now split.
  - now split.
Qed.

Lemma durable_after_cycle {W Contract : Type} (now : W -> date * W)
    (WATCHLIST OPTIONS_WATCHLIST : list string) (MAX_DRAWDOWN_PCT : float)
    (WASH_SALE_DAYS : Z) (brokers : list (BrokerInterface W Contract))
    (m : machine W) :
  durable m ->
  durable (snd (fst (run_bot_cycle now WATCHLIST OPTIONS_WATCHLIST
                       MAX_DRAWDOWN_PCT WASH_SALE_DAYS brokers m))).
Proof.
  intros Hm.
  destruct (run_bot_cycle now WATCHLIST OPTIONS_WATCHLIST MAX_DRAWDOWN_PCT
              WASH_SALE_DAYS brokers m) as [[r m'] tr] eqn:Hrun.
  pose (Inv := fun (m1 : machine W) (tr1 : list event) => durable m1).
  simpl.
  apply (inv_run_bot_cycle now WATCHLIST OPTIONS_WATCHLIST MAX_DRAWDOWN_PCT
           WASH_SALE_DAYS Inv) with (m := m) (tr := []) (r := r) (e := tr)
           (brokers := brokers); try exact Hrun; unfold Inv, durable; auto.
Qed.

Section Schedule.

Context {W Contract : Type}.
Variable now : W -> date * W.
Variable sleep : Z -> W -> W.
Variable WATCHLIST : list string.
Variable OPTIONS_WATCHLIST : list string.
Variable MAX_DRAWDOWN_PCT : float.
Variable WASH_SALE_DAYS : Z.
Variable CYCLE_INTERVAL_SECONDS : Z.

(** A turn is its cycle, followed by one of two endings. *)
Lemma turn_cases (brokers : list (Sdk W Contract)) (m : machine W) :
  exists r m' tr seconds,
    run_bot_cycle now WATCHLIST OPTIONS_WATCHLIST MAX_DRAWDOWN_PCT
      WASH_SALE_DAYS (map sdk_broker brokers) m = (r, m', tr)
    /\ ((r = Some tt /\ 0 <= CYCLE_INTERVAL_SECONDS
         /\ seconds = CYCLE_INTERVAL_SECONDS
         /\ turn now sleep WATCHLIST OPTIONS_WATCHLIST MAX_DRAWDOWN_PCT
      WASH_SALE_DAYS CYCLE_INTERVAL_SECONDS brokers m
            = (asleep sleep seconds m', map InCycle tr ++ [Sleep seconds]))
        \/ ((r = None \/ CYCLE_INTERVAL_SECONDS < 0)
            /\ seconds = 60
            /\ turn now sleep WATCHLIST OPTIONS_WATCHLIST MAX_DRAWDOWN_PCT
      WASH_SALE_DAYS CYCLE_INTERVAL_SECONDS brokers m
               = (asleep sleep seconds m',
                  map InCycle tr ++ [LogCycleError; Sleep seconds]))).
Proof.
  unfold turn.
  destruct (run_bot_cycle now WATCHLIST OPTIONS_WATCHLIST MAX_DRAWDOWN_PCT
              WASH_SALE_DAYS (map sdk_broker brokers) m) as [[r m'] tr].
  destruct r as [[] |].
  - destruct (Z.ltb_spec CYCLE_INTERVAL_SECONDS 0) as [Hneg | Hpos].
    + exists (Some tt), m', tr, 60. split; [reflexivity | right]. auto.
    + exists (Some tt), m', tr, CYCLE_INTERVAL_SECONDS.
      split; [reflexivity | left]. auto.
  - exists None, m', tr, 60. split; [reflexivity | right]. auto.
Qed.

Lemma turn_durable (brokers : list (Sdk W Contract)) (m : machine W) :
  durable m -> durable (fst (turn now sleep WATCHLIST OPTIONS_WATCHLIST MAX_DRAWDOWN_PCT
      WASH_SALE_DAYS CYCLE_INTERVAL_SECONDS brokers m)).
Proof.
  intros Hm.
  destruct (turn_cases brokers m) as (r & m' & tr & seconds & Hrun & Hturn).
  pose proof (durable_after_cycle now WATCHLIST OPTIONS_WATCHLIST
                MAX_DRAWDOWN_PCT WASH_SALE_DAYS (map sdk_broker brokers) m Hm)
    as Hm'.
  rewrite Hrun in Hm'. simpl in Hm'.
  destruct Hturn as [(_ & _ & _ & ->) | (_ & _ & ->)]; exact Hm'.
Qed.

Lemma turns_durable (n : nat) (brokers : list (Sdk W Contract))
    (m : machine W) :
  durable m -> durable (fst (turns now sleep WATCHLIST OPTIONS_WATCHLIST MAX_DRAWDOWN_PCT
      WASH_SALE_DAYS CYCLE_INTERVAL_SECONDS n brokers m)).
Proof.
  revert m. induction n as [| n IH]; intros m Hm; [exact Hm |].
  simpl. pose proof (turn_durable brokers m Hm) as H1.
  destruct (turn now sleep WATCHLIST OPTIONS_WATCHLIST MAX_DRAWDOWN_PCT
      WASH_SALE_DAYS CYCLE_INTERVAL_SECONDS brokers m) as [m1 e1]. simpl in H1.
  specialize (IH m1 H1).
  destruct (turns now sleep WATCHLIST OPTIONS_WATCHLIST MAX_DRAWDOWN_PCT
      WASH_SALE_DAYS CYCLE_INTERVAL_SECONDS n brokers m1) as [m2 e2]. exact IH.
Qed.

End Schedule.

(** X2. A restart loses nothing.  However many turns of its loop [main] has
    made, with whatever brokers, failures and sleeps, the ledger in memory
    is what [load_state] would read from the ledger file at that moment. *)
Theorem restart_safe {W Contract : Type} (now : W -> date * W)
    (sleep : Z -> W -> W) (WATCHLIST OPTIONS_WATCHLIST : list string)
    (MAX_DRAWDOWN_PCT : float) (WASH_SALE_DAYS CYCLE_INTERVAL_SECONDS : Z)
    (n : nat) (schwab robinhood : BrokerSetup (W := W) (Contract := Contract))
    (file : option ledger) (w : W) :
  durable (fst (main now sleep WATCHLIST OPTIONS_WATCHLIST MAX_DRAWDOWN_PCT
                  WASH_SALE_DAYS CYCLE_INTERVAL_SECONDS n schwab robinhood
                  file w)).
Proof.
  unfold main, TradingBot_init.
  destruct (_initialize_brokers schwab robinhood w) as [[brokers w'] logs].
  assert (Hboot : durable (Machine (load_state file) file w')) by reflexivity.
  destruct brokers as [| b others]; [exact Hboot |].
  pose proof (turns_durable now sleep WATCHLIST OPTIONS_WATCHLIST
                MAX_DRAWDOWN_PCT WASH_SALE_DAYS CYCLE_INTERVAL_SECONDS n
                (b :: others) _ Hboot) as H.
  destruct (turns _ _ _ _ _ _ _ n (b :: others) _) as [m' tr]. exact H.
Qed.

(** ** The loop of [main] *)

Lemma sleeps_app (tr e : list main_event) :
  sleeps (tr ++ e) = sleeps tr ++ sleeps e.
Proof. apply omap_app. Qed.

Lemma sleeps_in_cycle (tr : list event) : sleeps (map InCycle tr) = [].
Proof. induction tr; [reflexivity | exact IHtr]. Qed.


Lemma cycle_events_app (tr e : list main_event) :
  cycle_events (tr ++ e) = cycle_events tr ++ cycle_events e.
Proof. apply omap_app. Qed.

Lemma cycle_events_in_cycle (tr : list event) :
  cycle_events (map InCycle tr) = tr.
Proof. induction tr; [reflexivity | simpl; unfold cycle_events in IHtr; cbn; now f_equal]. Qed.

Lemma cycle_events_startup (logs : list string) :
  cycle_events (map StartupLog logs) = [].
Proof. induction logs; [reflexivity | exact IHlogs]. Qed.


(** Where an error line stands in a trace that continues after a turn. *)
Lemma error_in_turn (body : list event) (ending rest pre post : list main_event) :
  ((exists seconds, ending = [Sleep seconds])
   \/ ending = [LogCycleError; Sleep 60]) ->
  (map InCycle body ++ ending) ++ rest = pre ++ LogCycleError :: post ->
  (exists post', post = Sleep 60 :: post')
  \/ exists pre', rest = pre' ++ LogCycleError :: post.
Proof.
  intros Hending. revert pre.
  induction body as [| ev body IH]; intros pre Heq.
  - simpl in Heq. destruct Hending as [[seconds ->] | ->]; simpl in Heq.
    + destruct pre as [| x pre]; simpl in Heq; [discriminate Heq |].
      injection Heq as _ Heq. right. now exists pre.
    + destruct pre as [| x pre]; simpl in Heq.
      * injection Heq as <-. left. eauto.
      * injection Heq as <- Heq.
        destruct pre as [| y pre]; simpl in Heq; [discriminate Heq |].
        injection Heq as <- Heq. right. now exists pre.
  - destruct pre as [| x pre]; simpl in Heq; [discriminate Heq |].
    injection Heq as _ Heq. exact (IH pre Heq).
Qed.

(** X3. The schedule of the loop.  In [n] turns of the loop of [main] the
    bot sleeps exactly [n] times, whatever the cycles did; every sleep
    lasts [CYCLE_INTERVAL_SECONDS] or 60 seconds; and every logged cycle
    error is followed at once by a sleep of 60 seconds, after which the
    loop goes on. *)
Theorem sleep_schedule {W Contract : Type} (now : W -> date * W)
    (sleep : Z -> W -> W) (WATCHLIST OPTIONS_WATCHLIST : list string)
    (MAX_DRAWDOWN_PCT : float) (WASH_SALE_DAYS CYCLE_INTERVAL_SECONDS : Z)
    (n : nat) (brokers : list (Sdk W Contract)) (m : machine W) :
  let tr := snd (turns now sleep WATCHLIST OPTIONS_WATCHLIST MAX_DRAWDOWN_PCT
                   WASH_SALE_DAYS CYCLE_INTERVAL_SECONDS n brokers m) in
  length (sleeps tr) = n
  /\ Forall (fun seconds => seconds = CYCLE_INTERVAL_SECONDS \/ seconds = 60)
            (sleeps tr)
  /\ forall pre post,
       tr = pre ++ LogCycleError :: post -> exists post', post = Sleep 60 :: post'.
Proof.
  cbv zeta. revert m. induction n as [| n IH]; intros m.
  - simpl. repeat split; [constructor |].
    intros [| x pre] post H; discriminate H.
  - simpl.
    destruct (turn_cases now sleep WATCHLIST OPTIONS_WATCHLIST
                MAX_DRAWDOWN_PCT WASH_SALE_DAYS CYCLE_INTERVAL_SECONDS
                brokers m) as (r & m' & tr & seconds & _ & Hturn).
    assert (Hshape : exists ending,
               turn now sleep WATCHLIST OPTIONS_WATCHLIST MAX_DRAWDOWN_PCT
                 WASH_SALE_DAYS CYCLE_INTERVAL_SECONDS brokers m
               = (asleep sleep seconds m', map InCycle tr ++ ending)
               /\ sleeps ending = [seconds]
               /\ (seconds = CYCLE_INTERVAL_SECONDS \/ seconds = 60)
               /\ ((exists s, ending = [Sleep s])
                   \/ ending = [LogCycleError; Sleep 60])).
    { destruct Hturn as [(_ & _ & Hs & ->) | (_ & Hs & ->)].
      - exists [Sleep seconds]. repeat split; eauto.
      - exists [LogCycleError; Sleep seconds]. subst seconds.
        repeat split; eauto. }
    destruct Hshape as (ending & -> & Hsleeps & Hseconds & Hending).
    specialize (IH (asleep sleep seconds m')).
    destruct (turns now sleep WATCHLIST OPTIONS_WATCHLIST MAX_DRAWDOWN_PCT
                WASH_SALE_DAYS CYCLE_INTERVAL_SECONDS n brokers
                (asleep sleep seconds m')) as [m2 e2].
    simpl in IH |- *. destruct IH as (Hlen & Hall & Herr).
    rewrite !sleeps_app, sleeps_in_cycle, Hsleeps. simpl.
    split; [now rewrite Hlen | split; [now constructor |]].
    intros pre post Heq.
    destruct (error_in_turn tr ending e2 pre post Hending Heq)
      as [Hnext | [pre' Hrest]]; [exact Hnext |].
    exact (Herr pre' post Hrest).
Qed.

(** ** Start-up *)

(** X4. What [connect] reports.  For both brokers, [connect] returns true
    exactly when it leaves the broker connected, it logs exactly one line,
    and it leaves the SDK behind the broker as it was. *)
Theorem connect_reports_connection {W Contract : Type}
    (c : Credentials (W := W)) (s : Sdk W Contract) (w : W) :
  (let '(ok, s', _, logs) := SchwabBroker_connect c (new_broker s) w in
   connected s' = ok /\ length logs = 1%nat
   /\ quote_block s' = quote_block s /\ positions_block s' = positions_block s
   /\ chain_block s' = chain_block s /\ order_block s' = order_block s)
  /\ (let '(ok, s', _, logs) := RobinhoodBroker_connect c (new_broker s) w in
      connected s' = ok /\ length logs = 1%nat
      /\ quote_block s' = quote_block s /\ positions_block s' = positions_block s
      /\ chain_block s' = chain_block s /\ order_block s' = order_block s).
Proof.
  unfold SchwabBroker_connect, RobinhoodBroker_connect.
  destruct (importable c); simpl; [| now repeat split].
  destruct (blank (identity c) || blank (secret c))%bool; [now repeat split |].
  destruct (sdk_login c w) as [[[|] |] w']; now repeat split.
Qed.

(** X5. No credentials, no log-in.  When the SDK library is missing, or the
    key or user name is empty, or the secret or password is empty,
    [connect] of either broker returns false without calling the SDK: the
    world and the broker are as before, and one error is logged. *)
Theorem connect_needs_credentials {W Contract : Type}
    (c : Credentials (W := W)) (s : Sdk W Contract) (w : W) :
  importable c = false \/ identity c = EmptyString \/ secret c = EmptyString ->
  (exists msg, SchwabBroker_connect c s w = (false, s, w, [msg]))
  /\ (exists msg, RobinhoodBroker_connect c s w = (false, s, w, [msg])).
Proof.
  unfold SchwabBroker_connect, RobinhoodBroker_connect.
  intros [-> | H]; simpl; [eauto |].
  destruct (importable c); simpl; [| eauto].
  assert (Hblank : (blank (identity c) || blank (secret c))%bool = true).
  { destruct H as [-> | ->]; [reflexivity | apply orb_true_r]. }
  rewrite Hblank. eauto.
Qed.

Lemma connect_needs_credentials_witness :
  (exists msg,
      SchwabBroker_connect Drill.no_secret Scenario.sdk (Scenario.falling true)
      = (false, Scenario.sdk, Scenario.falling true, [msg]))
  /\ (exists msg,
         RobinhoodBroker_connect Drill.no_secret Scenario.sdk
           (Scenario.falling true)
         = (false, Scenario.sdk, Scenario.falling true, [msg])).
Proof.
  apply (connect_needs_credentials Drill.no_secret Scenario.sdk
           (Scenario.falling true)).
  right. right. reflexivity.
Defined.

(** The lines that [connect] can log are not the warning of
    [_initialize_brokers]. *)
Lemma connect_lines {W Contract : Type} (c : Credentials (W := W))
    (s : Sdk W Contract) (w : W) :
  (let '(ok, s', _, logs) := SchwabBroker_connect c s w in
   (ok = true -> connected s' = true)
   /\ ~ In "No brokers connected. Please configure at least one broker." logs)
  /\ (let '(ok, s', _, logs) := RobinhoodBroker_connect c s w in
      (ok = true -> connected s' = true)
      /\ ~ In "No brokers connected. Please configure at least one broker." logs).
Proof.
  unfold SchwabBroker_connect, RobinhoodBroker_connect.
  assert (Hone : forall msg : string,
             msg <> "No brokers connected. Please configure at least one broker."
             -> ~ In "No brokers connected. Please configure at least one broker."
                     [msg]).
  { intros msg Hneq [Heq | []]. now apply Hneq. }
  destruct (importable c); simpl;
    [| split; (split; [discriminate | apply Hone; discriminate])].
  destruct (blank (identity c) || blank (secret c))%bool;
    [split; (split; [discriminate | apply Hone; discriminate]) |].
  destruct (sdk_login c w) as [[[|] |] w'];
    split; (split; [try discriminate; reflexivity | apply Hone; discriminate]).
Qed.

(** X6. The brokers of the bot.  [_initialize_brokers] keeps at most two
    brokers, every one of them connected; it logs its warning exactly when
    it keeps none; and a broker that is not enabled is not contacted: with
    both disabled the world is untouched. *)
Theorem initialized_brokers_are_connected {W Contract : Type}
    (schwab robinhood : BrokerSetup (W := W) (Contract := Contract)) (w : W) :
  let '(brokers, w', logs) := _initialize_brokers schwab robinhood w in
  Forall (fun b => connected b = true) brokers
  /\ (length brokers <= 2)%nat
  /\ (brokers = []
      <-> In "No brokers connected. Please configure at least one broker." logs)
  /\ (enabled schwab = false -> enabled robinhood = false ->
      brokers = [] /\ w' = w).
Proof.
  unfold _initialize_brokers.
  destruct (enabled schwab).
  - pose proof (proj1 (connect_lines (credentials schwab)
                         (new_broker (sdk_of schwab)) w)) as H1.
    destruct (SchwabBroker_connect (credentials schwab)
                (new_broker (sdk_of schwab)) w) as [[[ok1 b1] w1] logs1].
    destruct H1 as [Hc1 Hl1].
    destruct (enabled robinhood).
    + pose proof (proj2 (connect_lines (credentials robinhood)
                           (new_broker (sdk_of robinhood)) w1)) as H2.
      destruct (RobinhoodBroker_connect (credentials robinhood)
                  (new_broker (sdk_of robinhood)) w1) as [[[ok2 b2] w2] logs2].
      destruct H2 as [Hc2 Hl2].
      destruct ok1, ok2; simpl; repeat split; auto; try discriminate;
        try lia; rewrite ?app_nil_r, ?in_app_iff; simpl; try tauto;
        intros _; rewrite in_app_iff; simpl; auto.
    + destruct ok1; simpl; repeat split; auto; try discriminate; try lia;
        rewrite ?app_nil_r, ?in_app_iff; simpl; try tauto.
  - destruct (enabled robinhood).
    + pose proof (proj2 (connect_lines (credentials robinhood)
                           (new_broker (sdk_of robinhood)) w)) as H2.
      destruct (RobinhoodBroker_connect (credentials robinhood)
                  (new_broker (sdk_of robinhood)) w) as [[[ok2 b2] w2] logs2].
      destruct H2 as [Hc2 Hl2].
      destruct ok2; simpl; repeat split; auto; try discriminate; try lia;
        rewrite ?app_nil_r, ?in_app_iff; simpl; try tauto.
    + simpl. repeat split; auto; lia.
Qed.



Lemma turns_first {W Contract : Type} (now : W -> date * W)
    (sleep : Z -> W -> W) (WATCHLIST OPTIONS_WATCHLIST : list string)
    (MAX_DRAWDOWN_PCT : float) (WASH_SALE_DAYS CYCLE_INTERVAL_SECONDS : Z)
    (n : nat) (b : Sdk W Contract) (others : list (Sdk W Contract))
    (m : machine W) :
  turns now sleep WATCHLIST OPTIONS_WATCHLIST MAX_DRAWDOWN_PCT WASH_SALE_DAYS
    CYCLE_INTERVAL_SECONDS n (b :: others) m
  = turns now sleep WATCHLIST OPTIONS_WATCHLIST MAX_DRAWDOWN_PCT WASH_SALE_DAYS
      CYCLE_INTERVAL_SECONDS n [b] m.
Proof.
  revert m. induction n as [| n IH]; intros m; [reflexivity |].
  simpl. change (turn now sleep WATCHLIST OPTIONS_WATCHLIST MAX_DRAWDOWN_PCT
                   WASH_SALE_DAYS CYCLE_INTERVAL_SECONDS (b :: others) m)
    with (turn now sleep WATCHLIST OPTIONS_WATCHLIST MAX_DRAWDOWN_PCT
            WASH_SALE_DAYS CYCLE_INTERVAL_SECONDS [b] m).
  destruct (turn now sleep WATCHLIST OPTIONS_WATCHLIST MAX_DRAWDOWN_PCT
              WASH_SALE_DAYS CYCLE_INTERVAL_SECONDS [b] m) as [m1 e1].
  now rewrite IH.
Qed.

(** X8. One broker serves.  When Schwab is enabled and connects, every
    cycle goes through Schwab: once Robinhood has logged in or failed to,
    its SDK is never called, so that two Robinhood settings with the same
    credentials give the same run of [main], whatever their SDKs would
    answer. *)
Theorem first_broker_serves {W Contract : Type} (now : W -> date * W)
    (sleep : Z -> W -> W) (WATCHLIST OPTIONS_WATCHLIST : list string)
    (MAX_DRAWDOWN_PCT : float) (WASH_SALE_DAYS CYCLE_INTERVAL_SECONDS : Z)
    (n : nat)
    (schwab robinhood robinhood' : BrokerSetup (W := W) (Contract := Contract))
    (file0 : option ledger) (w : W) :
  enabled schwab = true ->
  fst (fst (fst (SchwabBroker_connect (credentials schwab)
                   (new_broker (sdk_of schwab)) w))) = true ->
  enabled robinhood' = enabled robinhood ->
  credentials robinhood' = credentials robinhood ->
  main now sleep WATCHLIST OPTIONS_WATCHLIST MAX_DRAWDOWN_PCT WASH_SALE_DAYS
    CYCLE_INTERVAL_SECONDS n schwab robinhood' file0 w
  = main now sleep WATCHLIST OPTIONS_WATCHLIST MAX_DRAWDOWN_PCT WASH_SALE_DAYS
      CYCLE_INTERVAL_SECONDS n schwab robinhood file0 w.
Proof.
  intros Hon Hok Hsame Hcred.
  unfold main, TradingBot_init, _initialize_brokers.
  rewrite Hon, Hsame, Hcred.
  destruct (SchwabBroker_connect (credentials schwab)
              (new_broker (sdk_of schwab)) w) as [[[ok b] w1] logs1].
  simpl in Hok. subst ok.
  destruct (enabled robinhood); [| reflexivity].
  unfold RobinhoodBroker_connect.
  destruct (importable (credentials robinhood)); simpl; [| reflexivity].
  destruct (blank (identity (credentials robinhood))
            || blank (secret (credentials robinhood)))%bool; [reflexivity |].
  destruct (sdk_login (credentials robinhood) w1) as [[[|] |] w2];
    simpl; try reflexivity.
  rewrite (turns_first now sleep WATCHLIST OPTIONS_WATCHLIST MAX_DRAWDOWN_PCT
             WASH_SALE_DAYS CYCLE_INTERVAL_SECONDS n b
             [set_connected (new_broker (sdk_of robinhood'))]).
  rewrite (turns_first now sleep WATCHLIST OPTIONS_WATCHLIST MAX_DRAWDOWN_PCT
             WASH_SALE_DAYS CYCLE_INTERVAL_SECONDS n b
             [set_connected (new_broker (sdk_of robinhood))]).
  reflexivity.
Qed.

Lemma first_broker_serves_witness :
  main Scenario.clock Drill.nap ["SPY"] ["SPY"] ten_percent 31 900 2
    (Drill.setup true (Some true) Scenario.sdk)
    (Drill.setup true (Some true) Scenario.flaky)
    None (Scenario.falling true)
  = main Scenario.clock Drill.nap ["SPY"] ["SPY"] ten_percent 31 900 2
      (Drill.setup true (Some true) Scenario.sdk)
      (Drill.setup true (Some true) Scenario.sdk)
      None (Scenario.falling true).
Proof.
  apply (first_broker_serves Scenario.clock Drill.nap ["SPY"] ["SPY"]
           ten_percent 31 900 2
           (Drill.setup true (Some true) Scenario.sdk)
           (Drill.setup true (Some true) Scenario.sdk)
           (Drill.setup true (Some true) Scenario.flaky)
           None (Scenario.falling true));
    reflexivity.
Defined.



(** ** The traces of the two loops *)

Lemma plain_broker_logs (logs : list string) : Forall plain (map BrokerLog logs).
Proof. induction logs; simpl; constructor; simpl; auto. Qed.

Lemma analyzed_plain (e : list event) : Forall plain e -> analyzed e = [].
Proof.
  induction 1 as [| ev e Hev _ IH]; [reflexivity |].
  destruct ev; try exact IH. destruct Hev.
Qed.

Lemma order_tickers_plain (e : list event) :
  Forall plain e -> order_tickers e = [].
Proof.
  induction 1 as [| ev e Hev _ IH]; [reflexivity |].
  destruct ev; try exact IH. destruct Hev.
Qed.

Lemma order_tickers_app (tr e : list event) :
  order_tickers (tr ++ e) = order_tickers tr ++ order_tickers e.
Proof. apply omap_app. Qed.

Ltac plainly :=
  repeat first
    [ assumption
    | apply plain_broker_logs
    | apply List.Forall_nil
    | apply Forall_app; split
    | apply List.Forall_cons; [exact I |] ].

Lemma check_wash_sale_plain {W : Type} (now : W -> date * W)
    (WASH_SALE_DAYS : Z) (ticker : string) (m : machine W)
    (r : option bool) (m1 : machine W) (e1 : list event) :
  check_wash_sale now WASH_SALE_DAYS ticker m = (r, m1, e1) ->
  Forall plain e1.
Proof.
  intros Hrun.
  cbv [check_wash_sale bind get_wash_log datetime_now] in Hrun.
  destruct (state m !! ticker) as [last |].
  - destruct (now (world m)) as [today w].
    destruct (today - last <? WASH_SALE_DAYS); run_step Hrun; plainly.
  - run_step Hrun. plainly.
Qed.

(** The trace of one evaluation: its opening line, then events of which at
    most one is an order, for the ticker of the evaluation. *)
Lemma watch_trace_form {W Contract : Type} (now : W -> date * W)
    (MAX_DRAWDOWN_PCT : float) (WASH_SALE_DAYS : Z)
    (broker : BrokerInterface W Contract) (ticker : string) (m : machine W)
    (r : option unit) (m' : machine W) (e : list event) :
  watch now MAX_DRAWDOWN_PCT WASH_SALE_DAYS broker ticker m = (r, m', e) ->
  exists pre post,
    Forall plain pre /\ Forall plain post
    /\ (e = LogAnalyzing ticker :: pre
        \/ exists qty success,
             e = LogAnalyzing ticker :: pre ++ Order ticker SELL qty success :: post).
Proof.
  intros Hrun.
  destruct (watch_path_complete now MAX_DRAWDOWN_PCT WASH_SALE_DAYS broker
              ticker m r m' e Hrun)
    as [ m1 e1 Hcheck
       | m1 e1 w2 logs2 Hcheck _
       | m1 e1 price w2 logs2 Hcheck _ _
       | m1 e1 price w2 logs2 w3 logs3 Hcheck _ _ _
       | m1 e1 price w2 logs2 positions w3 logs3 Hcheck _ _ _ _
       | m1 e1 price w2 logs2 positions w3 logs3 p Hcheck _ _ _ _ _ _
       | m1 e1 price w2 logs2 positions w3 logs3 p avg_cost qty divs
           Hcheck _ _ _ _ _ _ _
       | m1 e1 price w2 logs2 positions w3 logs3 p avg_cost qty divs w4 logs4
           Hcheck _ _ _ _ _ _ _ _
       | m1 e1 price w2 logs2 positions w3 logs3 p avg_cost qty divs success
           w4 logs4 today w5 Hcheck _ _ _ _ _ _ _ _ _ ];
    pose proof (check_wash_sale_plain now WASH_SALE_DAYS ticker m _ m1 e1 Hcheck)
      as He1.
  1-8: eexists _, []; split; [| split; [constructor | left; reflexivity]];
       plainly.
  exists (e1 ++ map BrokerLog logs2
            ++ MarketData ticker price :: map BrokerLog logs3
            ++ Positions positions :: map BrokerLog logs4),
         (if success
          then [Saved (<[ticker := today]> (state m1)); LogCooldown ticker]
          else []).
  split; [plainly | split; [destruct success; plainly |]].
  right. exists qty, success. reflexivity.
Qed.

Lemma inert_plain (e : list event) : Forall inert e -> Forall plain e.
Proof.
  induction 1 as [| ev e Hev _ IH]; constructor; [now destruct ev | exact IH].
Qed.

Lemma inert_broker_logs (logs : list string) : Forall inert (map BrokerLog logs).
Proof. induction logs; simpl; constructor; simpl; auto. Qed.

Lemma watch_options_run {W Contract : Type}
    (broker : BrokerInterface W Contract) (ticker : string) (m : machine W)
    (r : option unit) (m' : machine W) (e : list event) :
  watch_options broker ticker m = (r, m', e) ->
  state m' = state m /\ file m' = file m /\ Forall inert e.
Proof.
  intros Hrun.
  cbv [watch_options bind emit broker_call analyze_options_opportunity ret]
    in Hrun.
  destruct (get_market_data broker ticker (world m)) as [[[price |] w] logs];
    cbn [world state file] in Hrun.
  - destruct (0 <? price)%float; cbn [world state file] in Hrun.
    + destruct (get_options_chain broker ticker w) as [[[chain |] w'] logs'];
        cbn [world state file] in Hrun.
      * destruct chain; run_step Hrun; repeat split;
          repeat first [ apply inert_broker_logs | apply List.Forall_nil
                       | apply Forall_app; split
                       | apply List.Forall_cons; [exact I |] ].
      * run_step Hrun; repeat split;
          repeat first [ apply inert_broker_logs | apply List.Forall_nil
                       | apply Forall_app; split
                       | apply List.Forall_cons; [exact I |] ].
    + run_step Hrun; repeat split;
        repeat first [ apply inert_broker_logs | apply List.Forall_nil
                     | apply Forall_app; split
                     | apply List.Forall_cons; [exact I |] ].
  - run_step Hrun; repeat split;
      repeat first [ apply inert_broker_logs | apply List.Forall_nil
                   | apply Forall_app; split
                   | apply List.Forall_cons; [exact I |] ].
Qed.

(** The trace of a loop is the traces of its turns, one after the other; the
    loop returns when every turn has run, and stops at the first that
    raises. *)
Lemma for_each_pieces {W A : Type} (body : A -> M (W := W) unit)
    (Q : A -> list event -> Prop) :
  (forall x m r m' e, body x m = (r, m', e) -> Q x e) ->
  forall items m r m' e,
    for_each body items m = (r, m', e) ->
    exists pieces,
      e = concat pieces
      /\ Forall2 Q (take (length pieces) items) pieces
      /\ (r = Some tt -> length pieces = length items).
Proof.
  intros Hbody. induction items as [| x rest IH]; intros m r m' e Hrun.
  - injection Hrun as <- <- <-. exists []. repeat split. constructor.
  - simpl in Hrun. unfold bind in Hrun.
    destruct (body x m) as [[[[] |] m1] e1] eqn:Hx.
    + destruct (for_each body rest m1) as [[r2 m2] e2] eqn:Hrest.
      injection Hrun as <- <- <-.
      destruct (IH m1 r2 m2 e2 Hrest) as (pieces & -> & Hall & Hlen).
      exists (e1 :: pieces). simpl. repeat split.
      * constructor; [exact (Hbody x m _ m1 e1 Hx) | exact Hall].
      * intros Hr. now rewrite (Hlen Hr).
    + injection Hrun as <- <- <-. exists [e1]. simpl.
      rewrite app_nil_r. repeat split; [| discriminate].
      constructor; [exact (Hbody x m _ m1 e1 Hx) | rewrite take_0; constructor].
Qed.

(** The cycle with a broker: the watchlist loop, then the options loop, then
    the closing line; an exception ends it where it is raised. *)
Lemma run_bot_cycle_phases {W Contract : Type} (now : W -> date * W)
    (WATCHLIST OPTIONS_WATCHLIST : list string) (MAX_DRAWDOWN_PCT : float)
    (WASH_SALE_DAYS : Z) (broker : BrokerInterface W Contract)
    (others : list (BrokerInterface W Contract))
    (m : machine W) (r : option unit) (m' : machine W) (tr : list event) :
  run_bot_cycle now WATCHLIST OPTIONS_WATCHLIST MAX_DRAWDOWN_PCT
    WASH_SALE_DAYS (broker :: others) m = (r, m', tr) ->
  exists r1 m1 e1,
    for_each (watch now MAX_DRAWDOWN_PCT WASH_SALE_DAYS broker) WATCHLIST m
    = (r1, m1, e1)
    /\ ((r1 = None /\ r = None /\ m' = m1 /\ tr = e1)
        \/ (r1 = Some tt
            /\ exists r2 e2,
                for_each (watch_options broker) OPTIONS_WATCHLIST m1
                = (r2, m', e2)
                /\ ((r2 = None /\ r = None /\ tr = e1 ++ e2)
                    \/ (r2 = Some tt /\ r = Some tt
                        /\ tr = e1 ++ e2 ++ [LogCycleComplete])))).
Proof.
  intros Hrun. unfold run_bot_cycle, bind, emit in Hrun.
  destruct (for_each (watch now MAX_DRAWDOWN_PCT WASH_SALE_DAYS broker)
              WATCHLIST m) as [[[[] |] m1] e1] eqn:H1.
  - destruct (for_each (watch_options broker) OPTIONS_WATCHLIST m1)
      as [[[[] |] m2] e2] eqn:H2; injection Hrun as <- <- <-.
    + exists (Some tt), m1, e1. split; [reflexivity | right].
      split; [reflexivity |]. exists (Some tt), e2.
      split; [exact H2 | right]. auto.
    + exists (Some tt), m1, e1. split; [reflexivity | right].
      split; [reflexivity |]. exists None, e2.
      split; [exact H2 | left]. auto.
  - injection Hrun as <- <- <-. exists None, m1, e1.
    split; [reflexivity | left]. auto.
Qed.

Lemma options_loop_run {W Contract : Type}
    (broker : BrokerInterface W Contract) (tickers : list string)
    (m : machine W) (r : option unit) (m' : machine W) (e : list event) :
  for_each (watch_options broker) tickers m = (r, m', e) ->
  state m' = state m /\ file m' = file m /\ Forall inert e.
Proof.
  revert m e. induction tickers as [| t rest IH]; intros m e Hrun.
  - injection Hrun as <- <- <-. repeat split. constructor.
  - simpl in Hrun. unfold bind in Hrun.
    destruct (watch_options broker t m) as [[[[] |] m1] e1] eqn:Ht;
      destruct (watch_options_run broker t m _ m1 e1 Ht) as (Hs & Hf & He).
    + destruct (for_each (watch_options broker) rest m1) as [[r2 m2] e2]
        eqn:Hrest.
      injection Hrun as <- <- <-.
      destruct (IH m1 e2 Hrest) as (Hs2 & Hf2 & He2).
      repeat split; [congruence | congruence | now apply Forall_app].
    + injection Hrun as <- <- <-. now repeat split.
Qed.

(** X10. The options loop only looks.  Whatever the broker answers, the
    options loop places no order, writes no file, changes no entry of the
    ledger and reports no opportunity: [analyze_options_opportunity]
    returns [None] on every chain. *)
Theorem options_loop_is_read_only {W Contract : Type}
    (broker : BrokerInterface W Contract) (tickers : list string)
    (m : machine W) :
  let '(_, m', e) := for_each (watch_options broker) tickers m in
  state m' = state m /\ file m' = file m
  /\ forall ev, In ev e ->
       match ev with
       | Order _ _ _ _ | Saved _ | LogOpportunity _ => False
       | _ => True
       end.
Proof.
  destruct (for_each (watch_options broker) tickers m) as [[r m'] e] eqn:Hrun.
  destruct (options_loop_run broker tickers m r m' e Hrun) as (Hs & Hf & He).
  repeat split; [exact Hs | exact Hf |].
  intros ev Hin. rewrite List.Forall_forall in He.
  specialize (He ev Hin). now destruct ev.
Qed.

Lemma plain_not_complete (e : list event) :
  Forall plain e -> ~ In LogCycleComplete e.
Proof.
  intros He Hin. rewrite List.Forall_forall in He. exact (He _ Hin).
Qed.

Lemma evaluation_facts (x : string) (e : list event) :
  evaluation_of x e ->
  analyzed e = [x]
  /\ ~ In LogCycleComplete e
  /\ (order_tickers e = [] \/ order_tickers e = [x]).
Proof.
  intros (pre & post & Hpre & Hpost & [-> | (qty & success & ->)]).
  - simpl. rewrite (analyzed_plain pre Hpre), (order_tickers_plain pre Hpre).
    repeat split; auto.
    intros [H | H]; [discriminate H | exact (plain_not_complete pre Hpre H)].
  - change (LogAnalyzing x :: pre ++ Order x SELL qty success :: post)
      with ([LogAnalyzing x] ++ pre ++ [Order x SELL qty success] ++ post).
    rewrite !analyzed_app, !order_tickers_app.
    rewrite (analyzed_plain pre Hpre), (order_tickers_plain pre Hpre),
      (analyzed_plain post Hpost), (order_tickers_plain post Hpost).
    repeat split; auto.
    rewrite !in_app_iff. intros [[H | []] | [H | [[H | []] | H]]];
      try discriminate H.
    + exact (plain_not_complete pre Hpre H).
    + exact (plain_not_complete post Hpost H).
Qed.

Lemma evaluations_analyzed (xs : list string) (pieces : list (list event)) :
  Forall2 evaluation_of xs pieces ->
  analyzed (concat pieces) = xs
  /\ ~ In LogCycleComplete (concat pieces)
  /\ order_tickers (concat pieces) `sublist_of` xs.
Proof.
  induction 1 as [| x e xs pieces He _ IH]; simpl.
  - repeat split; auto.
  - destruct IH as (Ha & Hc & Ho).
    destruct (evaluation_facts x e He) as (Ha1 & Hc1 & Ho1).
    rewrite analyzed_app, order_tickers_app, Ha1, Ha. repeat split.
    + rewrite in_app_iff. tauto.
    + destruct Ho1 as [-> | ->]; simpl.
      * now apply sublist_cons.
      * now apply sublist_skip.
Qed.

Section Traces.

Context {W Contract : Type}.
Variable now : W -> date * W.
Variable WATCHLIST : list string.
Variable OPTIONS_WATCHLIST : list string.
Variable MAX_DRAWDOWN_PCT : float.
Variable WASH_SALE_DAYS : Z.

(** The trace of a cycle with a broker: evaluations of a prefix of the
    watchlist, then inert events, then the closing line if the cycle
    returned. *)
Lemma run_bot_cycle_trace (broker : BrokerInterface W Contract)
    (others : list (BrokerInterface W Contract)) (m : machine W)
    (r : option unit) (m' : machine W) (tr : list event) :
  run_bot_cycle now WATCHLIST OPTIONS_WATCHLIST MAX_DRAWDOWN_PCT
    WASH_SALE_DAYS (broker :: others) m = (r, m', tr) ->
  exists pieces e2,
    Forall2 evaluation_of (take (length pieces) WATCHLIST) pieces
    /\ Forall inert e2
    /\ ((r = None /\ tr = concat pieces ++ e2)
        \/ (r = Some tt /\ length pieces = length WATCHLIST
            /\ tr = concat pieces ++ e2 ++ [LogCycleComplete])).
Proof.
  intros Hrun.
  destruct (run_bot_cycle_phases now WATCHLIST OPTIONS_WATCHLIST
              MAX_DRAWDOWN_PCT WASH_SALE_DAYS broker others m r m' tr Hrun)
    as (r1 & m1 & e1 & H1 & Hrest).
  destruct (for_each_pieces
              (watch now MAX_DRAWDOWN_PCT WASH_SALE_DAYS broker) evaluation_of
              (fun x m0 r0 m0' e0 =>
                 watch_trace_form now MAX_DRAWDOWN_PCT WASH_SALE_DAYS broker
                   x m0 r0 m0' e0)
              WATCHLIST m r1 m1 e1 H1) as (pieces & -> & Hall & Hlen).
  exists pieces.
  destruct Hrest as [(-> & -> & -> & ->) | (-> & r2 & e2 & H2 & Hend)].
  - exists []. split; [exact Hall | split; [constructor | left]].
    now rewrite app_nil_r.
  - exists e2.
    destruct (options_loop_run broker OPTIONS_WATCHLIST m1 r2 m' e2 H2)
      as (_ & _ & He2).
    split; [exact Hall | split; [exact He2 |]].
    destruct Hend as [(-> & -> & ->) | (-> & -> & ->)]; [left | right]; auto.
Qed.

End Traces.

(** X11. The order of the evaluations.  In a cycle with a broker, whatever
    the broker does, the tickers whose evaluation is started are a prefix
    of the watchlist, in its order and without repetition of a slot; the
    cycle logs its completion exactly when it returns, and then every
    ticker of the watchlist was started; after an exception no further
    ticker is started. *)
Theorem evaluation_order {W Contract : Type} (now : W -> date * W)
    (WATCHLIST OPTIONS_WATCHLIST : list string) (MAX_DRAWDOWN_PCT : float)
    (WASH_SALE_DAYS : Z) (broker : BrokerInterface W Contract)
    (others : list (BrokerInterface W Contract)) (m : machine W) :
  let '(r, _, tr) :=
    run_bot_cycle now WATCHLIST OPTIONS_WATCHLIST MAX_DRAWDOWN_PCT
      WASH_SALE_DAYS (broker :: others) m in
  analyzed tr `prefix_of` WATCHLIST
  /\ (r = Some tt <-> In LogCycleComplete tr)
  /\ (r = Some tt -> analyzed tr = WATCHLIST).
Proof.
  destruct (run_bot_cycle now WATCHLIST OPTIONS_WATCHLIST MAX_DRAWDOWN_PCT
              WASH_SALE_DAYS (broker :: others) m) as [[r m'] tr] eqn:Hrun.
  destruct (run_bot_cycle_trace now WATCHLIST OPTIONS_WATCHLIST
              MAX_DRAWDOWN_PCT WASH_SALE_DAYS broker others m r m' tr Hrun)
    as (pieces & e2 & Hall & He2 & Hend).
  destruct (evaluations_analyzed _ pieces Hall) as (Ha & Hc & _).
  pose proof (analyzed_plain e2 (inert_plain e2 He2)) as Ha2.
  pose proof (plain_not_complete e2 (inert_plain e2 He2)) as Hc2.
  destruct Hend as [(-> & ->) | (-> & Hlen & ->)].
  - rewrite analyzed_app, Ha, Ha2, app_nil_r.
    split; [apply prefix_take | split; [| discriminate]].
    split; [discriminate |]. rewrite in_app_iff. tauto.
  - rewrite !analyzed_app, Ha, Ha2, Hlen, firstn_all.
    change (analyzed [LogCycleComplete]) with (@nil string).
    rewrite !app_nil_r. repeat split; auto.
    intros _. rewrite !in_app_iff. right. right. now left.
Qed.

(** X12. At most one order per slot of the watchlist.  The tickers of the
    orders of a cycle, in the order in which they were placed, are a
    sub-list of the watchlist: every order is for a ticker of the
    watchlist, the orders follow the order of the watchlist, and no slot
    of the watchlist gets a second order in the same cycle. *)
Theorem orders_follow_watchlist {W Contract : Type} (now : W -> date * W)
    (WATCHLIST OPTIONS_WATCHLIST : list string) (MAX_DRAWDOWN_PCT : float)
    (WASH_SALE_DAYS : Z) (brokers : list (BrokerInterface W Contract))
    (m : machine W) :
  let '(_, _, tr) :=
    run_bot_cycle now WATCHLIST OPTIONS_WATCHLIST MAX_DRAWDOWN_PCT
      WASH_SALE_DAYS brokers m in
  order_tickers tr `sublist_of` WATCHLIST
  /\ (length (order_tickers tr) <= length WATCHLIST)%nat.
Proof.
  destruct (run_bot_cycle now WATCHLIST OPTIONS_WATCHLIST MAX_DRAWDOWN_PCT
              WASH_SALE_DAYS brokers m) as [[r m'] tr] eqn:Hrun.
  assert (Hsub : order_tickers tr `sublist_of` WATCHLIST).
  { destruct brokers as [| broker others].
    - injection Hrun as <- <- <-. apply sublist_nil_l.
    - destruct (run_bot_cycle_trace now WATCHLIST OPTIONS_WATCHLIST
                  MAX_DRAWDOWN_PCT WASH_SALE_DAYS broker others m r m' tr Hrun)
        as (pieces & e2 & Hall & He2 & Hend).
      destruct (evaluations_analyzed _ pieces Hall) as (_ & _ & Ho).
      pose proof (order_tickers_plain e2 (inert_plain e2 He2)) as Ho2.
      assert (Heq : order_tickers tr = order_tickers (concat pieces)).
      { destruct Hend as [(_ & ->) | (_ & _ & ->)];
          rewrite !order_tickers_app, Ho2; simpl; now rewrite ?app_nil_r. }
      rewrite Heq. etransitivity; [exact Ho | apply sublist_take]. }
  split; [exact Hsub | now apply sublist_length].
Qed.

(** ** Why an order is placed *)

Lemma justified_mono (MAX_DRAWDOWN_PCT : float) (tr before : list event)
    (ticker : string) (a : action) (qty : Z) :
  justified MAX_DRAWDOWN_PCT before ticker a qty ->
  justified MAX_DRAWDOWN_PCT (tr ++ before) ticker a qty.
Proof.
  intros (Ha & price & positions & p & avg_cost & divs & Hq & Hb & H).
  split; [exact Ha |]. exists price, positions, p, avg_cost, divs.
  rewrite !in_app_iff. tauto.
Qed.

Lemma no_order_in (e pre post : list event) (ticker : string) (a : action)
    (qty : Z) (success : bool) :
  Forall (fun ev => is_order ev = false) e ->
  e <> pre ++ Order ticker a qty success :: post.
Proof.
  intros He ->. apply Forall_app in He. destruct He as [_ He].
  inversion He as [| ? ? Hhead _]. discriminate Hhead.
Qed.

Lemma plain_is_no_order (e : list event) :
  Forall plain e -> Forall (fun ev => is_order ev = false) e.
Proof.
  induction 1 as [| ev e Hev _ IH]; constructor; [| exact IH].
  destruct ev; try reflexivity. destruct Hev.
Qed.

(** An order between two runs of plain events is found at one place only. *)
Lemma order_split (A B pre post : list event) (x y : event) :
  Forall plain A -> Forall plain B -> is_order y = true ->
  A ++ x :: B = pre ++ y :: post ->
  pre = A /\ x = y /\ post = B.
Proof.
  intros HA HB Hy. revert pre.
  induction HA as [| a A Ha _ IH]; intros pre Heq.
  - destruct pre as [| p pre]; simpl in Heq.
    + injection Heq as <- <-. auto.
    + injection Heq as <- ->. exfalso.
      apply Forall_app in HB. destruct HB as [_ HB].
      inversion HB as [| ? ? Hhead _]. destruct y; try discriminate Hy.
      exact Hhead.
  - destruct pre as [| p pre]; simpl in Heq.
    + injection Heq as -> _. exfalso. destruct y; try discriminate Hy.
      exact Ha.
    + injection Heq as <- Heq.
      destruct (IH pre Heq) as (-> & -> & ->). auto.
Qed.

Section Orders.

Context {W Contract : Type}.
Variable now : W -> date * W.
Variable WATCHLIST : list string.
Variable OPTIONS_WATCHLIST : list string.
Variable MAX_DRAWDOWN_PCT : float.
Variable WASH_SALE_DAYS : Z.

(** The order of an evaluation is justified by what the evaluation read
    before it. *)
Lemma watch_order_justified (broker : BrokerInterface W Contract)
    (ticker : string) (m : machine W) (r : option unit) (m' : machine W)
    (e : list event) :
  watch now MAX_DRAWDOWN_PCT WASH_SALE_DAYS broker ticker m = (r, m', e) ->
  forall pre t a qty success post,
    e = pre ++ Order t a qty success :: post ->
    t = ticker /\ justified MAX_DRAWDOWN_PCT pre t a qty.
Proof.
  intros Hrun pre t a qty' success' post Heq.
  destruct (watch_path_complete now MAX_DRAWDOWN_PCT WASH_SALE_DAYS broker
              ticker m r m' e Hrun)
    as [ m1 e1 Hcheck
       | m1 e1 w2 logs2 Hcheck _
       | m1 e1 price w2 logs2 Hcheck _ _
       | m1 e1 price w2 logs2 w3 logs3 Hcheck _ _ _
       | m1 e1 price w2 logs2 positions w3 logs3 Hcheck _ _ _ _
       | m1 e1 price w2 logs2 positions w3 logs3 p Hcheck _ _ _ _ _ _
       | m1 e1 price w2 logs2 positions w3 logs3 p avg_cost qty divs
           Hcheck _ _ _ _ _ _ _
       | m1 e1 price w2 logs2 positions w3 logs3 p avg_cost qty divs w4 logs4
           Hcheck _ _ _ _ _ _ _ _
       | m1 e1 price w2 logs2 positions w3 logs3 p avg_cost qty divs success
           w4 logs4 today w5 Hcheck _ Hprice _ Hfind Htruthy Hread Hverdict
           _ _ ];
    pose proof (check_wash_sale_plain now WASH_SALE_DAYS ticker m _ m1 e1 Hcheck)
      as He1.
  1-8: exfalso; destruct pre as [| x pre]; simpl in Heq;
       [discriminate Heq | injection Heq as _ Heq];
       revert Heq; apply no_order_in, plain_is_no_order; plainly.
  destruct pre as [| x pre]; simpl in Heq; [discriminate Heq |].
  injection Heq as <- Heq.
  apply order_split in Heq; [| plainly | destruct success; plainly | reflexivity].
  destruct Heq as (-> & Horder & _). injection Horder as <- <- <- _.
  split; [reflexivity |]. apply (justified_mono _ [LogAnalyzing ticker]).
  split; [reflexivity |]. exists price, positions, p, avg_cost, divs.
  rewrite !in_app_iff. simpl. rewrite !in_app_iff. simpl. tauto.
Qed.

Lemma orders_justified_app (tr e : list event) :
  orders_justified MAX_DRAWDOWN_PCT WATCHLIST tr ->
  (forall pre t a qty success post,
      e = pre ++ Order t a qty success :: post ->
      In t WATCHLIST /\ justified MAX_DRAWDOWN_PCT pre t a qty) ->
  orders_justified MAX_DRAWDOWN_PCT WATCHLIST (tr ++ e).
Proof.
  intros Htr He pre t a qty success post Heq.
  apply app_eq_app in Heq.
  destruct Heq as [l [[-> Heq] | [-> Heq]]].
  - destruct l as [| x l]; simpl in Heq.
    + destruct (He [] t a qty success post) as [Hin Hj];
        [now rewrite <- Heq |].
      split; [exact Hin |].
      pose proof (justified_mono MAX_DRAWDOWN_PCT pre [] t a qty Hj) as Hj'.
      now rewrite app_nil_r in Hj'.
    + injection Heq as <- ->.
      exact (Htr pre t a qty success l eq_refl).
  - destruct (He l t a qty success post Heq) as [Hin Hj].
    split; [exact Hin | now apply justified_mono].
Qed.

Lemma orders_justified_for_each (broker : BrokerInterface W Contract)
    (tickers : list string) :
  (forall t, In t tickers -> In t WATCHLIST) ->
  triple (fun (_ : machine W) tr =>
            orders_justified MAX_DRAWDOWN_PCT WATCHLIST tr)
         (for_each (watch now MAX_DRAWDOWN_PCT WASH_SALE_DAYS broker) tickers)
         (fun _ _ tr => orders_justified MAX_DRAWDOWN_PCT WATCHLIST tr).
Proof.
  induction tickers as [| x rest IH]; intros Hsub; simpl.
  - apply triple_ret
      with (Q := fun _ _ tr => orders_justified MAX_DRAWDOWN_PCT WATCHLIST tr).
  - eapply triple_bind
      with (Q := fun _ _ tr => orders_justified MAX_DRAWDOWN_PCT WATCHLIST tr).
    + intros m tr r m' e Htr Hrun. apply orders_justified_app; [exact Htr |].
      intros pre t a qty success post Heq.
      destruct (watch_order_justified broker x m r m' e Hrun
                  pre t a qty success post Heq) as [-> Hj].
      split; [apply Hsub; now left | exact Hj].
    + intros _. apply IH. intros t Ht. apply Hsub. now right.
    + auto.
Qed.

End Orders.

Lemma cycle_orders_justified {W Contract : Type} (now : W -> date * W)
    (WATCHLIST OPTIONS_WATCHLIST : list string) (MAX_DRAWDOWN_PCT : float)
    (WASH_SALE_DAYS : Z) (brokers : list (BrokerInterface W Contract))
    (m : machine W) (r : option unit) (m' : machine W) (tr : list event) :
  run_bot_cycle now WATCHLIST OPTIONS_WATCHLIST MAX_DRAWDOWN_PCT
    WASH_SALE_DAYS brokers m = (r, m', tr) ->
  orders_justified MAX_DRAWDOWN_PCT WATCHLIST tr.
Proof.
  intros Hrun.
  assert (Hnil : orders_justified MAX_DRAWDOWN_PCT WATCHLIST []).
  { intros [| x pre] t a qty success post H; discriminate H. }
  assert (Hcalm : forall e, Forall (fun ev => is_order ev = false) e ->
             forall pre t a qty success post,
               e = pre ++ Order t a qty success :: post ->
               In t WATCHLIST /\ justified MAX_DRAWDOWN_PCT pre t a qty).
  { intros e He pre t a qty success post Heq. exfalso.
    exact (no_order_in e pre post t a qty success He Heq). }
  destruct brokers as [| broker others].
  - injection Hrun as <- <- <-.
    apply (orders_justified_app WATCHLIST MAX_DRAWDOWN_PCT [] _ Hnil).
    apply Hcalm. repeat constructor.
  - destruct (run_bot_cycle_phases now WATCHLIST OPTIONS_WATCHLIST
                MAX_DRAWDOWN_PCT WASH_SALE_DAYS broker others m r m' tr Hrun)
      as (r1 & m1 & e1 & H1 & Hrest).
    pose proof (orders_justified_for_each now WATCHLIST MAX_DRAWDOWN_PCT
                  WASH_SALE_DAYS broker WATCHLIST (fun t Ht => Ht)
                  m [] r1 m1 e1 Hnil H1) as He1.
    simpl in He1.
    destruct Hrest as [(_ & _ & _ & ->) | (_ & r2 & e2 & H2 & Hend)];
      [exact He1 |].
    destruct (options_loop_run broker OPTIONS_WATCHLIST m1 r2 m' e2 H2)
      as (_ & _ & He2). apply inert_plain, plain_is_no_order in He2.
    destruct Hend as [(_ & _ & ->) | (_ & _ & ->)];
      apply orders_justified_app; try exact He1; apply Hcalm.
    + exact He2.
    + apply Forall_app. split; [exact He2 | repeat constructor].
Qed.

(** X13. No order without a reason.  Every order of a cycle, with any
    broker, sells: the bot never buys.  Its ticker is on the watchlist, and
    the trace before the order shows a quote of the ticker that is not
    zero, and positions whose first record for the ticker is non-empty and
    readable, has the quantity of the order once truncated, and gets the
    verdict SELL_CRITICAL at that quote. *)
Theorem orders_are_justified {W Contract : Type} (now : W -> date * W)
    (WATCHLIST OPTIONS_WATCHLIST : list string) (MAX_DRAWDOWN_PCT : float)
    (WASH_SALE_DAYS : Z) (brokers : list (BrokerInterface W Contract))
    (m : machine W) :
  let '(_, _, tr) :=
    run_bot_cycle now WATCHLIST OPTIONS_WATCHLIST MAX_DRAWDOWN_PCT
      WASH_SALE_DAYS brokers m in
  forall pre ticker a qty success post,
    tr = pre ++ Order ticker a qty success :: post ->
    In ticker WATCHLIST /\ justified MAX_DRAWDOWN_PCT pre ticker a qty.
Proof.
  destruct (run_bot_cycle now WATCHLIST OPTIONS_WATCHLIST MAX_DRAWDOWN_PCT
              WASH_SALE_DAYS brokers m) as [[r m'] tr] eqn:Hrun.
  exact (cycle_orders_justified now WATCHLIST OPTIONS_WATCHLIST
           MAX_DRAWDOWN_PCT WASH_SALE_DAYS brokers m r m' tr Hrun).
Qed.

Lemma orders_are_justified_witness :
  In "SPY" ["SPY"]
  /\ justified ten_percent
       [LogAnalyzing "SPY"; MarketData "SPY" 89;
        Positions [Scenario.holding "SPY" 100 (PyInt 10) 0]]
       "SPY" SELL 10.
Proof.
  pose proof (orders_are_justified Scenario.clock ["SPY"] [] ten_percent 31
                [Scenario.broker] (Scenario.boot None (Scenario.falling true)))
    as H.
  destruct (run_bot_cycle Scenario.clock ["SPY"] [] ten_percent 31
              [Scenario.broker] (Scenario.boot None (Scenario.falling true)))
    as [[r m'] tr] eqn:Hrun.
  vm_compute in Hrun. injection Hrun as <- <- <-.
  exact (H [LogAnalyzing "SPY"; MarketData "SPY" 89;
            Positions [Scenario.holding "SPY" 100 (PyInt 10) 0]]
           "SPY" SELL 10 true
           [Saved (<["SPY" := 20000]> ∅); LogCooldown "SPY"; LogCycleComplete]
           eq_refl).
Defined.

(** ** The restriction check and the cooldown *)

(** X14. The check keeps to its ticker.  [check_wash_sale] always returns;
    it leaves the entry of every other ticker as it was, and the entry of
    its own ticker is afterwards what it was or absent: the check never
    creates or moves an entry. *)
Theorem check_wash_sale_frame {W : Type} (now : W -> date * W)
    (WASH_SALE_DAYS : Z) (ticker : string) (m : machine W) :
  let '(r, m', _) := check_wash_sale now WASH_SALE_DAYS ticker m in
  is_Some r
  /\ (forall other, other <> ticker -> state m' !! other = state m !! other)
  /\ (state m' !! ticker = state m !! ticker \/ state m' !! ticker = None).
Proof.
  cbv [check_wash_sale bind get_wash_log datetime_now].
  destruct (state m !! ticker) as [last |] eqn:Hentry.
  - destruct (now (world m)) as [today w].
    destruct (today - last <? WASH_SALE_DAYS); simpl.
    + repeat split; eauto.
    + split; [eauto | split].
      * intros other Hne. now apply lookup_delete_ne.
      * right. apply lookup_delete_eq.
  - simpl. repeat split; eauto.
Qed.

(** X15. Restriction against the clock.  With the same ledger, a ticker that
    is restricted when the clock reads some day is restricted at every
    earlier reading too, also at readings before the date of the sale: a
    clock that is set back never frees a ticker early, and a ticker found
    free stays free at every later reading. *)
Theorem restriction_is_monotone {W : Type} (now1 now2 : W -> date * W)
    (WASH_SALE_DAYS : Z) (ticker : string) (m1 m2 : machine W) :
  state m1 = state m2 ->
  fst (now1 (world m1)) <= fst (now2 (world m2)) ->
  fst (fst (check_wash_sale now2 WASH_SALE_DAYS ticker m2)) = Some true ->
  fst (fst (check_wash_sale now1 WASH_SALE_DAYS ticker m1)) = Some true.
Proof.
  intros Hstate Hclock.
  cbv [check_wash_sale bind get_wash_log datetime_now].
  rewrite Hstate.
  destruct (state m2 !! ticker) as [last |]; [| discriminate].
  destruct (now1 (world m1)) as [d1 w1], (now2 (world m2)) as [d2 w2].
  simpl in Hclock.
  destruct (Z.ltb_spec (d2 - last) WASH_SALE_DAYS) as [H2 | H2];
    [| discriminate].
  intros _.
  destruct (Z.ltb_spec (d1 - last) WASH_SALE_DAYS) as [H1 | H1];
    [reflexivity | lia].
Qed.

Lemma restriction_is_monotone_witness :
  fst (fst (check_wash_sale (fun w => (19000, w)) 31 "SPY"
              (Scenario.after_sale 19990 (Scenario.falling true))))
  = Some true.
Proof.
  apply (restriction_is_monotone (fun w => (19000, w)) Scenario.clock 31 "SPY"
           (Scenario.after_sale 19990 (Scenario.falling true))
           (Scenario.after_sale 19990 (Scenario.falling true))).
  - reflexivity.
  - simpl. lia.
  - reflexivity.
Defined.

(** X16. The cycle keeps to the watchlist.  The ledger entry of a ticker
    that is not on the watchlist is the same after a cycle as before it,
    whatever the broker does and however the cycle ends: such an entry is
    never pruned, even when its cooldown is long over. *)
Theorem outside_watchlist_untouched {W Contract : Type} (now : W -> date * W)
    (WATCHLIST OPTIONS_WATCHLIST : list string) (MAX_DRAWDOWN_PCT : float)
    (WASH_SALE_DAYS : Z) (brokers : list (BrokerInterface W Contract))
    (m : machine W) (ticker : string) :
  ~ In ticker WATCHLIST ->
  state (snd (fst (run_bot_cycle now WATCHLIST OPTIONS_WATCHLIST
                     MAX_DRAWDOWN_PCT WASH_SALE_DAYS brokers m))) !! ticker
  = state m !! ticker.
Proof.
  intros Hout.
  destruct (run_bot_cycle now WATCHLIST OPTIONS_WATCHLIST MAX_DRAWDOWN_PCT
              WASH_SALE_DAYS brokers m) as [[r m'] tr] eqn:Hrun.
  pose (Inv := fun (m1 : machine W) (tr1 : list event) =>
                 state m1 !! ticker = state m !! ticker).
  simpl.
  apply (inv_run_bot_cycle now WATCHLIST OPTIONS_WATCHLIST MAX_DRAWDOWN_PCT
           WASH_SALE_DAYS Inv) with (m := m) (tr := []) (r := r) (e := tr)
           (brokers := brokers); try exact Hrun; unfold Inv; simpl; auto.
  - intros m1 tr1 t w Hin H _. rewrite lookup_delete_ne; [exact H |].
    intros ->. now apply Hout.
  - intros m1 tr1 t today w Hin H. rewrite lookup_insert_ne; [exact H |].
    intros ->. now apply Hout.
Qed.

Lemma outside_watchlist_untouched_witness :
  state (snd (fst (run_bot_cycle Scenario.clock ["QQQ"] ["QQQ"] ten_percent 31
                     [Scenario.broker]
                     (Scenario.after_sale 19000 (Scenario.falling true)))))
    !! "SPY"
  = state (Scenario.after_sale 19000 (Scenario.falling true)) !! "SPY".
Proof.
  apply (outside_watchlist_untouched Scenario.clock ["QQQ"] ["QQQ"]
           ten_percent 31 [Scenario.broker]
           (Scenario.after_sale 19000 (Scenario.falling true)) "SPY").
  intros [H | []]. discriminate H.
Defined.

(** X17. A restricted ticker costs no call.  While the entry of a ticker is
    within the window, its evaluation ends after the check: no method of
    the broker is called, so the result is the same with any broker; it
    consists of the opening line and the warning, and leaves the ledger and
    the file alone. *)
Theorem restricted_ticker_is_skipped {W Contract : Type} (now : W -> date * W)
    (MAX_DRAWDOWN_PCT : float) (WASH_SALE_DAYS : Z)
    (broker broker' : BrokerInterface W Contract) (ticker : string)
    (m : machine W) (last : date) :
  state m !! ticker = Some last ->
  fst (now (world m)) - last < WASH_SALE_DAYS ->
  watch now MAX_DRAWDOWN_PCT WASH_SALE_DAYS broker ticker m
  = watch now MAX_DRAWDOWN_PCT WASH_SALE_DAYS broker' ticker m
  /\ watch now MAX_DRAWDOWN_PCT WASH_SALE_DAYS broker ticker m
     = (Some tt, Machine (state m) (file m) (snd (now (world m))),
        [LogAnalyzing ticker;
         LogWashSaleWarning ticker
           (WASH_SALE_DAYS - (fst (now (world m)) - last))]).
Proof.
  intros Hentry Hcool.
  assert (Hrun : forall b : BrokerInterface W Contract,
             watch now MAX_DRAWDOWN_PCT WASH_SALE_DAYS b ticker m
             = (Some tt, Machine (state m) (file m) (snd (now (world m))),
                [LogAnalyzing ticker;
                 LogWashSaleWarning ticker
                   (WASH_SALE_DAYS - (fst (now (world m)) - last))])).
  { intros b. destruct (now (world m)) as [today w] eqn:Hnow.
    simpl in Hcool |- *. cbv [watch bind emit ret].
    rewrite (check_wash_sale_cooling now WASH_SALE_DAYS ticker m last today w
               Hentry Hnow Hcool).
    reflexivity. }
  split; [now rewrite !Hrun | apply Hrun].
Qed.

Lemma restricted_ticker_is_skipped_witness :
  let m := Scenario.after_sale 19990 (Scenario.falling true) in
  watch Scenario.clock ten_percent 31 Scenario.broker "SPY" m
  = watch Scenario.clock ten_percent 31 (sdk_broker Scenario.flaky) "SPY" m
  /\ watch Scenario.clock ten_percent 31 Scenario.broker "SPY" m
     = (Some tt,
        Machine (state m) (file m) (snd (Scenario.clock (world m))),
        [LogAnalyzing "SPY";
         LogWashSaleWarning "SPY"
           (31 - (fst (Scenario.clock (world m)) - 19990))]).
Proof.
  intros m.
  apply (restricted_ticker_is_skipped Scenario.clock ten_percent 31
           Scenario.broker (sdk_broker Scenario.flaky) "SPY" m 19990).
  - reflexivity.
  - simpl. lia.
Defined.

Lemma plain_not_order (e : list event) (ticker : string) (a : action)
    (qty : Z) (success : bool) :
  Forall plain e -> ~ In (Order ticker a qty success) e.
Proof.
  intros He Hin. rewrite List.Forall_forall in He. exact (He _ Hin).
Qed.

(** X18. A sale starts its cooldown.  When an evaluation has sold a ticker
    and the order was accepted, the ledger holds an entry for the ticker
    and the file holds that ledger; and every later evaluation of the
    ticker from that ledger, with any broker, while the clock reads a day
    less than [WASH_SALE_DAYS] after the entry, stops at the check: it
    logs the warning, calls no broker method and places no order. *)
Theorem sale_starts_cooldown {W Contract : Type} (now : W -> date * W)
    (MAX_DRAWDOWN_PCT : float) (WASH_SALE_DAYS : Z)
    (broker : BrokerInterface W Contract) (ticker : string) (m : machine W)
    (r : option unit) (m' : machine W) (e : list event) (qty : Z) :
  watch now MAX_DRAWDOWN_PCT WASH_SALE_DAYS broker ticker m = (r, m', e) ->
  In (Order ticker SELL qty true) e ->
  exists day,
    state m' !! ticker = Some day
    /\ file m' = Some (state m')
    /\ forall (broker2 : BrokerInterface W Contract) (m2 : machine W),
         state m2 = state m' ->
         fst (now (world m2)) - day < WASH_SALE_DAYS ->
         watch now MAX_DRAWDOWN_PCT WASH_SALE_DAYS broker2 ticker m2
         = (Some tt, Machine (state m2) (file m2) (snd (now (world m2))),
            [LogAnalyzing ticker;
             LogWashSaleWarning ticker
               (WASH_SALE_DAYS - (fst (now (world m2)) - day))]).
Proof.
  intros Hrun Hin.
  destruct (watch_path_complete now MAX_DRAWDOWN_PCT WASH_SALE_DAYS broker
              ticker m r m' e Hrun)
    as [ m1 e1 Hcheck
       | m1 e1 w2 logs2 Hcheck _
       | m1 e1 price w2 logs2 Hcheck _ _
       | m1 e1 price w2 logs2 w3 logs3 Hcheck _ _ _
       | m1 e1 price w2 logs2 positions w3 logs3 Hcheck _ _ _ _
       | m1 e1 price w2 logs2 positions w3 logs3 p Hcheck _ _ _ _ _ _
       | m1 e1 price w2 logs2 positions w3 logs3 p avg_cost qty0 divs
           Hcheck _ _ _ _ _ _ _
       | m1 e1 price w2 logs2 positions w3 logs3 p avg_cost qty0 divs w4 logs4
           Hcheck _ _ _ _ _ _ _ _
       | m1 e1 price w2 logs2 positions w3 logs3 p avg_cost qty0 divs success
           w4 logs4 today w5 Hcheck _ _ _ _ _ _ _ _ _ ];
    pose proof (check_wash_sale_plain now WASH_SALE_DAYS ticker m _ m1 e1 Hcheck)
      as He1.
  1-8: exfalso; destruct Hin as [Hin | Hin]; [discriminate Hin |];
       revert Hin; apply plain_not_order; plainly.
  assert (Hsuccess : success = true).
  { destruct success; [reflexivity | exfalso].
    apply in_app_or in Hin. destruct Hin as [[Hin | Hin] | [Hin | []]];
      try discriminate Hin.
    revert Hin. apply plain_not_order. plainly. }
  subst success. exists today. simpl.
  split; [apply lookup_insert_eq | split; [reflexivity |]].
  intros broker2 m2 Hstate Hcool.
  destruct (now (world m2)) as [d2 w'] eqn:Hnow. simpl in Hcool |- *.
  cbv [watch bind emit ret].
  rewrite (check_wash_sale_cooling now WASH_SALE_DAYS ticker m2 today d2 w');
    [reflexivity | | exact Hnow | exact Hcool].
  rewrite Hstate. apply lookup_insert_eq.
Qed.

Lemma sale_starts_cooldown_witness :
  let m' := Machine {["SPY" := 20000]} (Some {["SPY" := 20000]})
                    (Scenario.falling true) in
  exists day,
    state m' !! "SPY" = Some day
    /\ file m' = Some (state m')
    /\ forall (broker2 : BrokerInterface Scenario.world unit)
              (m2 : machine Scenario.world),
         state m2 = state m' ->
         fst (Scenario.clock (world m2)) - day < 31 ->
         watch Scenario.clock ten_percent 31 broker2 "SPY" m2
         = (Some tt,
            Machine (state m2) (file m2) (snd (Scenario.clock (world m2))),
            [LogAnalyzing "SPY";
             LogWashSaleWarning "SPY"
               (31 - (fst (Scenario.clock (world m2)) - day))]).
Proof.
  intros m'.
  refine (sale_starts_cooldown Scenario.clock ten_percent 31 Scenario.broker
            "SPY" (Scenario.boot None (Scenario.falling true)) (Some tt) m'
            [LogAnalyzing "SPY"; MarketData "SPY" 89;
             Positions [Scenario.holding "SPY" 100 (PyInt 10) 0];
             Order "SPY" SELL 10 true; Saved {["SPY" := 20000]};
             LogCooldown "SPY"]
            10 _ _).
  - vm_compute. reflexivity.
  - simpl. auto.
Defined.

(** ** A broker that is not connected *)

Lemma for_each_ext {W A : Type} (body body' : A -> M (W := W) unit)
    (items : list A) (m : machine W) :
  (forall x m0, body x m0 = body' x m0) ->
  for_each body items m = for_each body' items m.
Proof.
  intros Hext. revert m. induction items as [| x rest IH]; intros m;
    [reflexivity |].
  simpl. unfold bind. rewrite Hext.
  destruct (body' x m) as [[[a |] m1] e1]; [| reflexivity].
  now rewrite IH.
Qed.

Section Disconnected.

Context {W Contract : Type}.
Variable now : W -> date * W.
Variable WATCHLIST : list string.
Variable OPTIONS_WATCHLIST : list string.
Variable MAX_DRAWDOWN_PCT : float.
Variable WASH_SALE_DAYS : Z.
Variables s s' : Sdk W Contract.
Hypothesis Hs : connected s = false.
Hypothesis Hs' : connected s' = false.

Lemma watch_disconnected (ticker : string) (m : machine W) :
  watch now MAX_DRAWDOWN_PCT WASH_SALE_DAYS (sdk_broker s) ticker m
  = watch now MAX_DRAWDOWN_PCT WASH_SALE_DAYS (sdk_broker s') ticker m.
Proof.
  cbv [watch bind emit].
  destruct (check_wash_sale now WASH_SALE_DAYS ticker m)
    as [[[[|] |] m1] e1]; try reflexivity.
  cbv [broker_call sdk_broker get_market_data absorbing].
  rewrite Hs, Hs'. reflexivity.
Qed.

Lemma watch_options_disconnected (ticker : string) (m : machine W) :
  watch_options (sdk_broker s) ticker m = watch_options (sdk_broker s') ticker m.
Proof.
  cbv [watch_options bind emit broker_call sdk_broker get_market_data absorbing].
  rewrite Hs, Hs'. reflexivity.
Qed.

Lemma watch_disconnected_trace (ticker : string) (m : machine W)
    (r : option unit) (m' : machine W) (e : list event) :
  watch now MAX_DRAWDOWN_PCT WASH_SALE_DAYS (sdk_broker s) ticker m
  = (r, m', e) ->
  order_tickers e = [].
Proof.
  intros Hrun.
  assert (Hquote : forall w,
             get_market_data (sdk_broker s) ticker w = (Some 0%float, w, [])).
  { intros w. cbv [sdk_broker get_market_data absorbing]. now rewrite Hs. }
  destruct (watch_path_complete now MAX_DRAWDOWN_PCT WASH_SALE_DAYS
              (sdk_broker s) ticker m r m' e Hrun)
    as [ m1 e1 Hcheck
       | m1 e1 w2 logs2 Hcheck Hq
       | m1 e1 price w2 logs2 Hcheck Hq Hp
       | m1 e1 price w2 logs2 w3 logs3 Hcheck Hq Hp _
       | m1 e1 price w2 logs2 positions w3 logs3 Hcheck Hq Hp _ _
       | m1 e1 price w2 logs2 positions w3 logs3 p Hcheck Hq Hp _ _ _ _
       | m1 e1 price w2 logs2 positions w3 logs3 p avg_cost qty0 divs
           Hcheck Hq Hp _ _ _ _ _
       | m1 e1 price w2 logs2 positions w3 logs3 p avg_cost qty0 divs w4 logs4
           Hcheck Hq Hp _ _ _ _ _ _
       | m1 e1 price w2 logs2 positions w3 logs3 p avg_cost qty0 divs success
           w4 logs4 today w5 Hcheck Hq Hp _ _ _ _ _ _ _ ];
    pose proof (check_wash_sale_plain now WASH_SALE_DAYS ticker m _ m1 e1 Hcheck)
      as He1;
    try (rewrite Hquote in Hq; injection Hq as <- _ _; discriminate Hp);
    try (rewrite Hquote in Hq; discriminate Hq).
  - apply (order_tickers_plain (e1)) in He1. simpl. exact He1.
  - change (LogAnalyzing ticker
              :: e1 ++ map BrokerLog logs2
                   ++ [MarketData ticker price; LogNoPrice ticker])
      with ([LogAnalyzing ticker]
              ++ e1 ++ map BrokerLog logs2
                   ++ [MarketData ticker price; LogNoPrice ticker]).
    rewrite !order_tickers_app, (order_tickers_plain e1 He1),
      (order_tickers_plain _ (plain_broker_logs logs2)).
    reflexivity.
Qed.

End Disconnected.

Lemma concat_no_orders (xs : list string) (pieces : list (list event)) :
  Forall2 (fun (_ : string) e => order_tickers e = []) xs pieces ->
  order_tickers (concat pieces) = [].
Proof.
  induction 1 as [| x e xs pieces He _ IH]; [reflexivity |].
  simpl. now rewrite order_tickers_app, He, IH.
Qed.

(** X19. A broker that is not connected is never called.  When the first
    broker is not connected, each of its methods answers with its sentinel
    before any SDK call: the cycle is the same for any two such brokers,
    whatever their SDKs would do, and it places no order. *)
Theorem disconnected_broker_is_inert {W Contract : Type}
    (now : W -> date * W) (WATCHLIST OPTIONS_WATCHLIST : list string)
    (MAX_DRAWDOWN_PCT : float) (WASH_SALE_DAYS : Z) (s s' : Sdk W Contract)
    (others others' : list (BrokerInterface W Contract)) (m : machine W) :
  connected s = false ->
  connected s' = false ->
  run_bot_cycle now WATCHLIST OPTIONS_WATCHLIST MAX_DRAWDOWN_PCT
    WASH_SALE_DAYS (sdk_broker s :: others) m
  = run_bot_cycle now WATCHLIST OPTIONS_WATCHLIST MAX_DRAWDOWN_PCT
      WASH_SALE_DAYS (sdk_broker s' :: others') m
  /\ order_tickers
       (snd (run_bot_cycle now WATCHLIST OPTIONS_WATCHLIST MAX_DRAWDOWN_PCT
               WASH_SALE_DAYS (sdk_broker s :: others) m)) = [].
Proof.
  intros Hs Hs'. split.
  - unfold run_bot_cycle, bind.
    rewrite (for_each_ext _ (watch now MAX_DRAWDOWN_PCT WASH_SALE_DAYS
                               (sdk_broker s')) WATCHLIST m
               (watch_disconnected now MAX_DRAWDOWN_PCT WASH_SALE_DAYS
                  s s' Hs Hs')).
    destruct (for_each (watch now MAX_DRAWDOWN_PCT WASH_SALE_DAYS
                          (sdk_broker s')) WATCHLIST m)
      as [[[a |] m1] e1]; [| reflexivity].
    now rewrite (for_each_ext _ (watch_options (sdk_broker s'))
                   OPTIONS_WATCHLIST m1
                   (watch_options_disconnected s s' Hs Hs')).
  - destruct (run_bot_cycle now WATCHLIST OPTIONS_WATCHLIST MAX_DRAWDOWN_PCT
                WASH_SALE_DAYS (sdk_broker s :: others) m)
      as [[r m'] tr] eqn:Hrun. simpl.
    destruct (run_bot_cycle_phases now WATCHLIST OPTIONS_WATCHLIST
                MAX_DRAWDOWN_PCT WASH_SALE_DAYS (sdk_broker s) others
                m r m' tr Hrun) as (r1 & m1 & e1 & H1 & Hrest).
    destruct (for_each_pieces
                (watch now MAX_DRAWDOWN_PCT WASH_SALE_DAYS (sdk_broker s))
                (fun _ e => order_tickers e = [])
                (fun x m0 r0 m0' e0 =>
                   watch_disconnected_trace now MAX_DRAWDOWN_PCT
                     WASH_SALE_DAYS s Hs x m0 r0 m0' e0)
                WATCHLIST m r1 m1 e1 H1) as (pieces & -> & Hall & _).
    pose proof (concat_no_orders _ pieces Hall) as Hnone.
    destruct Hrest as [(_ & _ & _ & ->) | (_ & r2 & e2 & H2 & Hend)];
      [exact Hnone |].
    destruct (options_loop_run (sdk_broker s) OPTIONS_WATCHLIST m1 r2 m' e2 H2)
      as (_ & _ & He2).
    pose proof (order_tickers_plain e2 (inert_plain e2 He2)) as Ho2.
    destruct Hend as [(_ & _ & ->) | (_ & _ & ->)];
      rewrite !order_tickers_app, Hnone, Ho2; reflexivity.
Qed.

Lemma disconnected_broker_is_inert_witness :
  let m := Scenario.boot None (Scenario.falling true) in
  run_bot_cycle Scenario.clock ["SPY"] ["SPY"] ten_percent 31
    [sdk_broker (new_broker Scenario.sdk)] m
  = run_bot_cycle Scenario.clock ["SPY"] ["SPY"] ten_percent 31
      [sdk_broker (new_broker Scenario.flaky)] m
  /\ order_tickers
       (snd (run_bot_cycle Scenario.clock ["SPY"] ["SPY"] ten_percent 31
               [sdk_broker (new_broker Scenario.sdk)] m)) = [].
Proof.
  intros m.
  apply (disconnected_broker_is_inert Scenario.clock ["SPY"] ["SPY"]
           ten_percent 31 (new_broker Scenario.sdk)
           (new_broker Scenario.flaky) [] [] m);
    reflexivity.
Defined.

(** ** Numbers that are not numbers *)

Lemma is_nan_SF (x : float) : is_nan x = true -> Prim2SF x = S754_nan.
Proof.
  unfold is_nan. rewrite FloatAxioms.eqb_spec. unfold SFeqb, SFcompare.
  destruct (Prim2SF x) as [s | s | | s m e]; try discriminate; try reflexivity.
  - destruct s; discriminate.
  - rewrite Z.compare_refl, Pos.compare_cont_refl. destruct s; discriminate.
Qed.

Lemma ltb_nan_l (x y : float) : Prim2SF x = S754_nan -> (x <? y)%float = false.
Proof. intros H. rewrite FloatAxioms.ltb_spec, H. reflexivity. Qed.

Lemma ltb_nan_r (x y : float) : Prim2SF y = S754_nan -> (x <? y)%float = false.
Proof.
  intros H. rewrite FloatAxioms.ltb_spec, H. unfold SFltb, SFcompare.
  now destruct (Prim2SF x).
Qed.

Lemma eqb_nan_l (x y : float) : Prim2SF x = S754_nan -> (x =? y)%float = false.
Proof. intros H. rewrite FloatAxioms.eqb_spec, H. reflexivity. Qed.

Lemma sub_nan (x y : float) :
  Prim2SF x = S754_nan \/ Prim2SF y = S754_nan -> Prim2SF (x - y) = S754_nan.
Proof.
  intros H. rewrite FloatAxioms.sub_spec. unfold SF64sub, SFsub.
  destruct H as [-> | ->]; [reflexivity |].
  now destruct (Prim2SF x) as [[|] | [|] | |].
Qed.

Lemma add_nan (x y : float) :
  Prim2SF x = S754_nan \/ Prim2SF y = S754_nan -> Prim2SF (x + y) = S754_nan.
Proof.
  intros H. rewrite FloatAxioms.add_spec. unfold SF64add, SFadd.
  destruct H as [-> | ->]; [reflexivity |].
  now destruct (Prim2SF x) as [[|] | [|] | |].
Qed.

Lemma mul_nan (x y : float) :
  Prim2SF x = S754_nan \/ Prim2SF y = S754_nan -> Prim2SF (x * y) = S754_nan.
Proof.
  intros H. rewrite FloatAxioms.mul_spec. unfold SF64mul, SFmul.
  destruct H as [-> | ->]; [reflexivity |]. now destruct (Prim2SF x).
Qed.

(** X20. What is not a number is held.  When the price, the average cost,
    the dividends or [MAX_DRAWDOWN_PCT] is a NaN, both comparisons of
    [analyze_erosion] are false and the verdict is HOLD.  A NaN price is
    not equal to zero, so that the watchlist loop does not skip it, and
    it is not above zero, so that the options loop does. *)
Theorem nan_is_held (MAX_DRAWDOWN_PCT : float) (ticker : string)
    (current_price avg_cost total_dividends : float) :
  is_nan current_price = true \/ is_nan avg_cost = true
  \/ is_nan total_dividends = true \/ is_nan MAX_DRAWDOWN_PCT = true ->
  analyze_erosion MAX_DRAWDOWN_PCT ticker current_price avg_cost total_dividends
  = HOLD
  /\ (is_nan current_price = true ->
      (current_price =? 0)%float = false /\ (0 <? current_price)%float = false).
Proof.
  intros H. split.
  - unfold analyze_erosion. cbv zeta.
    destruct H as [H | [H | [H | H]]]; apply is_nan_SF in H.
    + rewrite (ltb_nan_l (current_price - avg_cost + total_dividends) 0);
        [reflexivity |].
      apply add_nan. left. apply sub_nan. now left.
    + rewrite (ltb_nan_l (current_price - avg_cost + total_dividends) 0);
        [reflexivity |].
      apply add_nan. left. apply sub_nan. now right.
    + rewrite (ltb_nan_l (current_price - avg_cost + total_dividends) 0);
        [reflexivity |].
      apply add_nan. now right.
    + rewrite (ltb_nan_l (avg_cost * MAX_DRAWDOWN_PCT)
                 (abs (current_price - avg_cost)));
        [now rewrite andb_false_r |].
      apply mul_nan. now right.
  - intros Hp. apply is_nan_SF in Hp.
    split; [now apply eqb_nan_l | now apply ltb_nan_r].
Qed.

Lemma nan_is_held_witness :
  analyze_erosion ten_percent "SPY" nan 100 0 = HOLD
  /\ (is_nan nan = true -> (nan =? 0)%float = false /\ (0 <? nan)%float = false).
Proof.
  apply (nan_is_held ten_percent "SPY" nan 100 0). left. reflexivity.
Defined.

(** ** The watchlists of the environment *)

Lemma split_commas_cons (s : string) :
  exists piece pieces, split_commas s = piece :: pieces.
Proof.
  destruct s as [| c s]; simpl; [eauto |].
  destruct (Ascii.eqb c ","); [eauto |].
  destruct (split_commas s); eauto.
Qed.

(** X21. Splitting loses nothing.  [s.split(',')] is never empty, none of
    its pieces holds a comma, and joining the pieces with commas gives [s]
    back: every other character of the variable, blanks included, ends up
    in a ticker. *)
Theorem split_commas_round_trip (s : string) :
  join_commas (split_commas s) = s
  /\ split_commas s <> []
  /\ Forall (fun piece => has_comma piece = false) (split_commas s).
Proof.
  split; [| split].
  - induction s as [| c s IH]; [reflexivity |].
    simpl. destruct (Ascii.eqb_spec c ",") as [-> | Hc].
    + destruct (split_commas_cons s) as (p & ps & Hs).
      rewrite Hs in IH |- *. simpl in IH |- *. now rewrite IH.
    + destruct (split_commas_cons s) as (p & ps & Hs).
      rewrite Hs in IH |- *. destruct ps as [| q qs]; simpl in IH |- *;
        now rewrite <- IH.
  - destruct (split_commas_cons s) as (p & ps & ->). discriminate.
  - induction s as [| c s IH]; [repeat constructor |].
    simpl. destruct (Ascii.eqb c ",") eqn:Hc; [now constructor |].
    destruct (split_commas s) as [| p ps]; [repeat constructor; simpl;
                                            now rewrite Hc |].
    inversion IH as [| ? ? Hp Hps]; subst.
    constructor; [simpl; now rewrite Hc, Hp | exact Hps].
Qed.

(** X22. One piece per comma.  Splitting at a comma splits the list of the
    pieces: the pieces of [s1,s2] are those of [s1] followed by those of
    [s2].  So a comma at the end of the variable adds the empty string as
    the last ticker, and a variable that is set to a non-empty string gives
    its own pieces, never the defaults and never an empty watchlist.  The
    two spellings of each default in the source, the string that is split
    and the list, agree. *)
Theorem split_commas_at_comma (s1 s2 : string) :
  split_commas (s1 ++ String "," s2) = split_commas s1 ++ split_commas s2
  /\ split_commas (s1 ++ ",") = split_commas s1 ++ [EmptyString]
  /\ (forall c defaults,
         watchlist_from_env (Some (String c s1)) defaults
         = split_commas (String c s1)
         /\ watchlist_from_env (Some (String c s1)) defaults <> [])
  /\ split_commas "SPY,QQQ,TSLA,NVDA" = DEFAULT_WATCHLIST
  /\ split_commas "SPY,QQQ" = DEFAULT_OPTIONS_WATCHLIST.
Proof.
  assert (Hsplit : forall s, split_commas (s1 ++ String "," s)
                            = split_commas s1 ++ split_commas s).
  { intros s. induction s1 as [| c s1' IH]; [reflexivity |].
    simpl. destruct (Ascii.eqb c ","); [now rewrite IH |].
    rewrite IH. destruct (split_commas_cons s1') as (p & ps & ->).
    reflexivity. }
  split; [apply Hsplit | split; [apply (Hsplit EmptyString) |]].
  split; [| split; reflexivity].
  intros c defaults. split; [reflexivity |].
  unfold watchlist_from_env.
  destruct (split_commas_cons (String c s1)) as (p & ps & ->). discriminate.
Qed.

(** ** The standalone program *)

Lemma standalone_verdict (ticker : string) :
  analyze_erosion Standalone.MAX_DRAWDOWN_PCT ticker
    (Standalone.get_market_data ticker) Standalone.my_avg_cost
    Standalone.my_dividends = HOLD.
Proof. reflexivity. Qed.

Lemma standalone_watch {W : Type} (now : W -> date * W) (ticker : string)
    (m : machine W) :
  let '(m', out) := Standalone.watch now ticker m in
  (forall a t, ~ In (Standalone.Executing a t) out)
  /\ (forall t, state m' !! t = state m !! t
                \/ (t = ticker /\ state m' !! t = None))
  /\ (durable m -> durable m')
  /\ (In (Standalone.Engine (LogHold ticker)) out
      \/ exists days,
           In (Standalone.Engine (LogWashSaleWarning ticker days)) out).
Proof.
  unfold Standalone.watch. rewrite standalone_verdict.
  cbv [check_wash_sale bind get_wash_log datetime_now].
  destruct (state m !! ticker) as [last |] eqn:Hentry.
  - destruct (now (world m)) as [today w].
    destruct (today - last <? Standalone.WASH_SALE_DAYS); simpl.
    + split; [| split; [| split]].
      * intros a t [H | [H | []]]; discriminate H.
      * intros t. now left.
      * auto.
      * right. eexists. right. left. reflexivity.
    + split; [| split; [| split]].
      * intros a t [H | [H | [H | [H | []]]]]; discriminate H.
      * intros t. destruct (decide (t = ticker)) as [-> | Hne].
        -- right. split; [reflexivity | apply lookup_delete_eq].
        -- left. now apply lookup_delete_ne.
      * reflexivity.
      * left. right. right. right. now left.
  - simpl. split; [| split; [| split]].
    + intros a t [H | [H | [H | []]]]; discriminate H.
    + intros t. now left.
    + auto.
    + left. right. right. now left.
Qed.

Lemma standalone_watch_all {W : Type} (now : W -> date * W)
    (tickers : list string) (m : machine W) :
  let '(m', out) := Standalone.watch_all now tickers m in
  (forall a t, ~ In (Standalone.Executing a t) out)
  /\ (forall t, state m' !! t = state m !! t
                \/ (In t tickers /\ state m' !! t = None))
  /\ (durable m -> durable m')
  /\ (forall t, In t tickers ->
        In (Standalone.Engine (LogHold t)) out
        \/ exists days, In (Standalone.Engine (LogWashSaleWarning t days)) out).
Proof.
  revert m. induction tickers as [| x rest IH]; intros m; simpl.
  - split; [| split; [| split]]; auto; intros t [].
  - pose proof (standalone_watch now x m) as H1.
    destruct (Standalone.watch now x m) as [m1 e1].
    destruct H1 as (Hx1 & Hs1 & Hd1 & Hl1).
    specialize (IH m1).
    destruct (Standalone.watch_all now rest m1) as [m2 e2].
    destruct IH as (Hx2 & Hs2 & Hd2 & Hl2).
    split; [| split; [| split]].
    + intros a t Hin. apply in_app_or in Hin.
      destruct Hin as [Hin | Hin]; [exact (Hx1 a t Hin) | exact (Hx2 a t Hin)].
    + intros t. destruct (Hs2 t) as [H2 | [Hin H2]]; [| right; auto].
      rewrite H2. destruct (Hs1 t) as [H1 | [-> H1]]; [now left |].
      right. split; [now left | exact H1].
    + auto.
    + intros t [<- | Hin]; rewrite ?in_app_iff.
      * destruct Hl1 as [H | [days H]]; [now left; left |].
        right. exists days. rewrite in_app_iff. now left.
      * destruct (Hl2 t Hin) as [H | [days H]]; [now left; right |].
        right. exists days. rewrite in_app_iff. now right.
Qed.

(** X23. The standalone program never trades.  Whatever the ledger file
    holds and whatever the date is, a cycle of [main.py] executes no trade:
    at its mock price of 38.57, cost of 40.00 and dividends of 0.55 the
    verdict is HOLD.  Every ticker of its watchlist is held or found
    restricted; a ledger entry is as in the file or, for a ticker of the
    watchlist, pruned; and the memory ends as the file reads. *)
Theorem standalone_never_trades {W : Type} (now : W -> date * W)
    (m : machine W) :
  let '(m', out) := Standalone.run_bot_cycle now m in
  (forall a t, ~ In (Standalone.Executing a t) out)
  /\ (forall t, state m' !! t = load_state (file m) !! t
                \/ (In t Standalone.WATCHLIST /\ state m' !! t = None))
  /\ durable m'
  /\ (forall t, In t Standalone.WATCHLIST ->
        In (Standalone.Engine (LogHold t)) out
        \/ exists days, In (Standalone.Engine (LogWashSaleWarning t days)) out).
Proof.
  unfold Standalone.run_bot_cycle.
  pose proof (standalone_watch_all now Standalone.WATCHLIST
                (Machine (load_state (file m)) (file m) (world m))) as H.
  destruct (Standalone.watch_all now Standalone.WATCHLIST
              (Machine (load_state (file m)) (file m) (world m)))
    as [m' out].
  destruct H as (Hx & Hs & Hd & Hl).
  split; [| split; [| split]].
  - intros a t Hin. apply in_app_or in Hin.
    destruct Hin as [Hin | [Hin | []]]; [exact (Hx a t Hin) | discriminate Hin].
  - exact Hs.
  - apply Hd. reflexivity.
  - intros t Hin. destruct (Hl t Hin) as [H | [days H]].
    + left. apply in_or_app. now left.
    + right. exists days. apply in_or_app. now left.
Qed.

(** ** The whole run *)

Lemma cycle_events_turn {W Contract : Type} (now : W -> date * W)
    (sleep : Z -> W -> W) (WATCHLIST OPTIONS_WATCHLIST : list string)
    (MAX_DRAWDOWN_PCT : float) (WASH_SALE_DAYS CYCLE_INTERVAL_SECONDS : Z)
    (brokers : list (Sdk W Contract)) (m : machine W) :
  cycle_events (snd (turn now sleep WATCHLIST OPTIONS_WATCHLIST
                       MAX_DRAWDOWN_PCT WASH_SALE_DAYS CYCLE_INTERVAL_SECONDS
                       brokers m))
  = snd (run_bot_cycle now WATCHLIST OPTIONS_WATCHLIST MAX_DRAWDOWN_PCT
           WASH_SALE_DAYS (map sdk_broker brokers) m).
Proof.
  destruct (turn_cases now sleep WATCHLIST OPTIONS_WATCHLIST MAX_DRAWDOWN_PCT
              WASH_SALE_DAYS CYCLE_INTERVAL_SECONDS brokers m)
    as (r & m' & tr & seconds & -> & [(_ & _ & _ & ->) | (_ & _ & ->)]);
    simpl; rewrite cycle_events_app, cycle_events_in_cycle; simpl;
    apply app_nil_r.
Qed.

(** X24. The bot never buys.  Over any number of turns of the loop of
    [main], with whatever brokers came out of the start-up, every order
    that a cycle places sells, and sells a ticker of the watchlist. *)
Theorem main_never_buys {W Contract : Type} (now : W -> date * W)
    (sleep : Z -> W -> W) (WATCHLIST OPTIONS_WATCHLIST : list string)
    (MAX_DRAWDOWN_PCT : float) (WASH_SALE_DAYS CYCLE_INTERVAL_SECONDS : Z)
    (n : nat) (schwab robinhood : BrokerSetup (W := W) (Contract := Contract))
    (file0 : option ledger) (w : W) :
  Forall (fun ev =>
            match ev with
            | Order ticker a _ _ => a = SELL /\ In ticker WATCHLIST
            | _ => True
            end)
         (cycle_events
            (snd (main now sleep WATCHLIST OPTIONS_WATCHLIST MAX_DRAWDOWN_PCT
                    WASH_SALE_DAYS CYCLE_INTERVAL_SECONDS n schwab robinhood
                    file0 w))).
Proof.
  assert (Hcycle : forall (brokers : list (Sdk W Contract)) (m : machine W),
             Forall (fun ev =>
                       match ev with
                       | Order ticker a _ _ => a = SELL /\ In ticker WATCHLIST
                       | _ => True
                       end)
                    (snd (run_bot_cycle now WATCHLIST OPTIONS_WATCHLIST
                            MAX_DRAWDOWN_PCT WASH_SALE_DAYS
                            (map sdk_broker brokers) m))).
  { intros brokers m.
    destruct (run_bot_cycle now WATCHLIST OPTIONS_WATCHLIST MAX_DRAWDOWN_PCT
                WASH_SALE_DAYS (map sdk_broker brokers) m)
      as [[r m'] tr] eqn:Hrun.
    pose proof (cycle_orders_justified now WATCHLIST OPTIONS_WATCHLIST
                  MAX_DRAWDOWN_PCT WASH_SALE_DAYS _ m r m' tr Hrun) as Hj.
    simpl. apply List.Forall_forall. intros ev Hin.
    destruct ev; try exact I.
    apply in_split in Hin. destruct Hin as (pre & post & Heq).
    destruct (Hj pre ticker a qty success post Heq) as [Hin [Ha _]].
    now split. }
  assert (Hturns : forall k (brokers : list (Sdk W Contract))
                          (m : machine W),
             Forall (fun ev =>
                       match ev with
                       | Order ticker a _ _ => a = SELL /\ In ticker WATCHLIST
                       | _ => True
                       end)
                    (cycle_events
                       (snd (turns now sleep WATCHLIST OPTIONS_WATCHLIST
                               MAX_DRAWDOWN_PCT WASH_SALE_DAYS
                               CYCLE_INTERVAL_SECONDS k brokers m)))).
  { induction k as [| k IH]; intros brokers m; [constructor |].
    simpl.
    pose proof (cycle_events_turn now sleep WATCHLIST OPTIONS_WATCHLIST
                  MAX_DRAWDOWN_PCT WASH_SALE_DAYS CYCLE_INTERVAL_SECONDS
                  brokers m) as Hturn.
    destruct (turn now sleep WATCHLIST OPTIONS_WATCHLIST MAX_DRAWDOWN_PCT
                WASH_SALE_DAYS CYCLE_INTERVAL_SECONDS brokers m) as [m1 e1].
    specialize (IH brokers m1).
    destruct (turns now sleep WATCHLIST OPTIONS_WATCHLIST MAX_DRAWDOWN_PCT
                WASH_SALE_DAYS CYCLE_INTERVAL_SECONDS k brokers m1)
      as [m2 e2].
    simpl in *. rewrite cycle_events_app, Hturn.
    apply Forall_app. split; [apply Hcycle | exact IH]. }
  unfold main, TradingBot_init.
  destruct (_initialize_brokers schwab robinhood w) as [[brokers w'] logs].
  destruct brokers as [| b others].
  - simpl. rewrite cycle_events_app, cycle_events_startup. constructor.
  - specialize (Hturns n (b :: others) (Machine (load_state file0) file0 w')).
    destruct (turns now sleep WATCHLIST OPTIONS_WATCHLIST MAX_DRAWDOWN_PCT
                WASH_SALE_DAYS CYCLE_INTERVAL_SECONDS n (b :: others)
                (Machine (load_state file0) file0 w')) as [m' tr].
    simpl in *. rewrite cycle_events_app, cycle_events_startup. exact Hturns.
Qed.

(** ** Matching a position *)

Lemma upper_ascii_idempotent (c : ascii) :
  upper_ascii (upper_ascii c) = upper_ascii c.
Proof. destruct c as [[] [] [] [] [] [] [] []]; reflexivity. Qed.

Lemma upper_idempotent (s : string) : upper (upper s) = upper s.
Proof.
  induction s as [| c s IH]; [reflexivity |].
  simpl. now rewrite upper_ascii_idempotent, IH.
Qed.

Lemma find_position_skip (ticker : string) (pre : list position)
    (p : position) (rest : list position) :
  Forall (fun q => upper (default EmptyString (symbol q)) <> upper ticker) pre ->
  upper (default EmptyString (symbol p)) = upper ticker ->
  find_position ticker (pre ++ p :: rest) = Some p.
Proof.
  intros Hpre Hp. unfold find_position.
  induction Hpre as [| q pre Hq _ IH]; simpl.
  - apply String.eqb_eq in Hp. now rewrite Hp.
  - apply String.eqb_neq in Hq. rewrite Hq. exact IH.
Qed.

Lemma find_position_none (ticker : string) (positions : list position) :
  find_position ticker positions = None
  <-> Forall (fun q => upper (default EmptyString (symbol q)) <> upper ticker)
             positions.
Proof.
  unfold find_position. induction positions as [| q rest IH]; simpl.
  - split; [constructor | reflexivity].
  - destruct (String.eqb_spec (upper (default EmptyString (symbol q)))
                (upper ticker)) as [Heq | Hne].
    + split; [discriminate |]. intros H. inversion H as [| ? ? Hq _].
      now contradiction Hq.
    + rewrite IH. split; [now constructor | intros H; now inversion H].
Qed.

(** X25. The first match, whatever the case.  The record of a ticker is the
    same for every spelling of the ticker that has the same upper case; it
    is the first record of the list that matches, so that of two records
    for one symbol the second is never read; and there is none exactly when
    no record of the list matches. *)
Theorem find_position_first_match (ticker : string) (positions : list position) :
  find_position (upper ticker) positions = find_position ticker positions
  /\ (forall other,
         upper other = upper ticker ->
         find_position other positions = find_position ticker positions)
  /\ (forall pre p rest,
         positions = pre ++ p :: rest ->
         Forall (fun q => upper (default EmptyString (symbol q)) <> upper ticker)
                pre ->
         upper (default EmptyString (symbol p)) = upper ticker ->
         find_position ticker positions = Some p)
  /\ (find_position ticker positions = None
      <-> Forall (fun q => upper (default EmptyString (symbol q))
                           <> upper ticker)
                 positions).
Proof.
  assert (Hsame : forall other, upper other = upper ticker ->
             find_position other positions = find_position ticker positions).
  { intros other Heq. unfold find_position. now rewrite Heq. }
  split; [apply Hsame, upper_idempotent | split; [exact Hsame | split]].
  - intros pre p rest -> Hpre Hp. now apply find_position_skip.
  - apply find_position_none.
Qed.
